(** * The SCSS tag scanner of ctags (scss.c), embedded in Rocq

    The scanner is a character-level state machine.  [findScssTags] fetches
    physical lines from the line source, [parseScssLine] walks one line and
    switches on the parser state, and [parseScssDeclaration] accumulates one
    selector / class / id clause, fetching further lines when the clause
    spans several of them, and hands a tag to the tag sink.

    The C code works on [const unsigned char *] pointers into the line
    buffer.  A pointer is modelled as a buffer together with an offset; a
    dereference outside the bytes of the line and its terminating NUL is a
    fault of the model, so the bounds discipline of the scanner is visible
    in the results.  The line source and the tag sink are the two fields of
    a [world] that is threaded through the scanner.

    The loops of the C code take a fuel argument here; [parseScssLine] and
    [findScssTags] give them enough of it for every input
    ([scans_never_run_out_of_fuel]), so a scan either returns or stops on a
    read outside a line buffer. *)

From Stdlib Require Import ZArith NArith String Ascii List Bool Lia.
Import ListNotations.

Local Open Scope Z_scope.

(** ** Characters *)

Definition NUL : ascii := "000"%char.
Definition SQUOTE : ascii := "'"%char.
Definition DQUOTE : ascii := "034"%char.
Definition BACKSLASH : ascii := "092"%char.

(** [isspace] and [isalnum] of <ctype.h> in the C locale, on the value of an
    [unsigned char]. *)
Module Ctype.

Definition between (lo hi : N) (c : ascii) : bool :=
  let n := N_of_ascii c in ((lo <=? n) && (n <=? hi))%N.

(* space, \t, \n, \v, \f, \r *)
Definition isspace (c : ascii) : bool :=
  between 32 32 c || between 9 13 c.

Definition isdigit (c : ascii) : bool := between 48 57 c.
Definition isupper (c : ascii) : bool := between 65 90 c.
Definition islower (c : ascii) : bool := between 97 122 c.

Definition isalnum (c : ascii) : bool :=
  isdigit c || isupper c || islower c.

End Ctype.
Export Ctype.

(** ** Kinds and parser states (the two enums of scss.c) *)

Inductive cssKind : Set := K_NONE | K_CLASS | K_SELECTOR | K_ID.

Inductive ScssParserState : Set :=
| P_STATE_NONE              (* default state *)
| P_STATE_IN_COMMENT        (* into a comment *)
| P_STATE_IN_SINGLE_STRING  (* into a single quoted string *)
| P_STATE_IN_DOUBLE_STRING  (* into a double quoted string *)
| P_STATE_IN_DEFINITION     (* on the body of the style definition *)
| P_STATE_IN_MEDIA          (* on a @media declaration *)
| P_STATE_IN_IMPORT         (* on a @import declaration *)
| P_STATE_IN_NAMESPACE      (* on a @namespace declaration *)
| P_STATE_IN_PAGE           (* on a @page declaration *)
| P_STATE_IN_FONTFACE       (* on a @font-face declaration *)
| P_STATE_AT_END.           (* end of parsing *)

Definition cssKind_eqb (a b : cssKind) : bool :=
  match a, b with
  | K_NONE, K_NONE | K_CLASS, K_CLASS
  | K_SELECTOR, K_SELECTOR | K_ID, K_ID => true
  | _, _ => false
  end.

Definition state_eq_dec (a b : ScssParserState) : {a = b} + {a <> b}.
Proof. decide equality. Defined.

(** ** Line buffers and pointers into them *)

(** A pointer into the buffer of a line: the bytes of the line (without the
    terminating NUL) and an offset.  Offset [String.length buf] is the NUL. *)
Record cursor : Set := At { buf : string; off : Z }.

Definition advance (p : cursor) : cursor := At (buf p) (off p + 1).
Definition previous (p : cursor) : cursor := At (buf p) (off p - 1).

(** The byte a pointer points to, when the pointer is inside the line or on
    its NUL. *)
Definition deref (p : cursor) : option ascii :=
  let n := Z.of_nat (String.length (buf p)) in
  if (off p <? 0) || (n <? off p) then None
  else if off p =? n then Some NUL
  else String.get (Z.to_nat (off p)) (buf p).

(** ** The collaborators: line source and tag sink *)

Record tagEntry : Set := Tag { tagKind : cssKind; tagName : string }.

Record world : Set := World {
  pending : list string;   (* lines fileReadLine has not returned yet *)
  tags : list tagEntry     (* tags handed to the sink, oldest first *)
}.

Inductive fault : Set :=
| ReadOutOfBounds (offset : Z)   (* dereference outside the line and its NUL *)
| OutOfFuel.

Inductive outcome (A : Type) : Type :=
| Done (a : A) (w : world)
| Failed (f : fault) (w : world).
Arguments Done {A} a w.
Arguments Failed {A} f w.

Definition M (A : Type) : Type := world -> outcome A.

Definition ret {A} (a : A) : M A := fun w => Done a w.
Definition raise {A} (f : fault) : M A := fun w => Failed f w.
Definition bind {A B} (m : M A) (k : A -> M B) : M B :=
  fun w => match m w with
           | Done a w' => k a w'
           | Failed f w' => Failed f w'
           end.

Declare Scope scss_scope.
Delimit Scope scss_scope with scss.
Notation "x <- m ;; k" := (bind m (fun x => k))
  (at level 61, m at next level, right associativity) : scss_scope.
Notation "m ;;; k" := (bind m (fun _ => k))
  (at level 61, right associativity) : scss_scope.
Local Open Scope scss_scope.

(** Dereference of a pointer. *)
Definition load (p : cursor) : M ascii :=
  match deref p with
  | Some c => ret c
  | None => raise (ReadOutOfBounds (off p))
  end.

(** Modelled from the spec: fileReadLine (read.c is not part of src/), the
    line source [nextLine() -> Line | EndOfInput]: it returns a pointer to
    the first byte of the next physical line, or NULL at the end of input. *)
Definition fileReadLine : M (option cursor) :=
  fun w => match pending w with
           | [] => Done None w
           | l :: rest => Done (Some (At l 0)) (World rest (tags w))
           end.

(** Modelled from the spec: makeSimpleTag (parse.c is not part of src/), the
    tag sink [emit(name, kind)], invoked once per recognized declaration. *)
Definition makeSimpleTag (name : string) (kind : cssKind) : M unit :=
  fun w => Done tt (World (pending w) (tags w ++ [Tag kind name])).

(** Modelled from the spec: vStringPut (vstring.h is not part of src/)
    appends a character to the buffer; the buffer is a C string, so putting
    a NUL leaves its text as it is. *)
Definition vStringPut (s : string) (c : ascii) : string :=
  if Ascii.eqb c NUL then s else (s ++ String c EmptyString)%string.

(** Modelled from the spec: vStringStripTrailing (vstring.c is not part of
    src/) strips trailing whitespace from the buffer. *)
Fixpoint vStringStripTrailing (s : string) : string :=
  match s with
  | EmptyString => EmptyString
  | String c s' =>
      match vStringStripTrailing s' with
      | EmptyString => if isspace c then EmptyString else String c EmptyString
      | t => String c t
      end
  end.

(** ** scss.c *)

(** The buffer [name] is a local of the declaration scanner; terminating,
    clearing and deleting it have no effect on the tag that was made. *)
Definition makeScssSimpleTag (name : string) (kind : cssKind) (delete : bool)
  : M unit :=
  let name := if cssKind_eqb kind K_CLASS then vStringStripTrailing name
              else name in
  makeSimpleTag name kind.

Definition allowedChar (c : ascii) : bool :=
  isalnum c || isspace c
  || Ascii.eqb c "_" || Ascii.eqb c "-" || Ascii.eqb c "+"
  || Ascii.eqb c ">" || Ascii.eqb c "{" || Ascii.eqb c "."
  || Ascii.eqb c "," || Ascii.eqb c ":" || Ascii.eqb c "*"
  || Ascii.eqb c "#".

Definition isScssDeclarationAllowedChar (cp : cursor) : M bool :=
  c <- load cp ;; ret (allowedChar c).

(** The [while] loop of parseScssDeclaration.  It returns the state and the
    pointer stored through [position] ([None] is NULL). *)
Fixpoint parseScssDeclaration_loop (fuel : nat) (name : string) (cp : cursor)
    (kind : cssKind) : M (ScssParserState * option cursor) :=
  match fuel with
  | O => raise OutOfFuel
  | S fuel' =>
      allowed <- isScssDeclarationAllowedChar cp ;;
      c <- load cp ;;
      if allowed || Ascii.eqb c NUL then
        if Ascii.eqb c NUL then
          next <- fileReadLine ;;
          match next with
          | None =>
              makeScssSimpleTag name kind true ;;;
              ret (P_STATE_AT_END, None)
          | Some cp' =>
              (* control reaches vStringPut with the new line's first byte *)
              c' <- load cp' ;;
              parseScssDeclaration_loop fuel' (vStringPut name c')
                                        (advance cp') kind
          end
        else if Ascii.eqb c "," then
          makeScssSimpleTag name kind true ;;;
          ret (P_STATE_NONE, Some (advance cp))
        else if Ascii.eqb c "{" then
          makeScssSimpleTag name kind true ;;;
          ret (P_STATE_IN_DEFINITION, Some (advance cp))
        else
          parseScssDeclaration_loop fuel' (vStringPut name c) (advance cp) kind
      else
        makeScssSimpleTag name kind true ;;;
        ret (P_STATE_NONE, Some cp)
  end.

Definition parseScssDeclaration (fuel : nat) (position : cursor)
    (kind : cssKind) : M (ScssParserState * option cursor) :=
  parseScssDeclaration_loop fuel EmptyString position kind.

(** The whitespace loop at the head of each iteration of parseScssLine:
    the pointer moves forward while it is on a whitespace byte. *)
Fixpoint skipSpace (fuel : nat) (line : cursor) : M cursor :=
  match fuel with
  | O => raise OutOfFuel
  | S fuel' =>
      c <- load line ;;
      if isspace c then skipSpace fuel' (advance line) else ret line
  end.

(** The loop that reads the keyword after '@': every byte that is not
    whitespace is put into [aux] and the pointer moves forward. *)
Fixpoint readDirective (fuel : nat) (aux : string) (line : cursor)
  : M (string * cursor) :=
  match fuel with
  | O => raise OutOfFuel
  | S fuel' =>
      c <- load line ;;
      if negb (isspace c) then readDirective fuel' (vStringPut aux c) (advance line)
      else ret (aux, line)
  end.

(** The chain of [strcmp]s on the directive keyword; no match leaves the
    state as it is. *)
Definition directiveState (aux : string) (state : ScssParserState)
  : ScssParserState :=
  if String.eqb aux "media" then P_STATE_IN_MEDIA
  else if String.eqb aux "import" then P_STATE_IN_IMPORT
  else if String.eqb aux "namespace" then P_STATE_IN_NAMESPACE
  else if String.eqb aux "page" then P_STATE_IN_PAGE
  else if String.eqb aux "font-face" then P_STATE_IN_FONTFACE
  else state.

(** The skipping loop of the P_STATE_IN_MEDIA case (it stops on '{') and of
    the P_STATE_IN_IMPORT and P_STATE_IN_NAMESPACE cases (it stops on ';'):
    it also leaves, by [break], on the NUL of the line. *)
Fixpoint skipTo (fuel : nat) (stop : ascii) (line : cursor) : M cursor :=
  match fuel with
  | O => raise OutOfFuel
  | S fuel' =>
      c <- load line ;;
      if negb (Ascii.eqb c stop) then
        if Ascii.eqb c NUL then ret line
        else skipTo fuel' stop (advance line)
      else ret line
  end.

(** How control leaves the [switch] of parseScssLine: by [break], with the
    state and the pointer ([None] is NULL), or by [return state]. *)
Inductive switchExit : Set :=
| Break (state : ScssParserState) (line : option cursor)
| Return (state : ScssParserState).

Definition break_of (r : ScssParserState * option cursor) : switchExit :=
  Break (fst r) (snd r).

Definition parseScssLine_switch (fuel : nat) (line : cursor)
    (state : ScssParserState) : M switchExit :=
  match state with
  | P_STATE_NONE =>
      c <- load line ;;
      if isalnum c then
        r <- parseScssDeclaration fuel line K_SELECTOR ;; ret (break_of r)
      else if Ascii.eqb c "." then
        r <- parseScssDeclaration fuel line K_CLASS ;; ret (break_of r)
      else if Ascii.eqb c "#" then
        r <- parseScssDeclaration fuel line K_ID ;; ret (break_of r)
      else if Ascii.eqb c "@" then
        r <- readDirective fuel EmptyString (advance line) ;;
        ret (Break (directiveState (fst r) state) (Some (snd r)))
      else if Ascii.eqb c "*" then
        p <- load (previous line) ;;
        if Ascii.eqb p "/" then ret (Break P_STATE_IN_COMMENT (Some line))
        else ret (Break state (Some line))
      else ret (Break state (Some line))
  | P_STATE_IN_COMMENT =>
      c <- load line ;;
      if Ascii.eqb c "/" then
        p <- load (previous line) ;;
        if Ascii.eqb p "*" then ret (Break P_STATE_NONE (Some line))
        else ret (Break state (Some line))
      else ret (Break state (Some line))
  | P_STATE_IN_SINGLE_STRING =>
      c <- load line ;;
      if Ascii.eqb c SQUOTE then
        p <- load (previous line) ;;
        if negb (Ascii.eqb p BACKSLASH)
        then ret (Break P_STATE_IN_DEFINITION (Some line))
        else ret (Break state (Some line))
      else ret (Break state (Some line))
  | P_STATE_IN_DOUBLE_STRING =>
      c <- load line ;;
      if Ascii.eqb c DQUOTE then
        p <- load (previous line) ;;
        if negb (Ascii.eqb p BACKSLASH)
        then ret (Break P_STATE_IN_DEFINITION (Some line))
        else ret (Break state (Some line))
      else ret (Break state (Some line))
  | P_STATE_IN_MEDIA =>
      line' <- skipTo fuel "{" line ;;
      c <- load line' ;;
      if Ascii.eqb c "{" then ret (Break P_STATE_NONE (Some line'))
      else ret (Break state (Some line'))
  | P_STATE_IN_IMPORT | P_STATE_IN_NAMESPACE =>
      line' <- skipTo fuel ";" line ;;
      c <- load line' ;;
      if Ascii.eqb c ";" then ret (Break P_STATE_NONE (Some line'))
      else ret (Break state (Some line'))
  | P_STATE_IN_PAGE | P_STATE_IN_FONTFACE | P_STATE_IN_DEFINITION =>
      c <- load line ;;
      if Ascii.eqb c "}" then ret (Break P_STATE_NONE (Some line))
      else if Ascii.eqb c SQUOTE then ret (Break P_STATE_IN_SINGLE_STRING (Some line))
      else if Ascii.eqb c DQUOTE then ret (Break P_STATE_IN_DOUBLE_STRING (Some line))
      else ret (Break state (Some line))
  | P_STATE_AT_END => ret (Return state)
  end.

(** The result of scanning: the function returned [state], or the scan
    stopped at a fault while the variable [state] held the given value. *)
Inductive scanResult : Set :=
| Returned (state : ScssParserState) (w : world)
| Aborted (f : fault) (state : ScssParserState) (w : world).

Definition final_state (r : scanResult) : ScssParserState :=
  match r with Returned st _ | Aborted _ st _ => st end.

Definition final_world (r : scanResult) : world :=
  match r with Returned _ w | Aborted _ _ w => w end.

Definition final_tags (r : scanResult) : list tagEntry := tags (final_world r).

(** Runs [m] while the variable [state] holds [st]. *)
Definition during {A} (st : ScssParserState) (m : M A)
    (k : A -> world -> scanResult) : world -> scanResult :=
  fun w => match m w with
           | Done a w' => k a w'
           | Failed f w' => Aborted f st w'
           end.

Notation "x <-[ st ] m ;; k" := (during st m (fun x => k))
  (at level 61, m at next level, right associativity) : scss_scope.

(** The outer loop of parseScssLine, which runs until the pointer is on a
    NUL. *)
Fixpoint parseScssLine_loop (fuel : nat) (line : cursor)
    (state : ScssParserState) : world -> scanResult :=
  match fuel with
  | O => Aborted OutOfFuel state
  | S fuel' =>
      c <-[state] load line ;;
      if Ascii.eqb c NUL then Returned state
      else
        line1 <-[state] skipSpace fuel' line ;;
        x <-[state] parseScssLine_switch fuel' line1 state ;;
        match x with
        | Return st => Returned st
        | Break st None => Returned st               (* line == NULL: break *)
        | Break st (Some line2) => parseScssLine_loop fuel' (advance line2) st
        end
  end.

(** Enough fuel to walk every byte of the line and of all the lines still
    pending, their NULs and one position past each. *)
Definition fuel_of (line : string) (w : world) : nat :=
  fold_right (fun l n => (String.length l + 3 + n)%nat)
             (String.length line + 3)%nat (pending w).

Definition parseScssLine (line : string) (state : ScssParserState)
  : world -> scanResult :=
  fun w => parseScssLine_loop (fuel_of line w) (At line 0) state w.

(** The loop of findScssTags; every iteration takes at least one line. *)
Fixpoint findScssTags_loop (fuel : nat) (state : ScssParserState)
  : world -> scanResult :=
  match fuel with
  | O => Aborted OutOfFuel state
  | S fuel' =>
      next <-[state] fileReadLine ;;
      match next with
      | None => Returned state
      | Some line =>
          fun w =>
            match parseScssLine (buf line) state w with
            | Returned st w' =>
                if state_eq_dec st P_STATE_AT_END then Returned st w'
                else findScssTags_loop fuel' st w'
            | Aborted f st w' => Aborted f st w'
            end
      end
  end.

Definition findScssTags (input : list string) : scanResult :=
  findScssTags_loop (S (List.length input)) P_STATE_NONE (World input []).

(** ** Vocabulary of the statements *)

(** The bytes from position [n] of [s] on, when [n] is inside [s] or on its
    end. *)
Fixpoint drop (n : nat) (s : string) : option string :=
  match n, s with
  | O, _ => Some s
  | S n', String _ s' => drop n' s'
  | S _, EmptyString => None
  end.

(** What a pointer has in front of it: the bytes from its offset up to the
    NUL, when it points into the line or on its NUL. *)
Definition rest (p : cursor) : option string :=
  if off p <? 0 then None else drop (Z.to_nat (off p)) (buf p).

Definition advance_by (n : nat) (p : cursor) : cursor :=
  At (buf p) (off p + Z.of_nat n).

Fixpoint all_chars (f : ascii -> bool) (s : string) : bool :=
  match s with
  | EmptyString => true
  | String c s' => f c && all_chars f s'
  end.

(** The first byte of [s], read as a C string: NUL when [s] is empty. *)
Definition first_char (s : string) : ascii :=
  match s with
  | EmptyString => NUL
  | String c _ => c
  end.

(** A byte the declaration scanner accumulates: allowed, and neither the
    end of the line nor one of the two terminators. *)
Definition accumulated (c : ascii) : bool :=
  allowedChar c && negb (Ascii.eqb c NUL)
  && negb (Ascii.eqb c ",") && negb (Ascii.eqb c "{").

(** A byte of a directive keyword: neither whitespace nor NUL. *)
Definition keywordChar (c : ascii) : bool :=
  negb (isspace c) && negb (Ascii.eqb c NUL).

(** A byte that is neither [stop] nor NUL. *)
Definition passes (stop : ascii) (c : ascii) : bool :=
  negb (Ascii.eqb c stop) && negb (Ascii.eqb c NUL).

(** The kind the P_STATE_NONE case gives to a declaration, from its first
    byte. *)
Definition declarationKind (c : ascii) : option cssKind :=
  if isalnum c then Some K_SELECTOR
  else if Ascii.eqb c "." then Some K_CLASS
  else if Ascii.eqb c "#" then Some K_ID
  else None.

(** The scan states of the specification.  The code keeps P_STATE_IN_IMPORT
    apart from P_STATE_IN_NAMESPACE, and P_STATE_IN_PAGE and
    P_STATE_IN_FONTFACE apart from P_STATE_IN_DEFINITION; each group shares
    one case of the switch. *)
Inductive ScanState : Set :=
| Neutral | InComment | InSingleQuoteString | InDoubleQuoteString
| InRuleBody | InMediaDirective | InImportOrNamespaceDirective | Terminated.

Definition scanState (state : ScssParserState) : ScanState :=
  match state with
  | P_STATE_NONE => Neutral
  | P_STATE_IN_COMMENT => InComment
  | P_STATE_IN_SINGLE_STRING => InSingleQuoteString
  | P_STATE_IN_DOUBLE_STRING => InDoubleQuoteString
  | P_STATE_IN_DEFINITION | P_STATE_IN_PAGE | P_STATE_IN_FONTFACE => InRuleBody
  | P_STATE_IN_MEDIA => InMediaDirective
  | P_STATE_IN_IMPORT | P_STATE_IN_NAMESPACE => InImportOrNamespaceDirective
  | P_STATE_AT_END => Terminated
  end.

(** A result as the specification sees it: whether and how the scan
    stopped early, the scan state, and the world. *)
Definition observed (r : scanResult) : option fault * ScanState * world :=
  match r with
  | Returned st w => (None, scanState st, w)
  | Aborted f st w => (Some f, scanState st, w)
  end.

(** [s] without its leading whitespace. *)
Fixpoint skip_blanks (s : string) : string :=
  match s with
  | EmptyString => EmptyString
  | String c s' => if isspace c then skip_blanks s' else s
  end.

(** The quote that ends a string state. *)
Definition quoteOf (state : ScssParserState) : option ascii :=
  match state with
  | P_STATE_IN_SINGLE_STRING => Some SQUOTE
  | P_STATE_IN_DOUBLE_STRING => Some DQUOTE
  | _ => None
  end.

(** No byte of [s] ends a string whose quote is [q]: every [q] in [s] is
    preceded by a backslash.  [prev] is the byte before [s], or [None] when
    [s] starts at the start of the line buffer (there is no byte to look
    back at, and the byte at the start is not asked about). *)
Fixpoint no_closing (q : ascii) (prev : option ascii) (s : string) : bool :=
  match s with
  | EmptyString => true
  | String c t =>
      match prev with
      | Some b => negb (Ascii.eqb c q && negb (Ascii.eqb b BACKSLASH))
      | None => true
      end && no_closing q (Some c) t
  end.

(** The scan ended with the state variable holding [st] and the world
    [w]. *)
Definition ends_with (st : ScssParserState) (w : world) (r : scanResult) : Prop :=
  final_state r = st /\ final_world r = w.

(** The state with which control leaves the switch. *)
Definition exit_state (x : switchExit) : ScssParserState :=
  match x with Break st _ | Return st => st end.

(** Two pointers at the same offset of two buffers that hold the same
    bytes from that offset on. *)
Definition alike (p1 p2 : cursor) : Prop :=
  off p1 = off p2
  /\ forall n, deref (advance_by n p1) = deref (advance_by n p2).

(** The bytes before the two pointers are the same. *)
Definition back (p1 p2 : cursor) : Prop :=
  deref (previous p1) = deref (previous p2).

(** In [state], with the pointer on [p], the switch does not look at the
    byte before the pointer. *)
Definition no_lookback (state : ScssParserState) (p : cursor) : Prop :=
  state = P_STATE_IN_DEFINITION
  \/ (state = P_STATE_NONE /\ deref p <> Some "*"%char).

(** Two runs that end alike: the same fault, or results related by [R], and
    in both cases the same world. *)
Inductive sim {A : Type} (R : A -> A -> Prop) : outcome A -> outcome A -> Prop :=
| sim_done a1 a2 w : R a1 a2 -> sim R (Done a1 w) (Done a2 w)
| sim_failed f w : sim R (Failed f w) (Failed f w).

Definition option_alike (q1 q2 : option cursor) : Prop :=
  match q1, q2 with
  | Some p1, Some p2 => alike p1 p2
  | None, None => True
  | _, _ => False
  end.

Definition exit_alike (x1 x2 : switchExit) : Prop :=
  match x1, x2 with
  | Break s1 q1, Break s2 q2 => s1 = s2 /\ option_alike q1 q2
  | Return s1, Return s2 => s1 = s2
  | _, _ => False
  end.

(** The fuel that [fuel_of] sets aside for a list of pending lines. *)
Definition lines_cost (ls : list string) : nat :=
  fold_right (fun l n => (String.length l + 3 + n)%nat) 0%nat ls.

(** The pointer the declaration scanner or the switch hands back, when it is
    not NULL, is inside a line, and what is left to scan has not grown. *)
Definition within (s : string) (w : world) (q : option cursor) (w' : world)
  : Prop :=
  match q with
  | None => True
  | Some q => exists s', rest q = Some s' /\ (fuel_of s' w' <= fuel_of s w)%nat
  end.

(** A run of the switch that did not stop for lack of fuel and whose
    pointer, when it hands one back, is [within] what was left to scan. *)
Definition inside (s : string) (w : world) (o : outcome switchExit) : Prop :=
  match o with
  | Done (Break _ q) w' => within s w q w'
  | Done (Return _) _ => True
  | Failed OutOfFuel _ => False
  | Failed (ReadOutOfBounds _) _ => True
  end.

(** The scan stopped for lack of fuel. *)
Definition ranOut (r : scanResult) : Prop :=
  exists st w, r = Aborted OutOfFuel st w.

(** The world in which a run ended. *)
Definition world_of {A} (o : outcome A) : world :=
  match o with Done _ w | Failed _ w => w end.

(** A computation that takes lines from the line source and gives none
    back. *)
Definition shrinks {A} (m : M A) : Prop :=
  forall w, (List.length (pending (world_of (m w))) <= List.length (pending w))%nat.

(** The world after one more tag was handed to the sink. *)
Definition emitted (w : world) (kind : cssKind) (name : string) : world :=
  World (pending w) (tags w ++ [Tag kind name]).

(** The text of the tag made from the accumulated buffer [name]. *)
Definition finalName (kind : cssKind) (name : string) : string :=
  match kind with
  | K_CLASS => vStringStripTrailing name
  | _ => name
  end.

(** The world before anything was read or emitted, with [input] pending. *)
Definition start (input : list string) : world := World input [].

(** A line that an open clause takes whole: the line is not empty, its first
    byte, which the scanner puts into the name unchecked, is not NUL, and
    the bytes behind it are all accumulated. *)
Definition continuation (l : string) : bool :=
  match l with
  | EmptyString => false
  | String c r => negb (Ascii.eqb c NUL) && all_chars accumulated r
  end.

(** The bytes of a list of lines, one line after the other, and how many
    they are. *)
Definition joined (ls : list string) : string :=
  fold_right append EmptyString ls.

Definition lines_length (ls : list string) : nat :=
  fold_right (fun l n => (String.length l + n)%nat) 0%nat ls.

(** The byte [a] is a terminator after which the declaration scanner
    reports [st]: wherever the scanner stands on an [a] -- on the line it
    was called on or on a line it took itself -- it makes the tag from the
    buffer and hands back the pointer behind the [a]. *)
Definition terminates (a : ascii) (st : ScssParserState) : Prop :=
  forall fuel name p kind w,
    deref p = Some a ->
    parseScssDeclaration_loop (S fuel) name p kind w
    = Done (st, Some (advance p)) (emitted w kind (finalName kind name)).

(** ** Vocabulary of the further properties *)

(** The two states of the case that skips to a ';'. *)
Definition importing (state : ScssParserState) : Prop :=
  state = P_STATE_IN_IMPORT \/ state = P_STATE_IN_NAMESPACE.

(** The three states of the case that skips a rule body. *)
Definition inBody (state : ScssParserState) : Prop :=
  state = P_STATE_IN_DEFINITION \/ state = P_STATE_IN_PAGE
  \/ state = P_STATE_IN_FONTFACE.

(** A byte the rule body case does nothing on. *)
Definition bodyChar (c : ascii) : bool :=
  negb (Ascii.eqb c "}") && negb (Ascii.eqb c SQUOTE)
  && negb (Ascii.eqb c DQUOTE).

(** No byte of [s] ends a comment: no '/' in [s] comes right behind a '*'.
    [prev] is the byte before [s], or [None] at the start of the line
    buffer. *)
Fixpoint no_comment_end (prev : option ascii) (s : string) : bool :=
  match s with
  | EmptyString => true
  | String c t =>
      match prev with
      | Some b => negb (Ascii.eqb c "/" && Ascii.eqb b "*")
      | None => true
      end && no_comment_end (Some c) t
  end.


(** A tag as the scanner makes them: the first byte of the name is the
    byte that started the declaration and decides the kind, and the name of
    a class has no trailing whitespace left to strip. *)
Definition sound (t : tagEntry) : Prop :=
  declarationKind (first_char (tagName t)) = Some (tagKind t)
  /\ (tagKind t = K_CLASS -> vStringStripTrailing (tagName t) = tagName t).

(** From [w] to [w']: tags were added behind those of [w], all of them
    [sound], and lines were taken from the front of the pending ones. *)
Definition extends (w w' : world) : Prop :=
  exists ts ls,
    tags w' = tags w ++ ts /\ Forall sound ts /\ pending w = ls ++ pending w'.

Definition extending {A} (m : M A) : Prop :=
  forall w, extends w (world_of (m w)).

(** The table ScssKinds of scss.c (a kindOption holds: enabled, letter,
    name, description) and the values of the enum eScssKinds, which index
    it. *)
Record kindOption : Set := KindOption {
  enabled : bool; letter : ascii; kindName : string; description : string
}.

Definition ScssKinds : list kindOption :=
  [ KindOption true "c" "class" "classes";
    KindOption true "s" "selector" "selectors";
    KindOption true "i" "id" "identities" ].

Definition kindValue (kind : cssKind) : Z :=
  match kind with
  | K_NONE => -1
  | K_CLASS => 0
  | K_SELECTOR => 1
  | K_ID => 2
  end.

(** The entry [kinds [kind]] that makeSimpleTag reads, when the index is
    inside the table. *)
Definition kindEntry (table : list kindOption) (kind : cssKind)
  : option kindOption :=
  if kindValue kind <? 0 then None
  else nth_error table (Z.to_nat (kindValue kind)).

(** The fields ScssParser sets in the parser definition. *)
Record parserDefinition : Type := ParserDefinition {
  parserName : string;
  kinds : list kindOption;
  kindCount : nat;
  extensions : list string;
  parser : list string -> scanResult
}.

Definition ScssParser : parserDefinition :=
  {| parserName := "SCSS";
     kinds := ScssKinds;
     kindCount := List.length ScssKinds;
     extensions := ["css"%string];
     parser := findScssTags |}.

(** * Properties *)

Local Open Scope string_scope.
Local Open Scope list_scope.

(** ** Pointers and the bytes in front of them *)

Lemma drop_cons n s c t :
  drop n s = Some (String c t) ->
  String.get n s = Some c /\ drop (S n) s = Some t /\ (n < String.length s)%nat.
Proof.
  revert s; induction n as [|n IH]; intros s H.
  - simpl in H. injection H as ->. simpl. repeat split. lia.
  - destruct s as [|a s]; [discriminate|].
    simpl in H. destruct (IH _ H) as (Hg & Hd & Hl).
    simpl. repeat split; try assumption. lia.
Qed.

Lemma drop_nil n s : drop n s = Some EmptyString -> n = String.length s.
Proof.
  revert s; induction n as [|n IH]; intros s H.
  - simpl in H. injection H as ->. reflexivity.
  - destruct s as [|a s]; [discriminate|]. simpl in *. f_equal. now apply IH.
Qed.

Lemma rest_cons p c t :
  rest p = Some (String c t) ->
  deref p = Some c /\ rest (advance p) = Some t.
Proof.
  unfold rest, deref, advance. destruct p as [b o]; simpl.
  destruct (Z.ltb_spec o 0) as [Hneg|Hpos]; [discriminate|].
  intros H. destruct (drop_cons _ _ _ _ H) as (Hg & Hd & Hl).
  split.
  - simpl.
    destruct (Z.ltb_spec (Z.of_nat (String.length b)) o); [lia|].
    destruct (Z.eqb_spec o (Z.of_nat (String.length b))); [lia|]. exact Hg.
  - destruct (Z.ltb_spec (o + 1) 0); [lia|].
    replace (Z.to_nat (o + 1)) with (S (Z.to_nat o)) by lia. exact Hd.
Qed.

Lemma rest_nil p :
  rest p = Some EmptyString ->
  deref p = Some NUL /\ deref (advance p) = None.
Proof.
  unfold rest, deref, advance. destruct p as [b o]; simpl.
  destruct (Z.ltb_spec o 0) as [Hneg|Hpos]; [discriminate|].
  intros H. apply drop_nil in H.
  split.
  - simpl. destruct (Z.ltb_spec (Z.of_nat (String.length b)) o); [lia|].
    destruct (Z.eqb_spec o (Z.of_nat (String.length b))); [reflexivity|lia].
  - destruct (Z.ltb_spec (o + 1) 0); [lia|]. simpl.
    destruct (Z.ltb_spec (Z.of_nat (String.length b)) (o + 1)); [reflexivity|lia].
Qed.

Lemma rest_first p s : rest p = Some s -> deref p = Some (first_char s).
Proof.
  destruct s as [|c t]; intros H.
  - now apply rest_nil in H.
  - now apply rest_cons in H.
Qed.

Lemma rest_start line : rest (At line 0) = Some line.
Proof. reflexivity. Qed.

Lemma advance_by_0 p : advance_by 0 p = p.
Proof. destruct p as [b o]. unfold advance_by. simpl. f_equal. lia. Qed.

Lemma advance_by_S n p : advance_by n (advance p) = advance_by (S n) p.
Proof. destruct p as [b o]. unfold advance_by, advance. simpl. f_equal. lia. Qed.

Lemma advance_advance_by n p : advance (advance_by n p) = advance_by (S n) p.
Proof. destruct p as [b o]. unfold advance_by, advance. simpl. f_equal. lia. Qed.

Lemma rest_advance_by s t p :
  rest p = Some (s ++ t)%string -> rest (advance_by (String.length s) p) = Some t.
Proof.
  revert p; induction s as [|c s IH]; intros p H.
  - now rewrite advance_by_0.
  - simpl in H. apply rest_cons in H as [_ H].
    simpl. rewrite <- advance_by_S. now apply IH.
Qed.

Lemma load_deref p c w : deref p = Some c -> load p w = Done c w.
Proof. unfold load. now intros ->. Qed.

Lemma load_first p s w : rest p = Some s -> load p w = Done (first_char s) w.
Proof. intros H. apply load_deref. now apply rest_first. Qed.

Lemma load_past p w :
  rest p = Some EmptyString ->
  load (advance p) w = Failed (ReadOutOfBounds (off p + 1)) w.
Proof. intros H. apply rest_nil in H as [_ H]. unfold load. now rewrite H. Qed.

(** ** Whole-line runs *)

Example run_id_header :
  parseScssLine "#header { margin: 0; }" P_STATE_NONE (start [])
  = Returned P_STATE_NONE (World [] [Tag K_ID "#header "]).
Proof. reflexivity. Qed.

Example run_media_block :
  findScssTags ["@media screen {"; ".nested {}"; "}"]
  = Returned P_STATE_NONE (World [] [Tag K_CLASS ".nested"]).
Proof. reflexivity. Qed.

(** C1, as stated, fails: the names the scanner emits for the line
    ".foo, .bar { color: red; }" are not "foo" and "bar". *)
Lemma C1_names_keep_the_dot :
  final_tags (parseScssLine ".foo, .bar { color: red; }" P_STATE_NONE (start []))
  <> [Tag K_CLASS "foo"; Tag K_CLASS "bar"].
Proof. vm_compute. discriminate. Qed.

(** C1 (amended): scanning the single line ".foo, .bar { color: red; }" from
    P_STATE_NONE returns, emits exactly the tags (Class, ".foo") and
    (Class, ".bar") in that order (the accumulation starts on the '.', which
    is part of the name), and emits no tag named "color"; the same holds for
    the whole scan of an input made of that line. *)
Theorem C1_class_list_line :
  let r := parseScssLine ".foo, .bar { color: red; }" P_STATE_NONE (start []) in
  r = Returned P_STATE_NONE (World [] [Tag K_CLASS ".foo"; Tag K_CLASS ".bar"])
  /\ existsb (fun t => String.eqb (tagName t) "color") (final_tags r) = false
  /\ findScssTags [".foo, .bar { color: red; }"] = r.
Proof. repeat split. Qed.

(** ** The inner loops *)

Lemma append_snoc (a : string) (c : ascii) (s : string) :
  ((a ++ String c EmptyString) ++ s)%string = (a ++ String c s)%string.
Proof. induction a as [|x a IH]; simpl; [reflexivity | now rewrite IH]. Qed.

Lemma append_empty_r (a : string) : (a ++ EmptyString)%string = a.
Proof. induction a as [|x a IH]; simpl; [reflexivity | now rewrite IH]. Qed.

Lemma vStringPut_char s c :
  Ascii.eqb c NUL = false -> vStringPut s c = (s ++ String c EmptyString)%string.
Proof. unfold vStringPut. now intros ->. Qed.

Lemma skipSpace_run ws t p fuel w :
  rest p = Some (ws ++ t)%string ->
  all_chars isspace ws = true ->
  isspace (first_char t) = false ->
  (String.length ws < fuel)%nat ->
  skipSpace fuel p w = Done (advance_by (String.length ws) p) w.
Proof.
  revert p fuel; induction ws as [|a ws IH]; intros p fuel H Hall Ht Hf;
    (destruct fuel as [|fuel]; [simpl in Hf; lia|]); simpl; unfold bind;
    rewrite (load_first _ _ w H).
  - simpl. rewrite Ht. now rewrite advance_by_0.
  - simpl in *. apply andb_true_iff in Hall as [Ha Hall]. rewrite Ha.
    apply rest_cons in H as [_ H].
    rewrite (IH _ _ H Hall Ht) by lia. now rewrite advance_by_S.
Qed.

Lemma skipSpace_stay t p fuel w :
  rest p = Some t -> isspace (first_char t) = false ->
  skipSpace (S fuel) p w = Done p w.
Proof.
  intros H Ht.
  rewrite (skipSpace_run EmptyString t p (S fuel) w H eq_refl Ht) by (simpl; lia).
  now rewrite advance_by_0.
Qed.

Lemma readDirective_run kw t p aux fuel w :
  rest p = Some (kw ++ t)%string ->
  all_chars keywordChar kw = true ->
  isspace (first_char t) = true ->
  (String.length kw < fuel)%nat ->
  readDirective fuel aux p w
  = Done ((aux ++ kw)%string, advance_by (String.length kw) p) w.
Proof.
  revert p aux fuel; induction kw as [|a kw IH]; intros p aux fuel H Hall Ht Hf;
    (destruct fuel as [|fuel]; [simpl in Hf; lia|]); simpl; unfold bind;
    rewrite (load_first _ _ w H).
  - simpl. rewrite Ht. simpl. now rewrite advance_by_0, append_empty_r.
  - simpl in *. apply andb_true_iff in Hall as [Ha Hall].
    unfold keywordChar in Ha. apply andb_true_iff in Ha as [Hs Hn].
    rewrite Hs. apply negb_true_iff in Hn.
    apply rest_cons in H as [_ H].
    rewrite (IH _ _ _ H Hall Ht) by lia.
    now rewrite advance_by_S, (vStringPut_char _ _ Hn), append_snoc.
Qed.

Lemma skipTo_run stop s t p fuel w :
  rest p = Some (s ++ t)%string ->
  all_chars (passes stop) s = true ->
  first_char t = stop \/ first_char t = NUL ->
  (String.length s < fuel)%nat ->
  skipTo fuel stop p w = Done (advance_by (String.length s) p) w.
Proof.
  revert p fuel; induction s as [|a s IH]; intros p fuel H Hall Ht Hf;
    (destruct fuel as [|fuel]; [simpl in Hf; lia|]); simpl; unfold bind;
    rewrite (load_first _ _ w H).
  - simpl. rewrite advance_by_0.
    destruct (Ascii.eqb_spec (first_char t) stop) as [_|Hne]; [reflexivity|].
    destruct Ht as [Ht|Ht]; [contradiction|]. now rewrite Ht.
  - simpl in *. apply andb_true_iff in Hall as [Ha Hall].
    unfold passes in Ha. apply andb_true_iff in Ha as [Hs Hn].
    rewrite Hs. apply negb_true_iff in Hn. rewrite Hn.
    apply rest_cons in H as [_ H].
    rewrite (IH _ _ H Hall Ht) by lia. now rewrite advance_by_S.
Qed.

(** ** The declaration scanner *)

Lemma accumulated_inv c :
  accumulated c = true ->
  allowedChar c = true /\ Ascii.eqb c NUL = false
  /\ Ascii.eqb c "," = false /\ Ascii.eqb c "{" = false.
Proof.
  unfold accumulated. intros H.
  apply andb_true_iff in H as [H H4]. apply andb_true_iff in H as [H H3].
  apply andb_true_iff in H as [H1 H2].
  now rewrite negb_true_iff in H2, H3, H4.
Qed.

Lemma declaration_accumulates s t p name kind fuel w :
  rest p = Some (s ++ t)%string ->
  all_chars accumulated s = true ->
  parseScssDeclaration_loop (String.length s + fuel) name p kind w
  = parseScssDeclaration_loop fuel (name ++ s)%string
      (advance_by (String.length s) p) kind w.
Proof.
  revert p name; induction s as [|a s IH]; intros p name H Hall.
  - simpl. now rewrite advance_by_0, append_empty_r.
  - simpl in Hall. apply andb_true_iff in Hall as [Ha Hall].
    apply accumulated_inv in Ha as (Hal & Hn & Hc & Hb).
    simpl. unfold bind at 1. unfold isScssDeclarationAllowedChar, bind at 1.
    rewrite (load_first _ _ w H). simpl. unfold bind at 1.
    rewrite (load_first _ _ w H). simpl.
    rewrite Hal, Hn, Hc, Hb. simpl.
    apply rest_cons in H as [_ H].
    rewrite (IH _ _ H Hall).
    now rewrite advance_by_S, (vStringPut_char _ _ Hn), append_snoc.
Qed.

Lemma makeScssSimpleTag_emits name kind delete w :
  makeScssSimpleTag name kind delete w = Done tt (emitted w kind (finalName kind name)).
Proof. now destruct kind. Qed.

(** One turn of the declaration loop, by the byte under the pointer. *)
Lemma declaration_step fuel name p kind c w :
  deref p = Some c ->
  parseScssDeclaration_loop (S fuel) name p kind w
  = if Ascii.eqb c NUL then
      match pending w with
      | [] => Done (P_STATE_AT_END, None) (emitted w kind (finalName kind name))
      | l :: more =>
          bind (load (At l 0))
               (fun c' => parseScssDeclaration_loop fuel (vStringPut name c')
                            (advance (At l 0)) kind)
               (World more (tags w))
      end
    else if negb (allowedChar c) then
      Done (P_STATE_NONE, Some p) (emitted w kind (finalName kind name))
    else if Ascii.eqb c "," then
      Done (P_STATE_NONE, Some (advance p)) (emitted w kind (finalName kind name))
    else if Ascii.eqb c "{" then
      Done (P_STATE_IN_DEFINITION, Some (advance p))
           (emitted w kind (finalName kind name))
    else parseScssDeclaration_loop fuel (vStringPut name c) (advance p) kind w.
Proof.
  intros H. simpl. unfold bind at 1. unfold isScssDeclarationAllowedChar, bind at 1.
  rewrite (load_deref _ _ w H). simpl. unfold bind at 1.
  rewrite (load_deref _ _ w H).
  destruct (Ascii.eqb_spec c NUL) as [->|Hn].
  - simpl. unfold bind at 1, fileReadLine.
    destruct (pending w) as [|l more]; [|reflexivity].
    unfold bind. now rewrite makeScssSimpleTag_emits.
  - rewrite orb_false_r.
    destruct (allowedChar c); simpl.
    + destruct (Ascii.eqb c ","); [unfold bind; now rewrite makeScssSimpleTag_emits|].
      destruct (Ascii.eqb c "{"); [unfold bind; now rewrite makeScssSimpleTag_emits|].
      reflexivity.
    + unfold bind. now rewrite makeScssSimpleTag_emits.
Qed.

Lemma declarationKind_char c kind :
  declarationKind c = Some kind ->
  Ascii.eqb c NUL = false /\ isspace c = false /\ accumulated c = true.
Proof.
  destruct c as [[] [] [] [] [] [] [] []]; vm_compute; intros H;
    try discriminate H; repeat split.
Qed.

(** The P_STATE_NONE case on the first byte of a declaration. *)
Lemma switch_declaration fuel p c kind w :
  deref p = Some c -> declarationKind c = Some kind ->
  parseScssLine_switch fuel p P_STATE_NONE w
  = bind (parseScssDeclaration fuel p kind) (fun r => ret (break_of r)) w.
Proof.
  intros H Hk. unfold parseScssLine_switch, bind at 1.
  rewrite (load_deref _ _ w H). unfold declarationKind in Hk.
  destruct (isalnum c); [injection Hk as <-; reflexivity|].
  destruct (Ascii.eqb c "."); [injection Hk as <-; reflexivity|].
  destruct (Ascii.eqb c "#"); [injection Hk as <-; reflexivity|].
  discriminate.
Qed.

(** One iteration of the line loop that starts on the first byte of a
    declaration: the declaration scanner runs, and the loop goes on one byte
    after the pointer the scanner handed back. *)
Lemma loop_declaration fuel p c kind w :
  deref p = Some c -> declarationKind c = Some kind ->
  parseScssLine_loop (S (S fuel)) p P_STATE_NONE w
  = match parseScssDeclaration (S fuel) p kind w with
    | Done (st, None) w' => Returned st w'
    | Done (st, Some q) w' => parseScssLine_loop (S fuel) (advance q) st w'
    | Failed f w' => Aborted f P_STATE_NONE w'
    end.
Proof.
  intros H Hk. destruct (declarationKind_char _ _ Hk) as (Hn & Hs & _).
  cbn [parseScssLine_loop]. unfold during at 1. rewrite (load_deref _ _ w H), Hn.
  unfold during at 1.
  assert (Hskip : skipSpace (S fuel) p w = Done p w).
  { simpl. unfold bind. now rewrite (load_deref _ _ w H), Hs. }
  rewrite Hskip. unfold during at 1.
  rewrite (switch_declaration _ _ _ _ _ H Hk). unfold bind.
  destruct (parseScssDeclaration (S fuel) p kind w) as [[st [q|]] w'|f w']; reflexivity.
Qed.

(** ** Tag emission *)

Lemma strip_blanks ws :
  all_chars isspace ws = true -> vStringStripTrailing ws = EmptyString.
Proof.
  induction ws as [|a ws IH]; simpl; [reflexivity|].
  intros H. apply andb_true_iff in H as [Ha H]. now rewrite (IH H), Ha.
Qed.

Lemma strip_trailing_blanks s c ws :
  isspace c = false -> all_chars isspace ws = true ->
  vStringStripTrailing ((s ++ String c EmptyString) ++ ws)
  = (s ++ String c EmptyString)%string.
Proof.
  intros Hc Hws. rewrite append_snoc.
  induction s as [|a s IH]; simpl.
  - now rewrite (strip_blanks _ Hws), Hc.
  - rewrite IH. now destruct s.
Qed.

Lemma declaration_to_brace p s t kind fuel w :
  rest p = Some (s ++ String "{" t)%string ->
  all_chars accumulated s = true ->
  parseScssDeclaration (String.length s + S fuel) p kind w
  = Done (P_STATE_IN_DEFINITION, Some (advance_by (S (String.length s)) p))
         (emitted w kind (finalName kind s)).
Proof.
  intros H Hs. unfold parseScssDeclaration.
  rewrite (declaration_accumulates _ _ _ _ _ _ _ H Hs). simpl append.
  apply rest_advance_by in H.
  rewrite (declaration_step _ _ _ _ _ _ (rest_first _ _ H)). simpl.
  now rewrite advance_advance_by.
Qed.

Lemma declaration_to_comma p s t kind fuel w :
  rest p = Some (s ++ String "," t)%string ->
  all_chars accumulated s = true ->
  parseScssDeclaration (String.length s + S fuel) p kind w
  = Done (P_STATE_NONE, Some (advance_by (S (String.length s)) p))
         (emitted w kind (finalName kind s)).
Proof.
  intros H Hs. unfold parseScssDeclaration.
  rewrite (declaration_accumulates _ _ _ _ _ _ _ H Hs). simpl append.
  apply rest_advance_by in H.
  rewrite (declaration_step _ _ _ _ _ _ (rest_first _ _ H)). simpl.
  now rewrite advance_advance_by.
Qed.

Lemma declaration_continues s c l more name p kind fuel w :
  rest p = Some s ->
  all_chars accumulated s = true ->
  pending w = String c l :: more ->
  Ascii.eqb c NUL = false ->
  parseScssDeclaration_loop (String.length s + S fuel) name p kind w
  = parseScssDeclaration_loop fuel ((name ++ s) ++ String c EmptyString)%string
      (At (String c l) 1) kind (World more (tags w)).
Proof.
  intros H Hs Hp Hc. rewrite <- (append_empty_r s) in H.
  rewrite (declaration_accumulates _ _ _ _ _ _ _ H Hs).
  apply rest_advance_by in H.
  rewrite (declaration_step _ _ _ _ _ _ (rest_first _ _ H)). cbn [first_char].
  rewrite Ascii.eqb_refl, Hp. unfold bind.
  rewrite (load_first _ _ _ (rest_start (String c l))). cbn [first_char].
  now rewrite (vStringPut_char _ _ Hc).
Qed.

Lemma append_assoc_r (a b c : string) :
  ((a ++ b) ++ c)%string = (a ++ (b ++ c))%string.
Proof. induction a as [|x a IH]; simpl; [reflexivity | now rewrite IH]. Qed.

(** An open clause that runs over whole lines: the scanner takes them one
    after the other, and all their bytes go into the name. *)
Lemma declaration_over_lines mid : forall s0 c l more name p kind fuel w,
  rest p = Some s0 ->
  all_chars accumulated s0 = true ->
  forallb continuation mid = true ->
  pending w = mid ++ String c l :: more ->
  Ascii.eqb c NUL = false ->
  parseScssDeclaration_loop (String.length s0 + lines_length mid + S fuel)
                            name p kind w
  = parseScssDeclaration_loop fuel
      (name ++ s0 ++ joined mid ++ String c EmptyString)%string
      (At (String c l) 1) kind (World more (tags w)).
Proof.
  induction mid as [|m mid IH]; intros s0 c l more name p kind fuel w H Hs Hm Hp Hc.
  - simpl. rewrite Nat.add_0_r.
    rewrite (declaration_continues _ _ _ _ name _ kind fuel _ H Hs Hp Hc).
    now rewrite append_assoc_r.
  - destruct m as [|c1 r1]; [discriminate Hm|].
    simpl in Hm. apply andb_true_iff in Hm as [Hm1 Hm].
    apply andb_true_iff in Hm1 as [Hc1 Hr1]. apply negb_true_iff in Hc1.
    replace (String.length s0 + lines_length (String c1 r1 :: mid) + S fuel)%nat
      with (String.length s0
            + S (String.length r1 + lines_length mid + S fuel))%nat
      by (simpl; lia).
    rewrite (declaration_continues _ _ _ _ name _ kind _ _ H Hs Hp Hc1).
    rewrite (IH r1 c l more _ (At (String c1 r1) 1) kind fuel
                (World (mid ++ String c l :: more) (tags w))
                eq_refl Hr1 Hm eq_refl Hc).
    f_equal. simpl. rewrite ?append_assoc_r. simpl. now rewrite ?append_assoc_r.
Qed.

Lemma comma_terminates : terminates "," P_STATE_NONE.
Proof.
  intros fuel name p kind w H. now rewrite (declaration_step _ _ _ _ _ _ H).
Qed.

Lemma brace_terminates : terminates "{" P_STATE_IN_DEFINITION.
Proof.
  intros fuel name p kind w H. now rewrite (declaration_step _ _ _ _ _ _ H).
Qed.

(** The line loop on the first byte of a declaration whose clause runs over
    whole lines, up to where the scanner stands on the last of them. *)
Lemma loop_over_lines mid s0 c l more p kind fuel w st q w' :
  rest p = Some s0 ->
  declarationKind (first_char s0) = Some kind ->
  all_chars accumulated s0 = true ->
  forallb continuation mid = true ->
  pending w = mid ++ String c l :: more ->
  Ascii.eqb c NUL = false ->
  parseScssDeclaration_loop (S fuel)
    (s0 ++ joined mid ++ String c EmptyString)%string
    (At (String c l) 1) kind (World more (tags w))
  = Done (st, Some q) w' ->
  parseScssLine_loop (S (String.length s0 + lines_length mid + S (S fuel)))
                     p P_STATE_NONE w
  = parseScssLine_loop (String.length s0 + lines_length mid + S (S fuel))
                       (advance q) st w'.
Proof.
  intros H Hk Hs Hm Hp Hc Hq.
  replace (String.length s0 + lines_length mid + S (S fuel))%nat
    with (S (String.length s0 + lines_length mid + S fuel)) by lia.
  rewrite (loop_declaration _ _ _ _ w (rest_first _ _ H) Hk).
  replace (S (String.length s0 + lines_length mid + S fuel))
    with (String.length s0 + lines_length mid + S (S fuel))%nat by lia.
  unfold parseScssDeclaration.
  rewrite (declaration_over_lines mid s0 c l more _ p kind (S fuel) w H Hs Hm Hp Hc).
  simpl append at 1. now rewrite Hq.
Qed.

(** The same up to a terminator on the last line. *)
Lemma loop_over_lines_to a st mid s0 c s t more p kind fuel w :
  terminates a st ->
  rest p = Some s0 ->
  declarationKind (first_char s0) = Some kind ->
  all_chars accumulated s0 = true ->
  forallb continuation mid = true ->
  pending w = mid ++ String c (s ++ String a t) :: more ->
  Ascii.eqb c NUL = false ->
  all_chars accumulated s = true ->
  parseScssLine_loop
    (S (String.length s0 + lines_length mid + S (S (String.length s + fuel))))
    p P_STATE_NONE w
  = parseScssLine_loop
      (String.length s0 + lines_length mid + S (S (String.length s + fuel)))
      (advance_by (S (S (String.length s))) (At (String c (s ++ String a t)) 1))
      st
      (emitted (World more (tags w)) kind
               (finalName kind (s0 ++ joined mid ++ String c s))).
Proof.
  intros Ha H Hk Hs0 Hm Hp Hc Hs.
  assert (Hr : rest (At (String c (s ++ String a t)) 1) = Some (s ++ String a t)%string)
    by reflexivity.
  rewrite <- advance_advance_by.
  apply (loop_over_lines mid s0 c _ more p kind (String.length s + fuel) w st
           _ _ H Hk Hs0 Hm Hp Hc).
  replace (S (String.length s + fuel)) with (String.length s + S fuel)%nat by lia.
  rewrite (declaration_accumulates _ _ _ _ kind _ _ Hr Hs).
  apply rest_advance_by in Hr.
  rewrite (Ha _ _ _ _ _ (rest_first _ _ Hr)).
  rewrite advance_advance_by. do 3 f_equal.
  rewrite ?append_assoc_r. simpl. reflexivity.
Qed.

(** C5: making a tag strips trailing whitespace from the accumulated buffer
    for kind Class and for no other kind: Selector and Id tags carry the
    buffer exactly as it was accumulated.  Stripping removes a run of
    whitespace behind the last other byte.  A clause that runs up to a '{'
    is emitted with every byte before the '{', blanks included, unless its
    kind is Class; the line "p > span { }" gives the single tag
    (Selector, "p > span "). *)
Theorem C5_only_class_strips :
  (forall name delete w,
      makeScssSimpleTag name K_CLASS delete w
        = Done tt (emitted w K_CLASS (vStringStripTrailing name))
      /\ makeScssSimpleTag name K_SELECTOR delete w
        = Done tt (emitted w K_SELECTOR name)
      /\ makeScssSimpleTag name K_ID delete w = Done tt (emitted w K_ID name))
  /\ (forall s c ws,
         isspace c = false -> all_chars isspace ws = true ->
         vStringStripTrailing ((s ++ String c EmptyString) ++ ws)
         = (s ++ String c EmptyString)%string)
  /\ (forall p s t kind fuel w,
         rest p = Some (s ++ String "{" t)%string ->
         all_chars accumulated s = true ->
         parseScssDeclaration (String.length s + S fuel) p kind w
         = Done (P_STATE_IN_DEFINITION, Some (advance_by (S (String.length s)) p))
                (emitted w kind (match kind with
                                 | K_CLASS => vStringStripTrailing s
                                 | _ => s
                                 end)))
  /\ parseScssLine "p > span { }" P_STATE_NONE (start [])
     = Returned P_STATE_NONE (World [] [Tag K_SELECTOR "p > span "]).
Proof.
  split; [|split; [|split]].
  - intros name delete w. repeat split.
  - exact strip_trailing_blanks.
  - intros p s t kind fuel w H Hs.
    now rewrite (declaration_to_brace _ _ _ _ _ _ H Hs).
  - reflexivity.
Qed.

(** The clause "p > span " of the line "p > span { }", scanned as a Selector
    and, for comparison, the same bytes scanned as a Class. *)
Lemma C5_only_class_strips_witness :
  parseScssDeclaration 10 (At "p > span { }" 0) K_SELECTOR (start [])
    = Done (P_STATE_IN_DEFINITION, Some (At "p > span { }" 10))
           (World [] [Tag K_SELECTOR "p > span "])
  /\ vStringStripTrailing "p > span " = "p > span".
Proof.
  destruct C5_only_class_strips as (_ & Hstrip & Hdecl & _).
  split.
  - exact (Hdecl (At "p > span { }" 0) "p > span " " }" K_SELECTOR 0%nat (start [])
                 eq_refl eq_refl).
  - exact (Hstrip "p > spa" "n"%char " " eq_refl eq_refl).
Defined.

(** ** End of input inside a declaration *)

Lemma declaration_at_end fuel name p kind w :
  deref p = Some NUL -> pending w = [] ->
  parseScssDeclaration_loop (S fuel) name p kind w
  = Done (P_STATE_AT_END, None) (emitted w kind (finalName kind name)).
Proof.
  intros H Hp. rewrite (declaration_step _ _ _ _ _ _ H). simpl. now rewrite Hp.
Qed.

Lemma find_stops_at_end fuel line more state tags0 w' :
  parseScssLine line state (World more tags0) = Returned P_STATE_AT_END w' ->
  findScssTags_loop (S fuel) state (World (line :: more) tags0)
  = Returned P_STATE_AT_END w'.
Proof.
  intros H. cbn [findScssTags_loop]. unfold during, fileReadLine. simpl.
  now rewrite H.
Qed.

Lemma open_last_line s kind tags0 :
  declarationKind (first_char s) = Some kind ->
  all_chars accumulated s = true ->
  parseScssLine s P_STATE_NONE (World [] tags0)
  = Returned P_STATE_AT_END (World [] (tags0 ++ [Tag kind (finalName kind s)])).
Proof.
  intros Hk Hs. unfold parseScssLine, fuel_of. simpl fold_right.
  replace (String.length s + 3)%nat with (S (S (String.length s + 1))) by lia.
  rewrite (loop_declaration _ _ _ _ _ (rest_first _ _ (rest_start s)) Hk).
  unfold parseScssDeclaration.
  replace (S (String.length s + 1)) with (String.length s + 2)%nat by lia.
  assert (H : rest (At s 0) = Some (s ++ EmptyString)%string)
    by now rewrite append_empty_r.
  rewrite (declaration_accumulates _ _ _ _ _ _ _ H Hs). simpl append.
  apply rest_advance_by in H. apply rest_nil in H as [H _].
  now rewrite (declaration_at_end _ _ _ _ (World [] tags0) H eq_refl).
Qed.

(** C6: when the pointer of the declaration scanner is on the NUL of a line
    and the line source has no further line, the scanner emits one tag, made
    from the buffer accumulated so far, and reports P_STATE_AT_END with a
    NULL position; the line loop then returns P_STATE_AT_END at once and
    findScssTags returns, both leaving the world as the scanner left it.  So
    an input whose last line is an open declaration ends with exactly that
    one further tag, and a declaration left open over several lines is
    flushed as one tag. *)
Theorem C6_end_of_input_flushes :
  (forall fuel name p kind w,
      deref p = Some NUL -> pending w = [] ->
      parseScssDeclaration_loop (S fuel) name p kind w
      = Done (P_STATE_AT_END, None) (emitted w kind (finalName kind name)))
  /\ (forall fuel p c kind w w',
         deref p = Some c -> declarationKind c = Some kind ->
         parseScssDeclaration (S fuel) p kind w = Done (P_STATE_AT_END, None) w' ->
         parseScssLine_loop (S (S fuel)) p P_STATE_NONE w
         = Returned P_STATE_AT_END w')
  /\ (forall fuel line more state tags0 w',
         parseScssLine line state (World more tags0) = Returned P_STATE_AT_END w' ->
         findScssTags_loop (S fuel) state (World (line :: more) tags0)
         = Returned P_STATE_AT_END w')
  /\ (forall s kind tags0 fuel,
         declarationKind (first_char s) = Some kind ->
         all_chars accumulated s = true ->
         findScssTags_loop (S fuel) P_STATE_NONE (World [s] tags0)
         = Returned P_STATE_AT_END
                    (World [] (tags0 ++ [Tag kind (finalName kind s)])))
  /\ findScssTags [".a { }"; "p > b"; " c"]
     = Returned P_STATE_AT_END
                (World [] [Tag K_CLASS ".a"; Tag K_SELECTOR "p > b c"]).
Proof.
  split; [|split; [|split; [|split]]].
  - exact declaration_at_end.
  - intros fuel p c kind w w' H Hk Hd.
    now rewrite (loop_declaration _ _ _ _ _ H Hk), Hd.
  - exact find_stops_at_end.
  - intros s kind tags0 fuel Hk Hs.
    apply find_stops_at_end. now apply open_last_line.
  - reflexivity.
Qed.

(** The input whose only line is "#menu li": the Id clause is cut by the end
    of the input. *)
Lemma C6_end_of_input_flushes_witness :
  findScssTags_loop 2 P_STATE_NONE (World ["#menu li"] [])
  = Returned P_STATE_AT_END (World [] [Tag K_ID "#menu li"]).
Proof.
  destruct C6_end_of_input_flushes as (_ & _ & _ & H & _).
  exact (H "#menu li" K_ID [] 1%nat eq_refl eq_refl).
Defined.

(** ** Directives *)

Lemma switch_directive p kw c t fuel w :
  rest p = Some (String "@" (kw ++ String c t)) ->
  all_chars keywordChar kw = true ->
  isspace c = true ->
  parseScssLine_switch (S (String.length kw + fuel)) p P_STATE_NONE w
  = Done (Break (directiveState kw P_STATE_NONE)
                (Some (advance_by (S (String.length kw)) p))) w.
Proof.
  intros H Hkw Hc. unfold parseScssLine_switch, bind.
  rewrite (load_first _ _ w H). cbn [first_char].
  change (isalnum "@") with false.
  change (Ascii.eqb "@" ".") with false. change (Ascii.eqb "@" "#") with false.
  change (Ascii.eqb "@" "@") with true. cbv iota.
  apply rest_cons in H as [_ H].
  rewrite (readDirective_run kw (String c t) _ EmptyString _ w H Hkw Hc) by lia.
  simpl. now rewrite advance_by_S.
Qed.

Lemma directiveState_other kw state :
  kw <> "media" -> kw <> "import" -> kw <> "namespace" ->
  kw <> "page" -> kw <> "font-face" ->
  directiveState kw state = state.
Proof.
  intros H1 H2 H3 H4 H5. unfold directiveState.
  apply String.eqb_neq in H1, H2, H3, H4, H5.
  now rewrite H1, H2, H3, H4, H5.
Qed.

(** States with the same scan state of the specification are handled
    alike: a line scanned from either gives the same faults, the same world
    and the same scan state. *)
Lemma loop_respects_scanState fuel : forall p s1 s2 w,
  scanState s1 = scanState s2 ->
  observed (parseScssLine_loop fuel p s1 w)
  = observed (parseScssLine_loop fuel p s2 w).
Proof.
  induction fuel as [|fuel IH]; intros p s1 s2 w Hs.
  - simpl. now rewrite Hs.
  - destruct (state_eq_dec s1 s2) as [->|Hne]; [reflexivity|].
    cbn [parseScssLine_loop]. unfold during.
    destruct (load p w) as [c w1|f w1]; [|simpl; now rewrite Hs].
    destruct (Ascii.eqb c NUL); [simpl; now rewrite Hs|].
    destruct (skipSpace fuel p w1) as [p1 w2|f w2]; [|simpl; now rewrite Hs].
    destruct s1, s2; try discriminate Hs; try contradiction;
      unfold parseScssLine_switch, bind;
      try (destruct (skipTo fuel ";" p1 w2) as [p2 w3|f w3]; [|reflexivity]);
      match goal with
      | |- context [load ?q ?x] => destruct (load q x) as [a w4|f w4]; [|reflexivity]
      end;
      repeat match goal with
        | |- context [if ?b then _ else _] => destruct b
        end;
      unfold ret; try reflexivity; now apply IH.
Qed.

Lemma observed_at_end r1 r2 :
  observed r1 = observed r2 ->
  (exists st1 st2 w, r1 = Returned st1 w /\ r2 = Returned st2 w
                     /\ scanState st1 = scanState st2)
  \/ (exists f st1 st2 w, r1 = Aborted f st1 w /\ r2 = Aborted f st2 w
                          /\ scanState st1 = scanState st2).
Proof.
  destruct r1 as [st1 w1|f1 st1 w1], r2 as [st2 w2|f2 st2 w2]; simpl;
    intros H; try discriminate H; injection H as; subst.
  - left. now exists st1, st2, w2.
  - right. now exists f2, st1, st2, w2.
Qed.

Lemma find_respects_scanState fuel : forall s1 s2 w,
  scanState s1 = scanState s2 ->
  observed (findScssTags_loop fuel s1 w) = observed (findScssTags_loop fuel s2 w).
Proof.
  induction fuel as [|fuel IH]; intros s1 s2 w Hs.
  - simpl. now rewrite Hs.
  - cbn [findScssTags_loop]. unfold during, fileReadLine.
    destruct (pending w) as [|l more]; [simpl; now rewrite Hs|].
    unfold parseScssLine.
    pose proof (loop_respects_scanState
                  (fuel_of (buf (At l 0)) (World more (tags w)))
                  (At (buf (At l 0)) 0) s1 s2 (World more (tags w)) Hs) as H.
    apply observed_at_end in H
      as [(t1 & t2 & w' & -> & -> & Ht)|(f & t1 & t2 & w' & -> & -> & Ht)].
    + destruct (state_eq_dec t1 P_STATE_AT_END) as [->|H1],
               (state_eq_dec t2 P_STATE_AT_END) as [->|H2].
      * reflexivity.
      * destruct t2; try discriminate Ht; contradiction.
      * destruct t1; try discriminate Ht; contradiction.
      * now apply IH.
    + simpl. now rewrite Ht.
Qed.

Lemma length_append s t :
  String.length (s ++ t) = (String.length s + String.length t)%nat.
Proof. induction s as [|a s IH]; simpl; [reflexivity | now rewrite IH]. Qed.

Lemma fuel_of_cost s w :
  fuel_of s w = (String.length s + 3 + lines_cost (pending w))%nat.
Proof.
  unfold fuel_of, lines_cost. induction (pending w) as [|l more IH]; simpl; lia.
Qed.

Lemma fuel_of_ge line w : (String.length line + 3 <= fuel_of line w)%nat.
Proof.
  unfold fuel_of. induction (pending w) as [|l more IH]; simpl; lia.
Qed.

(** One iteration of the line loop on a byte that is neither NUL nor
    whitespace: the switch runs on that byte. *)
Lemma loop_step fuel p c st w :
  deref p = Some c -> Ascii.eqb c NUL = false -> isspace c = false ->
  parseScssLine_loop (S (S fuel)) p st w
  = during st (parseScssLine_switch (S fuel) p st)
      (fun x => match x with
                | Return st' => Returned st'
                | Break st' None => Returned st'
                | Break st' (Some q) =>
                    parseScssLine_loop (S fuel) (advance q) st'
                end) w.
Proof.
  intros H Hn Hs. cbn [parseScssLine_loop]. unfold during at 1.
  rewrite (load_deref _ _ w H), Hn. unfold during at 1.
  assert (Hskip : skipSpace (S fuel) p w = Done p w).
  { simpl. unfold bind. now rewrite (load_deref _ _ w H), Hs. }
  now rewrite Hskip.
Qed.

Lemma readDirective_overrun kw : forall p aux fuel w,
  rest p = Some kw ->
  all_chars keywordChar kw = true ->
  (String.length kw + 2 <= fuel)%nat ->
  readDirective fuel aux p w
  = Failed (ReadOutOfBounds (off p + Z.of_nat (String.length kw) + 1)) w.
Proof.
  induction kw as [|a kw IH]; intros p aux fuel w H Hkw Hf;
    (destruct fuel as [|fuel]; [simpl in Hf; lia|]);
    cbn [readDirective]; unfold bind; rewrite (load_first _ _ w H);
    cbn [first_char].
  - change (negb (isspace NUL)) with true. cbv iota.
    destruct fuel as [|fuel]; [simpl in Hf; lia|].
    cbn [readDirective]. unfold bind. rewrite (load_past _ w H).
    f_equal. f_equal. simpl. lia.
  - simpl in Hkw. apply andb_true_iff in Hkw as [Ha Hkw].
    unfold keywordChar in Ha. apply andb_true_iff in Ha as [Hs _].
    rewrite Hs. apply rest_cons in H as [_ H].
    rewrite (IH _ _ fuel w H Hkw) by (simpl in Hf; lia).
    f_equal. f_equal. destruct p as [b o]. cbn [advance off String.length]. lia.
Qed.

(** A keyword that runs up to the end of the line: the keyword loop does
    not stop on the NUL and reads the position behind it; the state is still
    P_STATE_NONE. *)
Lemma loop_keyword_overrun p kw fuel w :
  rest p = Some (String "@" kw) ->
  all_chars keywordChar kw = true ->
  parseScssLine_loop (S (S (S (String.length kw + fuel)))) p P_STATE_NONE w
  = Aborted (ReadOutOfBounds (off p + Z.of_nat (String.length kw) + 2))
            P_STATE_NONE w.
Proof.
  intros H Hkw.
  rewrite (loop_step _ _ "@" _ w (rest_first _ _ H) eq_refl eq_refl).
  unfold during. unfold parseScssLine_switch, bind.
  rewrite (load_first _ _ w H). cbn [first_char].
  change (isalnum "@") with false.
  change (Ascii.eqb "@" ".") with false. change (Ascii.eqb "@" "#") with false.
  change (Ascii.eqb "@" "@") with true. cbv iota.
  apply rest_cons in H as [_ H].
  rewrite (readDirective_overrun kw _ _ _ w H Hkw) by lia.
  f_equal. f_equal. destruct p as [b o]. cbn [advance off]. lia.
Qed.

Lemma line_keyword_overrun kw w :
  all_chars keywordChar kw = true ->
  parseScssLine (String "@" kw) P_STATE_NONE w
  = Aborted (ReadOutOfBounds (Z.of_nat (String.length kw) + 2)) P_STATE_NONE w.
Proof.
  intros Hkw. unfold parseScssLine.
  pose proof (fuel_of_ge (String "@" kw) w) as Hf. simpl String.length in Hf.
  replace (fuel_of (String "@" kw) w)
    with (S (S (S (String.length kw
                   + (fuel_of (String "@" kw) w - 3 - String.length kw)))))
    by lia.
  now rewrite (loop_keyword_overrun _ kw _ w (rest_start _) Hkw).
Qed.

Lemma find_keyword_overrun fuel kw more tags0 :
  all_chars keywordChar kw = true ->
  findScssTags_loop (S fuel) P_STATE_NONE (World (String "@" kw :: more) tags0)
  = Aborted (ReadOutOfBounds (Z.of_nat (String.length kw) + 2)) P_STATE_NONE
            (World more tags0).
Proof.
  intros Hkw. cbn [findScssTags_loop]. unfold during, fileReadLine.
  cbn [pending tags buf]. now rewrite (line_keyword_overrun kw _ Hkw).
Qed.

(** C7: in P_STATE_NONE, on an '@', the bytes that follow are read as the
    directive keyword by a loop that stops on whitespace only.  When the
    keyword runs up to the end of the line -- "@media" or "@font-face" as
    the last bytes of a line -- the loop does not stop on the NUL: it reads
    the position behind it, and the state is not changed; the scan of the
    line and of the input stops there, for every keyword.  When a whitespace
    byte follows the keyword on the line, the pointer is left on it and the
    state is as claimed: the keyword is compared byte by byte, "media" gives
    P_STATE_IN_MEDIA, "import" P_STATE_IN_IMPORT and "namespace"
    P_STATE_IN_NAMESPACE (one scan state, InImportOrNamespaceDirective),
    "page" P_STATE_IN_PAGE and "font-face" P_STATE_IN_FONTFACE (both the scan
    state InRuleBody), and every other keyword, "MEDIA" and "Import" among
    them, leaves the state as it is.  States with the same scan state are
    scanned alike, on a line and on a whole input: the bodies of @page and
    @font-face are skipped exactly as a rule body is. *)
Theorem C7_directive_keywords :
  (forall kw w,
      all_chars keywordChar kw = true ->
      parseScssLine (String "@" kw) P_STATE_NONE w
      = Aborted (ReadOutOfBounds (Z.of_nat (String.length kw) + 2))
                P_STATE_NONE w)
  /\ (forall p kw fuel w,
         rest p = Some (String "@" kw) ->
         all_chars keywordChar kw = true ->
         parseScssLine_loop (S (S (S (String.length kw + fuel)))) p P_STATE_NONE w
         = Aborted (ReadOutOfBounds (off p + Z.of_nat (String.length kw) + 2))
                   P_STATE_NONE w)
  /\ (forall fuel kw more tags0,
         all_chars keywordChar kw = true ->
         findScssTags_loop (S fuel) P_STATE_NONE
                           (World (String "@" kw :: more) tags0)
         = Aborted (ReadOutOfBounds (Z.of_nat (String.length kw) + 2))
                   P_STATE_NONE (World more tags0))
  /\ (forall p kw c t fuel w,
         rest p = Some (String "@" (kw ++ String c t)) ->
         all_chars keywordChar kw = true ->
         isspace c = true ->
         parseScssLine_switch (S (String.length kw + fuel)) p P_STATE_NONE w
         = Done (Break (directiveState kw P_STATE_NONE)
                       (Some (advance_by (S (String.length kw)) p))) w)
  /\ (directiveState "media" P_STATE_NONE = P_STATE_IN_MEDIA
      /\ directiveState "import" P_STATE_NONE = P_STATE_IN_IMPORT
      /\ directiveState "namespace" P_STATE_NONE = P_STATE_IN_NAMESPACE
      /\ directiveState "page" P_STATE_NONE = P_STATE_IN_PAGE
      /\ directiveState "font-face" P_STATE_NONE = P_STATE_IN_FONTFACE)
  /\ (scanState P_STATE_IN_MEDIA = InMediaDirective
      /\ scanState P_STATE_IN_IMPORT = InImportOrNamespaceDirective
      /\ scanState P_STATE_IN_NAMESPACE = InImportOrNamespaceDirective
      /\ scanState P_STATE_IN_PAGE = InRuleBody
      /\ scanState P_STATE_IN_FONTFACE = InRuleBody
      /\ scanState P_STATE_IN_DEFINITION = InRuleBody)
  /\ (forall kw state,
         kw <> "media" -> kw <> "import" -> kw <> "namespace" ->
         kw <> "page" -> kw <> "font-face" ->
         directiveState kw state = state)
  /\ (directiveState "MEDIA" P_STATE_NONE = P_STATE_NONE
      /\ directiveState "Import" P_STATE_NONE = P_STATE_NONE)
  /\ (forall fuel p s1 s2 w,
         scanState s1 = scanState s2 ->
         observed (parseScssLine_loop fuel p s1 w)
         = observed (parseScssLine_loop fuel p s2 w))
  /\ (forall fuel s1 s2 w,
         scanState s1 = scanState s2 ->
         observed (findScssTags_loop fuel s1 w)
         = observed (findScssTags_loop fuel s2 w))
  /\ (parseScssLine "@page :first { margin: 1in; }" P_STATE_NONE (start [])
        = Returned P_STATE_NONE (start [])
      /\ parseScssLine "@font-face {" P_STATE_NONE (start [])
        = Returned P_STATE_IN_FONTFACE (start [])
      /\ parseScssLine "@import url(x.css);" P_STATE_NONE (start [])
        = Returned P_STATE_NONE (start [])
      /\ parseScssLine "@media" P_STATE_NONE (start [])
        = Aborted (ReadOutOfBounds 7) P_STATE_NONE (start [])
      /\ findScssTags ["@font-face"; "{ font-family: x }"]
        = Aborted (ReadOutOfBounds 11) P_STATE_NONE
                  (World ["{ font-family: x }"] [])).
Proof.
  split; [exact line_keyword_overrun|].
  split; [exact loop_keyword_overrun|].
  split; [exact find_keyword_overrun|].
  split; [exact switch_directive|].
  split; [repeat split|]. split; [repeat split|].
  split; [exact directiveState_other|]. split; [repeat split|].
  split; [intros; now apply loop_respects_scanState|].
  split; [intros; now apply find_respects_scanState|].
  repeat split.
Qed.

(** The lines "@font-face" and "@media", whose keyword runs up to the end of
    the line; the line "@media screen {", where the keyword "media" is read
    up to the blank and the state becomes P_STATE_IN_MEDIA; and the keyword
    "charset", which is none of the five and leaves P_STATE_IN_COMMENT as it
    is. *)
Lemma C7_directive_keywords_witness :
  parseScssLine "@font-face" P_STATE_NONE (start ["{ font-family: x }"])
    = Aborted (ReadOutOfBounds 11) P_STATE_NONE (start ["{ font-family: x }"])
  /\ parseScssLine_loop 9 (At "@media" 0) P_STATE_NONE (start [])
    = Aborted (ReadOutOfBounds 7) P_STATE_NONE (start [])
  /\ findScssTags_loop 3 P_STATE_NONE (World ["@page"; ".a { }"] [])
    = Aborted (ReadOutOfBounds 6) P_STATE_NONE (World [".a { }"] [])
  /\ parseScssLine_switch 6 (At "@media screen {" 0) P_STATE_NONE (start [])
    = Done (Break P_STATE_IN_MEDIA (Some (At "@media screen {" 6))) (start [])
  /\ directiveState "charset" P_STATE_IN_COMMENT = P_STATE_IN_COMMENT
  /\ observed (parseScssLine_loop 9 (At "a: b }" 0) P_STATE_IN_PAGE (start []))
     = observed (parseScssLine_loop 9 (At "a: b }" 0) P_STATE_IN_DEFINITION (start [])).
Proof.
  destruct C7_directive_keywords
    as (Hline & Hover & Hfind & Hsw & _ & _ & Hother & _ & Hloop & _).
  split; [|split; [|split; [|split; [|split]]]].
  - exact (Hline "font-face" (start ["{ font-family: x }"]) eq_refl).
  - exact (Hover (At "@media" 0) "media" 1%nat (start []) eq_refl eq_refl).
  - exact (Hfind 2%nat "page" [".a { }"] [] eq_refl).
  - exact (Hsw (At "@media screen {" 0) "media" " "%char "screen {" 0%nat (start [])
               eq_refl eq_refl eq_refl).
  - apply Hother; discriminate.
  - apply Hloop. reflexivity.
Defined.

(** ** @media *)

Lemma advance_by_add n m p :
  advance_by m (advance_by n p) = advance_by (n + m) p.
Proof. destruct p as [b o]. unfold advance_by. simpl. f_equal. lia. Qed.

Lemma skipSpace_total s : forall p fuel w,
  rest p = Some s -> (String.length s < fuel)%nat ->
  exists n, skipSpace fuel p w = Done (advance_by n p) w
            /\ rest (advance_by n p) = Some (skip_blanks s)
            /\ (n + String.length (skip_blanks s) = String.length s)%nat.
Proof.
  induction s as [|a s IH]; intros p fuel w H Hf;
    (destruct fuel as [|fuel]; [simpl in Hf; lia|]); simpl; unfold bind;
    rewrite (load_first _ _ w H); simpl.
  - exists 0%nat. now rewrite advance_by_0.
  - destruct (isspace a) eqn:Ha.
    + apply rest_cons in H as [_ H].
      destruct (IH _ fuel w H) as (n & Hr & Hn & Hl); [simpl in Hf; lia|].
      exists (S n). rewrite <- advance_by_S. repeat split; [assumption..|lia].
    + exists 0%nat. now rewrite advance_by_0.
Qed.

Lemma all_chars_skip_blanks f s :
  all_chars f s = true -> all_chars f (skip_blanks s) = true.
Proof.
  induction s as [|a s IH]; simpl; [trivial|].
  intros H. destruct (isspace a); [|exact H].
  apply andb_true_iff in H as [_ H]. now apply IH.
Qed.

Lemma skip_blanks_append stop s t :
  isspace stop = false ->
  exists s1, skip_blanks (s ++ String stop t) = (s1 ++ String stop t)%string
             /\ (forall f, all_chars f s = true -> all_chars f s1 = true)
             /\ (String.length s1 <= String.length s)%nat.
Proof.
  intros Hstop. induction s as [|a s (s1 & IH1 & IH2 & IH3)]; simpl.
  - rewrite Hstop. now exists EmptyString.
  - destruct (isspace a).
    + exists s1. repeat split; [assumption| |lia].
      intros f H. apply andb_true_iff in H as [_ H]. now apply IH2.
    + now exists (String a s).
Qed.

Lemma passes_not_nul stop c : passes stop c = true -> Ascii.eqb c NUL = false.
Proof.
  unfold passes. intros H. apply andb_true_iff in H as [_ H].
  now apply negb_true_iff.
Qed.










(** ** Reads outside the line buffer *)

Lemma load_before_line line w :
  load (previous (At line 0)) w = Failed (ReadOutOfBounds (-1)) w.
Proof. reflexivity. Qed.

(** A line whose first byte [c] is neither NUL nor whitespace, scanned from
    its start: the first iteration runs the switch on that byte. *)
Lemma loop_first_byte c t st w :
  Ascii.eqb c NUL = false -> isspace c = false ->
  parseScssLine (String c t) st w
  = during st (parseScssLine_switch (S (fuel_of (String c t) w - 2))
                                    (At (String c t) 0) st)
      (fun x => match x with
                | Return st' => Returned st'
                | Break st' None => Returned st'
                | Break st' (Some line2) =>
                    parseScssLine_loop (S (fuel_of (String c t) w - 2))
                                       (advance line2) st'
                end) w.
Proof.
  intros Hn Hs. unfold parseScssLine.
  pose proof (fuel_of_ge (String c t) w) as Hf.
  replace (fuel_of (String c t) w) with (S (S (fuel_of (String c t) w - 2))) at 1
    by lia.
  cbn [parseScssLine_loop]. unfold during at 1.
  rewrite (load_first _ _ w (rest_start (String c t))). cbn [first_char].
  rewrite Hn. unfold during at 1.
  now rewrite (skipSpace_stay (String c t) _ _ w (rest_start _) Hs).
Qed.

(** C3: the three lookback checks read the byte before the pointer without
    asking whether the pointer is at the start of the line.  Every line
    whose first byte is the triggering character ('*' in P_STATE_NONE, '/'
    in P_STATE_IN_COMMENT, the quote of the string state) makes the scan
    stop on a read at offset -1 of the line buffer; "* { margin: 0 }", a
    universal selector at the start of a line, is such a line. *)
Theorem C3_lookback_reads_before_line :
  (forall t w,
      parseScssLine (String "*" t) P_STATE_NONE w
      = Aborted (ReadOutOfBounds (-1)) P_STATE_NONE w)
  /\ (forall t w,
         parseScssLine (String "/" t) P_STATE_IN_COMMENT w
         = Aborted (ReadOutOfBounds (-1)) P_STATE_IN_COMMENT w)
  /\ (forall t w,
         parseScssLine (String SQUOTE t) P_STATE_IN_SINGLE_STRING w
         = Aborted (ReadOutOfBounds (-1)) P_STATE_IN_SINGLE_STRING w)
  /\ (forall t w,
         parseScssLine (String DQUOTE t) P_STATE_IN_DOUBLE_STRING w
         = Aborted (ReadOutOfBounds (-1)) P_STATE_IN_DOUBLE_STRING w)
  /\ parseScssLine "* { margin: 0 }" P_STATE_NONE (start [])
     = Aborted (ReadOutOfBounds (-1)) P_STATE_NONE (start [])
  /\ findScssTags ["* { margin: 0 }"]
     = Aborted (ReadOutOfBounds (-1)) P_STATE_NONE (start []).
Proof.
  repeat split; intros t w; rewrite loop_first_byte by reflexivity;
    unfold during, parseScssLine_switch, bind;
    rewrite (load_first _ _ w (rest_start _)); cbn [first_char];
    repeat match goal with
      | |- context [isalnum ?c] =>
          let v := eval vm_compute in (isalnum c) in change (isalnum c) with v
      | |- context [Ascii.eqb ?a ?b] =>
          let v := eval vm_compute in (Ascii.eqb a b) in
          change (Ascii.eqb a b) with v
      end;
    cbv beta iota; now rewrite load_before_line.
Qed.

(** C4: the scanner reads past the terminating NUL of a line.  The keyword
    loop after '@' stops only on whitespace, so on "@media" (6 bytes, NUL at
    offset 6) it reads offset 7.  The advance at the end of an iteration is
    taken also when the case left the pointer on the NUL, and the loop
    condition then reads one position past the NUL: so for a line of two
    blanks, for a line scanned to its end in P_STATE_IN_MEDIA or
    P_STATE_IN_IMPORT, and for a line that ends in a terminator, such as
    ".a {". *)
Theorem C4_reads_past_terminator :
  parseScssLine "@media" P_STATE_NONE (start [])
    = Aborted (ReadOutOfBounds 7) P_STATE_NONE (start [])
  /\ parseScssLine "  " P_STATE_NONE (start [])
    = Aborted (ReadOutOfBounds 3) P_STATE_NONE (start [])
  /\ parseScssLine "screen" P_STATE_IN_MEDIA (start [])
    = Aborted (ReadOutOfBounds 7) P_STATE_IN_MEDIA (start [])
  /\ parseScssLine "url(x)" P_STATE_IN_IMPORT (start [])
    = Aborted (ReadOutOfBounds 7) P_STATE_IN_IMPORT (start [])
  /\ parseScssLine ".a {" P_STATE_NONE (start [])
    = Aborted (ReadOutOfBounds 5) P_STATE_IN_DEFINITION
              (World [] [Tag K_CLASS ".a"])
  /\ deref (At "@media" 6) = Some NUL
  /\ deref (At "@media" 7) = None.
Proof. repeat split. Qed.

(** ** Strings *)

Lemma switch_string st q fuel p c w :
  quoteOf st = Some q -> deref p = Some c ->
  parseScssLine_switch fuel p st w
  = if Ascii.eqb c q then
      bind (load (previous p))
           (fun b => ret (Break (if negb (Ascii.eqb b BACKSLASH)
                                 then P_STATE_IN_DEFINITION else st) (Some p))) w
    else Done (Break st (Some p)) w.
Proof.
  intros Hq H.
  destruct st; try discriminate Hq; injection Hq as <-;
    unfold parseScssLine_switch, bind; rewrite (load_deref _ _ w H);
    (destruct (Ascii.eqb c _); [|reflexivity]);
    (destruct (load (previous p) w) as [b w'|f w']; [|reflexivity]);
    now destruct (Ascii.eqb b BACKSLASH).
Qed.

Lemma loop_string_step st q fuel p c b w :
  quoteOf st = Some q ->
  deref p = Some c -> Ascii.eqb c NUL = false -> isspace c = false ->
  deref (previous p) = Some b ->
  parseScssLine_loop (S (S fuel)) p st w
  = parseScssLine_loop (S fuel) (advance p)
      (if Ascii.eqb c q && negb (Ascii.eqb b BACKSLASH)
       then P_STATE_IN_DEFINITION else st) w.
Proof.
  intros Hq H Hn Hs Hb. cbn [parseScssLine_loop]. unfold during at 1.
  rewrite (load_deref _ _ w H), Hn. unfold during at 1.
  assert (Hskip : skipSpace (S fuel) p w = Done p w).
  { simpl. unfold bind. now rewrite (load_deref _ _ w H), Hs. }
  rewrite Hskip. unfold during at 1.
  rewrite (switch_string _ _ _ _ _ w Hq H). unfold bind.
  rewrite (load_deref _ _ w Hb).
  destruct (Ascii.eqb c q); [|reflexivity].
  now destruct (Ascii.eqb b BACKSLASH).
Qed.

Lemma load_keeps p w : world_of (load p w) = w.
Proof. unfold load. now destruct (deref p). Qed.

Lemma skipSpace_keeps fuel : forall p w, world_of (skipSpace fuel p w) = w.
Proof.
  induction fuel as [|fuel IH]; intros p w; [reflexivity|].
  simpl. unfold bind. pose proof (load_keeps p w) as H.
  destruct (load p w) as [c w1|f w1]; simpl in H; subst; [|reflexivity].
  destruct (isspace c); [apply IH | reflexivity].
Qed.

Lemma deref_previous_advance p : deref (previous (advance p)) = deref p.
Proof. destruct p as [b o]. unfold previous, advance. simpl. f_equal. f_equal. lia. Qed.

(** Skipping whitespace inside a string keeps what [no_closing] says. *)
Lemma skipSpace_no_closing q fuel : forall p s w p1 w1,
  rest p = Some s ->
  no_closing q (deref (previous p)) s = true ->
  skipSpace fuel p w = Done p1 w1 ->
  exists s1, rest p1 = Some s1
             /\ no_closing q (deref (previous p1)) s1 = true.
Proof.
  induction fuel as [|fuel IH]; intros p s w p1 w1 H Hs Hr; [discriminate Hr|].
  simpl in Hr. unfold bind in Hr. rewrite (load_first _ _ w H) in Hr.
  destruct (isspace (first_char s)) eqn:Hc.
  - destruct s as [|c t]; [discriminate Hc|].
    simpl in Hs. apply andb_true_iff in Hs as [_ Hs].
    destruct (rest_cons _ _ _ H) as [Hd Ht].
    apply (IH _ t w p1 w1 Ht); [|exact Hr].
    now rewrite deref_previous_advance, Hd.
  - injection Hr as <- <-. now exists s.
Qed.

Lemma loop_outside fuel p st w :
  deref p = None -> ends_with st w (parseScssLine_loop fuel p st w).
Proof.
  intros H. destruct fuel as [|fuel]; [now split|].
  cbn [parseScssLine_loop]. unfold during, load. rewrite H. now split.
Qed.

Lemma quoteOf_not_nul st q : quoteOf st = Some q -> Ascii.eqb NUL q = false.
Proof. destruct st; intros H; try discriminate H; now injection H as <-. Qed.

(** A string state lasts as long as no closing quote comes. *)
Lemma string_persists st q fuel : forall p s w,
  quoteOf st = Some q ->
  rest p = Some s ->
  no_closing q (deref (previous p)) s = true ->
  ends_with st w (parseScssLine_loop fuel p st w).
Proof.
  induction fuel as [|fuel IH]; intros p s w Hq H Hs; [now split|].
  cbn [parseScssLine_loop]. unfold during at 1.
  rewrite (load_first _ _ w H).
  destruct (Ascii.eqb (first_char s) NUL); [now split|].
  unfold during at 1.
  pose proof (skipSpace_keeps fuel p w) as Hk.
  destruct (skipSpace fuel p w) as [p1 w1|f w1] eqn:Hskip; simpl in Hk; subst w1;
    [|now split].
  destruct (skipSpace_no_closing q _ _ _ _ _ _ H Hs Hskip) as (s1 & H1 & Hs1).
  unfold during.
  rewrite (switch_string _ _ _ _ _ w Hq (rest_first _ _ H1)).
  assert (Hgo : ends_with st w (parseScssLine_loop fuel (advance p1) st w)).
  { destruct s1 as [|c t]; [apply loop_outside; now apply rest_nil in H1|].
    cbn [no_closing] in Hs1. apply andb_true_iff in Hs1 as [_ Hs1].
    destruct (rest_cons _ _ _ H1) as [Hd Ht].
    apply (IH _ t); [assumption..|]. now rewrite deref_previous_advance, Hd. }
  destruct (Ascii.eqb (first_char s1) q) eqn:Hc; [|exact Hgo].
  destruct s1 as [|c t];
    [cbn [first_char] in Hc; now rewrite (quoteOf_not_nul _ _ Hq) in Hc|].
  cbn [first_char no_closing] in Hc, Hs1. unfold bind, load.
  destruct (deref (previous p1)) as [b|]; [|now split].
  rewrite Hc in Hs1. apply andb_true_iff in Hs1 as [Hb _].
  cbn [andb] in Hb. apply negb_true_iff in Hb.
  unfold ret. cbv beta iota. rewrite Hb. exact Hgo.
Qed.

(** C9: in P_STATE_IN_SINGLE_STRING (P_STATE_IN_DOUBLE_STRING) the state is
    left only on a ' (a double quote) whose preceding byte is not a
    backslash, and then it becomes P_STATE_IN_DEFINITION; any other byte,
    and a quote preceded by a backslash, leave the state as it is.  The same
    is said for a whole iteration of the line loop, which then goes on with
    the next byte.  So the state lasts over the rest of a line, and over a
    whole line, on which every quote of that kind has a backslash before
    it (a quote as the very first byte of the line is the out-of-bounds
    lookback of C3, and leaves the state variable as it is, too).  Three
    lines are run: an escaped quote does not end the string, so a '}'
    behind it is still inside the string. *)
Theorem C9_string_states :
  (forall st q fuel p c w,
      quoteOf st = Some q -> deref p = Some c -> c <> q ->
      parseScssLine_switch fuel p st w = Done (Break st (Some p)) w)
  /\ (forall st q fuel p b w,
         quoteOf st = Some q -> deref p = Some q ->
         deref (previous p) = Some b -> b <> BACKSLASH ->
         parseScssLine_switch fuel p st w
         = Done (Break P_STATE_IN_DEFINITION (Some p)) w)
  /\ (forall st q fuel p w,
         quoteOf st = Some q -> deref p = Some q ->
         deref (previous p) = Some BACKSLASH ->
         parseScssLine_switch fuel p st w = Done (Break st (Some p)) w)
  /\ (forall st q fuel p c b w,
         quoteOf st = Some q ->
         deref p = Some c -> Ascii.eqb c NUL = false -> isspace c = false ->
         deref (previous p) = Some b ->
         parseScssLine_loop (S (S fuel)) p st w
         = parseScssLine_loop (S fuel) (advance p)
             (if Ascii.eqb c q && negb (Ascii.eqb b BACKSLASH)
              then P_STATE_IN_DEFINITION else st) w)
  /\ (forall st q fuel p s w,
         quoteOf st = Some q ->
         rest p = Some s ->
         no_closing q (deref (previous p)) s = true ->
         final_state (parseScssLine_loop fuel p st w) = st
         /\ final_world (parseScssLine_loop fuel p st w) = w)
  /\ (forall st q line w,
         quoteOf st = Some q ->
         no_closing q None line = true ->
         final_state (parseScssLine line st w) = st
         /\ final_world (parseScssLine line st w) = w)
  /\ (quoteOf P_STATE_IN_SINGLE_STRING = Some SQUOTE
      /\ quoteOf P_STATE_IN_DOUBLE_STRING = Some DQUOTE)
  /\ (parseScssLine ("content: 'it" ++ String BACKSLASH "'s }' }")
                    P_STATE_IN_DEFINITION (start [])
        = Returned P_STATE_NONE (start [])
      /\ parseScssLine ("it" ++ String BACKSLASH "'s }")
                       P_STATE_IN_SINGLE_STRING (start [])
        = Returned P_STATE_IN_SINGLE_STRING (start [])
      /\ parseScssLine ("a" ++ String BACKSLASH (String DQUOTE ("b }" ++ String DQUOTE ";")))
                       P_STATE_IN_DOUBLE_STRING (start [])
        = Returned P_STATE_IN_DEFINITION (start [])).
Proof.
  split; [|split; [|split; [|split; [exact loop_string_step|]]]];
    [| | |split; [|split; [|repeat split]]].
  4: { intros st q fuel p s w. apply string_persists. }
  4: { intros st q line w Hq Hs. unfold parseScssLine.
       now apply (string_persists st q _ _ line). }
  - intros st q fuel p c w Hq H Hc.
    rewrite (switch_string _ _ _ _ _ w Hq H).
    apply Ascii.eqb_neq in Hc. now rewrite Hc.
  - intros st q fuel p b w Hq H Hb Hne.
    rewrite (switch_string _ _ _ _ _ w Hq H), Ascii.eqb_refl. unfold bind.
    rewrite (load_deref _ _ w Hb). apply Ascii.eqb_neq in Hne. now rewrite Hne.
  - intros st q fuel p w Hq H Hb.
    rewrite (switch_string _ _ _ _ _ w Hq H), Ascii.eqb_refl. unfold bind.
    now rewrite (load_deref _ _ w Hb).
Qed.

(** The bytes of "a'b": the closing quote at offset 1 behind an 'a', and the
    byte 'b' behind it. *)
Lemma C9_string_states_witness :
  parseScssLine_switch 1 (At "a'b" 1) P_STATE_IN_SINGLE_STRING (start [])
    = Done (Break P_STATE_IN_DEFINITION (Some (At "a'b" 1))) (start [])
  /\ parseScssLine_switch 1 (At "a'b" 2) P_STATE_IN_SINGLE_STRING (start [])
    = Done (Break P_STATE_IN_SINGLE_STRING (Some (At "a'b" 2))) (start [])
  /\ parseScssLine_switch 1 (At (String BACKSLASH (String DQUOTE EmptyString)) 1)
                          P_STATE_IN_DOUBLE_STRING (start [])
    = Done (Break P_STATE_IN_DOUBLE_STRING
                  (Some (At (String BACKSLASH (String DQUOTE EmptyString)) 1))) (start [])
  /\ parseScssLine_loop 3 (At "a'b" 1) P_STATE_IN_SINGLE_STRING (start [])
    = parseScssLine_loop 2 (At "a'b" 2) P_STATE_IN_DEFINITION (start [])
  /\ final_state (parseScssLine_loop 9 (At "a'b" 2) P_STATE_IN_SINGLE_STRING (start []))
    = P_STATE_IN_SINGLE_STRING.
Proof.
  destruct C9_string_states as (Hother & Hend & Hesc & Hloop & Hlast & _).
  split; [|split; [|split; [|split]]].
  - apply (Hend P_STATE_IN_SINGLE_STRING SQUOTE 1%nat (At "a'b" 1) "a"%char);
      [reflexivity..|discriminate].
  - apply (Hother P_STATE_IN_SINGLE_STRING SQUOTE 1%nat (At "a'b" 2) "b"%char);
      [reflexivity..|discriminate].
  - apply (Hesc P_STATE_IN_DOUBLE_STRING DQUOTE); reflexivity.
  - exact (Hloop P_STATE_IN_SINGLE_STRING SQUOTE 1%nat (At "a'b" 1) SQUOTE "a"%char
                 (start []) eq_refl eq_refl eq_refl eq_refl eq_refl).
  - exact (proj1 (Hlast P_STATE_IN_SINGLE_STRING SQUOTE 9%nat (At "a'b" 2) "b"
                        (start []) eq_refl eq_refl eq_refl)).
Defined.

(** ** P_STATE_AT_END *)

Lemma load_world p w c w' : load p w = Done c w' -> w' = w /\ deref p = Some c.
Proof.
  unfold load. destruct (deref p); [|discriminate].
  intros H. injection H as <- <-. now split.
Qed.

Lemma declaration_fault fuel name p kind w :
  deref p = None ->
  parseScssDeclaration_loop (S fuel) name p kind w
  = Failed (ReadOutOfBounds (off p)) w.
Proof.
  intros H. simpl. unfold bind, isScssDeclarationAllowedChar, bind, load.
  now rewrite H.
Qed.

(** Every return of the declaration scanner has put one tag in the sink; a
    return with P_STATE_AT_END comes with a NULL position and an exhausted
    line source. *)
Lemma declaration_end fuel : forall name p kind w st q w',
  parseScssDeclaration_loop fuel name p kind w = Done (st, q) w' ->
  (exists name', tags w' = tags w ++ [Tag kind name'])
  /\ (st = P_STATE_AT_END -> q = None /\ pending w' = []).
Proof.
  induction fuel as [|fuel IH]; intros name p kind w st q w' H; [discriminate|].
  destruct (deref p) as [c|] eqn:Hd;
    [|rewrite (declaration_fault _ _ _ _ _ Hd) in H; discriminate].
  rewrite (declaration_step _ _ _ _ _ _ Hd) in H.
  destruct (Ascii.eqb c NUL).
  - destruct (pending w) as [|l more] eqn:Hp.
    + injection H as <- <- <-. split; [now eexists|]. intros _. now split.
    + unfold bind in H.
      destruct (load (At l 0) (World more (tags w))) as [c' w0|f w0] eqn:Hl;
        [|discriminate].
      apply load_world in Hl as [-> _]. now apply IH in H.
  - destruct (negb (allowedChar c));
      [injection H as <- <- <-; split; [now eexists|discriminate]|].
    destruct (Ascii.eqb c ",");
      [injection H as <- <- <-; split; [now eexists|discriminate]|].
    destruct (Ascii.eqb c "{");
      [injection H as <- <- <-; split; [now eexists|discriminate]|].
    now apply IH in H.
Qed.

Lemma directiveState_end aux st :
  directiveState aux st = P_STATE_AT_END -> st = P_STATE_AT_END.
Proof.
  unfold directiveState.
  repeat match goal with
         | |- context [if ?b then _ else _] => destruct b; try discriminate
         end.
  trivial.
Qed.

(** Takes apart the run of a case of the switch that is recorded in [H]. *)
Ltac crack H :=
  repeat (cbv beta in H;
          match type of H with
          | context [load ?q ?v] =>
              destruct (load q v); [|discriminate H]
          | context [skipTo ?f ?c ?q ?v] =>
              destruct (skipTo f c q v); [|discriminate H]
          | context [if ?b then _ else _] => destruct b
          end).

(** The switch hands out P_STATE_AT_END only as the result of the
    declaration scanner, called in P_STATE_NONE. *)
Lemma switch_end fuel p st w x w' :
  parseScssLine_switch fuel p st w = Done x w' ->
  st <> P_STATE_AT_END ->
  exit_state x = P_STATE_AT_END ->
  st = P_STATE_NONE /\ x = Break P_STATE_AT_END None /\ pending w' = []
  /\ exists kind name,
      tags w' = tags w ++ [Tag kind name]
      /\ parseScssDeclaration fuel p kind w = Done (P_STATE_AT_END, None) w'.
Proof.
  intros H Hst Hx.
  destruct st; try contradiction.
  1: {
    destruct (deref p) as [c|] eqn:Hd;
      [|unfold parseScssLine_switch, bind, load in H; rewrite Hd in H; discriminate].
    destruct (declarationKind c) as [kind|] eqn:Hk.
    - rewrite (switch_declaration _ _ _ _ w Hd Hk) in H. unfold bind in H.
      destruct (parseScssDeclaration fuel p kind w) as [[st q] w3|f w3] eqn:Hdecl;
        [|discriminate].
      injection H as <- <-. simpl in Hx. subst st.
      destruct (declaration_end _ _ _ _ _ _ _ _ Hdecl) as [[name Hn] Hq].
      destruct (Hq eq_refl) as [-> Hp].
      repeat split; [assumption|]. now exists kind, name.
    - unfold parseScssLine_switch, bind in H. rewrite (load_deref _ _ w Hd) in H.
      unfold declarationKind in Hk.
      destruct (isalnum c); [discriminate|].
      destruct (Ascii.eqb c "."); [discriminate|].
      destruct (Ascii.eqb c "#"); [discriminate|].
      destruct (Ascii.eqb c "@").
      + destruct (readDirective fuel EmptyString (advance p) w) as [[aux q] w3|f w3];
          [|discriminate].
        injection H as <- <-. simpl in Hx. now apply directiveState_end in Hx.
      + crack H; injection H as <- <-; discriminate Hx. }
  all: unfold parseScssLine_switch, bind in H; crack H;
    injection H as <- <-; discriminate Hx.
Qed.

(** The line loop ends with P_STATE_AT_END only by returning it, with the
    line source exhausted and a tag as the last thing done. *)
Lemma loop_end fuel : forall p st w,
  st <> P_STATE_AT_END ->
  final_state (parseScssLine_loop fuel p st w) = P_STATE_AT_END ->
  exists w', parseScssLine_loop fuel p st w = Returned P_STATE_AT_END w'
             /\ pending w' = []
             /\ exists tags0 kind name, tags w' = tags0 ++ [Tag kind name].
Proof.
  induction fuel as [|fuel IH]; intros p st w Hst H; [simpl in H; contradiction|].
  cbn [parseScssLine_loop] in *. unfold during in *.
  destruct (load p w) as [c w1|f w1]; [|simpl in H; contradiction].
  destruct (Ascii.eqb c NUL); [simpl in H; contradiction|].
  destruct (skipSpace fuel p w1) as [p1 w2|f w2]; [|simpl in H; contradiction].
  destruct (parseScssLine_switch fuel p1 st w2) as [x w3|f w3] eqn:Hsw;
    [|simpl in H; contradiction].
  destruct (state_eq_dec (exit_state x) P_STATE_AT_END) as [Hx|Hx].
  - destruct (switch_end _ _ _ _ _ _ Hsw Hst Hx)
      as (_ & -> & Hp & kind & name & Ht & _).
    exists w3. repeat split; [assumption|]. now exists (tags w2), kind, name.
  - destruct x as [st' [q|]|st']; simpl in Hx.
    + now apply IH.
    + simpl in H. contradiction.
    + simpl in H. contradiction.
Qed.

Lemma find_end fuel : forall st w,
  st <> P_STATE_AT_END ->
  final_state (findScssTags_loop fuel st w) = P_STATE_AT_END ->
  exists w', findScssTags_loop fuel st w = Returned P_STATE_AT_END w'
             /\ pending w' = []
             /\ exists tags0 kind name, tags w' = tags0 ++ [Tag kind name].
Proof.
  induction fuel as [|fuel IH]; intros st w Hst H; [simpl in H; contradiction|].
  cbn [findScssTags_loop] in *. unfold during, fileReadLine in *.
  destruct (pending w) as [|l more]; [simpl in H; contradiction|].
  unfold parseScssLine in *.
  pose proof (loop_end (fuel_of (buf (At l 0)) (World more (tags w)))
                       (At (buf (At l 0)) 0) st (World more (tags w)) Hst) as Hl.
  destruct (parseScssLine_loop (fuel_of (buf (At l 0)) (World more (tags w)))
              (At (buf (At l 0)) 0) st (World more (tags w))) as [st' w1|f st' w1].
  - destruct (state_eq_dec st' P_STATE_AT_END) as [->|Hne].
    + destruct (Hl eq_refl) as (w' & Hr & Hp & Ht).
      injection Hr as <-. now exists w1.
    + now apply IH.
  - simpl in H. subst st'. destruct (Hl eq_refl) as (w' & Hr & _). discriminate.
Qed.

(** C10: findScssTags starts the scan in P_STATE_NONE, and P_STATE_AT_END
    comes from one place only: the declaration scanner, on finding the line
    source exhausted.  The scanner reports P_STATE_AT_END only together with
    a NULL position, an exhausted source and the tag of the open
    declaration; the switch yields P_STATE_AT_END from another state only
    in P_STATE_NONE and only as that report; and a line scan, or a whole
    scan, that did not start in P_STATE_AT_END ends in it only by returning
    with the source exhausted and a tag emitted last. *)
Theorem C10_at_end_only_from_open_declaration :
  (forall input,
      findScssTags input
      = findScssTags_loop (S (List.length input)) P_STATE_NONE (start input))
  /\ (forall fuel name p kind w st q w',
         parseScssDeclaration_loop fuel name p kind w = Done (st, q) w' ->
         st = P_STATE_AT_END ->
         q = None /\ pending w' = []
         /\ exists name', tags w' = tags w ++ [Tag kind name'])
  /\ (forall fuel p st w x w',
         parseScssLine_switch fuel p st w = Done x w' ->
         st <> P_STATE_AT_END ->
         exit_state x = P_STATE_AT_END ->
         st = P_STATE_NONE /\ x = Break P_STATE_AT_END None /\ pending w' = []
         /\ exists kind name,
             tags w' = tags w ++ [Tag kind name]
             /\ parseScssDeclaration fuel p kind w = Done (P_STATE_AT_END, None) w')
  /\ (forall fuel p st w,
         st <> P_STATE_AT_END ->
         final_state (parseScssLine_loop fuel p st w) = P_STATE_AT_END ->
         exists w', parseScssLine_loop fuel p st w = Returned P_STATE_AT_END w'
                    /\ pending w' = []
                    /\ exists tags0 kind name, tags w' = tags0 ++ [Tag kind name])
  /\ (forall input,
         final_state (findScssTags input) = P_STATE_AT_END ->
         exists w', findScssTags input = Returned P_STATE_AT_END w'
                    /\ pending w' = []
                    /\ exists tags0 kind name, tags w' = tags0 ++ [Tag kind name]).
Proof.
  split; [reflexivity|]. split; [|split; [exact switch_end|split; [exact loop_end|]]].
  - intros fuel name p kind w st q w' H Hst.
    destruct (declaration_end _ _ _ _ _ _ _ _ H) as [Hn Hq].
    destruct (Hq Hst) as [-> Hp]. now repeat split.
  - intros input H. apply find_end; [discriminate|exact H].
Qed.

(** The input ".a { }", "b": the scan ends in P_STATE_AT_END, with the source
    exhausted and the tag of the open declaration "b" emitted last. *)
Lemma C10_at_end_only_from_open_declaration_witness :
  exists w', findScssTags [".a { }"; "b"] = Returned P_STATE_AT_END w'
             /\ pending w' = []
             /\ exists tags0 kind name, tags w' = tags0 ++ [Tag kind name].
Proof.
  destruct C10_at_end_only_from_open_declaration as (_ & _ & _ & _ & H).
  exact (H [".a { }"; "b"] eq_refl).
Defined.

(** ** The byte behind a terminator *)

Lemma drop_S n : forall s,
  drop (S n) s = match drop n s with
                 | Some (String _ t) => Some t
                 | _ => None
                 end.
Proof.
  induction n as [|n IH]; intros [|a s]; try reflexivity.
  change (drop (S (S n)) (String a s)) with (drop (S n) s).
  now rewrite IH.
Qed.

Lemma drop_beyond n : forall s, (String.length s < n)%nat -> drop n s = None.
Proof.
  induction n as [|n IH]; intros [|a s] H; simpl in *; try lia; [reflexivity|].
  apply IH. lia.
Qed.

Lemma drop_inside n : forall s,
  (n <= String.length s)%nat -> exists t, drop n s = Some t.
Proof.
  induction n as [|n IH]; intros s H; [now exists s|].
  destruct s as [|a s]; simpl in *; [lia|]. apply IH. lia.
Qed.

Lemma deref_rest p : deref p = option_map first_char (rest p).
Proof.
  unfold deref, rest. destruct p as [b o]; simpl.
  destruct (Z.ltb_spec o 0) as [Hneg|Hpos]; [reflexivity|]. simpl.
  destruct (Z.ltb_spec (Z.of_nat (String.length b)) o) as [Hout|Hin].
  - rewrite drop_beyond by lia. reflexivity.
  - destruct (drop_inside (Z.to_nat o) b) as [t Ht]; [lia|]. rewrite Ht. simpl.
    destruct t as [|c t].
    + apply drop_nil in Ht.
      destruct (Z.eqb_spec o (Z.of_nat (String.length b))); [reflexivity|lia].
    + destruct (drop_cons _ _ _ _ Ht) as (Hg & _ & Hl).
      destruct (Z.eqb_spec o (Z.of_nat (String.length b))); [lia|]. exact Hg.
Qed.

Lemma rest_advance p :
  0 <= off p ->
  rest (advance p) = match rest p with
                     | Some (String _ t) => Some t
                     | _ => None
                     end.
Proof.
  unfold rest, advance. destruct p as [b o]; simpl. intros H.
  destruct (Z.ltb_spec (o + 1) 0); [lia|].
  destruct (Z.ltb_spec o 0); [lia|].
  replace (Z.to_nat (o + 1)) with (S (Z.to_nat o)) by lia. apply drop_S.
Qed.

Lemma alike_of_rest p1 p2 :
  off p1 = off p2 -> 0 <= off p1 -> rest p1 = rest p2 -> alike p1 p2.
Proof.
  intros Ho Hpos Hr. split; [assumption|]. intros n.
  rewrite !deref_rest. f_equal.
  revert p1 p2 Ho Hpos Hr. induction n as [|n IH]; intros p1 p2 Ho Hpos Hr.
  - now rewrite !advance_by_0.
  - rewrite <- !advance_by_S. apply IH; simpl; try lia.
    rewrite !rest_advance by lia. now rewrite Hr.
Qed.

Lemma alike_refl p : alike p p.
Proof. now split. Qed.

Lemma alike_advance p1 p2 : alike p1 p2 -> alike (advance p1) (advance p2).
Proof.
  intros [Ho H]. split; [simpl; lia|].
  intros n. rewrite !advance_by_S. apply H.
Qed.

Lemma alike_deref p1 p2 : alike p1 p2 -> deref p1 = deref p2.
Proof. intros [_ H]. specialize (H 0%nat). now rewrite !advance_by_0 in H. Qed.

Lemma alike_load p1 p2 w : alike p1 p2 -> load p1 w = load p2 w.
Proof.
  intros H. unfold load. rewrite (alike_deref _ _ H). now destruct H as [-> _].
Qed.

Lemma previous_advance p : previous (advance p) = p.
Proof. destruct p as [b o]. unfold previous, advance. simpl. f_equal. lia. Qed.

Lemma alike_back p1 p2 : alike p1 p2 -> back (advance p1) (advance p2).
Proof. intros H. unfold back. rewrite !previous_advance. now apply alike_deref. Qed.

Lemma back_load p1 p2 w :
  alike p1 p2 -> back p1 p2 -> load (previous p1) w = load (previous p2) w.
Proof.
  intros [Ho _] H. unfold load. rewrite H. simpl. now rewrite Ho.
Qed.

Lemma sim_bind {A B} (R : A -> A -> Prop) (R' : B -> B -> Prop)
      (m1 m2 : M A) (k1 k2 : A -> M B) w :
  sim R (m1 w) (m2 w) ->
  (forall a1 a2 w', R a1 a2 -> sim R' (k1 a1 w') (k2 a2 w')) ->
  sim R' (bind m1 k1 w) (bind m2 k2 w).
Proof.
  intros H Hk. unfold bind. destruct H; [now apply Hk | constructor].
Qed.

Lemma sim_load {B} (R' : B -> B -> Prop) p1 p2 (k1 k2 : ascii -> M B) w :
  alike p1 p2 ->
  (forall c, deref p1 = Some c -> sim R' (k1 c w) (k2 c w)) ->
  sim R' (bind (load p1) k1 w) (bind (load p2) k2 w).
Proof.
  intros H Hk. unfold bind. rewrite <- (alike_load _ _ w H). unfold load.
  destruct (deref p1) as [c|]; [now apply Hk | constructor].
Qed.

Lemma skipSpace_alike fuel : forall p1 p2 w,
  alike p1 p2 ->
  sim (fun q1 q2 => alike q1 q2 /\ ((q1 = p1 /\ q2 = p2) \/ back q1 q2))
      (skipSpace fuel p1 w) (skipSpace fuel p2 w).
Proof.
  induction fuel as [|fuel IH]; intros p1 p2 w H; [constructor|].
  simpl. apply sim_load; [assumption|]. intros c _.
  destruct (isspace c).
  - specialize (IH _ _ w (alike_advance _ _ H)).
    destruct IH as [q1 q2 w' [Hq Hb]|]; constructor.
    split; [assumption|]. right.
    destruct Hb as [[-> ->]|Hb]; [now apply alike_back | assumption].
  - constructor. split; [assumption | now left].
Qed.

Lemma readDirective_alike fuel : forall aux p1 p2 w,
  alike p1 p2 ->
  sim (fun r1 r2 => fst r1 = fst r2 /\ alike (snd r1) (snd r2))
      (readDirective fuel aux p1 w) (readDirective fuel aux p2 w).
Proof.
  induction fuel as [|fuel IH]; intros aux p1 p2 w H; [constructor|].
  simpl. apply sim_load; [assumption|]. intros c _.
  destruct (isspace c); simpl.
  - constructor. now split.
  - apply IH. now apply alike_advance.
Qed.

Lemma skipTo_alike fuel stop : forall p1 p2 w,
  alike p1 p2 -> sim alike (skipTo fuel stop p1 w) (skipTo fuel stop p2 w).
Proof.
  induction fuel as [|fuel IH]; intros p1 p2 w H; [constructor|].
  simpl. apply sim_load; [assumption|]. intros c _.
  destruct (Ascii.eqb c stop); simpl; [now constructor|].
  destruct (Ascii.eqb c NUL); [now constructor|].
  apply IH. now apply alike_advance.
Qed.

Lemma sim_same {A} (m : outcome A) : sim eq m m.
Proof. destruct m; now constructor. Qed.

Lemma sim_emit {B} (R' : B -> B -> Prop) name kind (b1 b2 : B) w :
  R' b1 b2 ->
  sim R' (bind (makeScssSimpleTag name kind true) (fun _ => ret b1) w)
         (bind (makeScssSimpleTag name kind true) (fun _ => ret b2) w).
Proof.
  intros H. unfold bind. rewrite makeScssSimpleTag_emits. now constructor.
Qed.

Lemma declaration_alike fuel : forall name p1 p2 kind w,
  alike p1 p2 ->
  sim (fun r1 r2 => fst r1 = fst r2 /\ option_alike (snd r1) (snd r2))
      (parseScssDeclaration_loop fuel name p1 kind w)
      (parseScssDeclaration_loop fuel name p2 kind w).
Proof.
  induction fuel as [|fuel IH]; intros name p1 p2 kind w H; [constructor|].
  simpl. apply sim_bind with (R := eq).
  { unfold isScssDeclarationAllowedChar. apply sim_load; [assumption|].
    intros c _. now constructor. }
  intros allowed ? w1 <-. apply sim_load; [assumption|]. intros c _.
  destruct (allowed || Ascii.eqb c NUL); [|apply sim_emit; now split].
  destruct (Ascii.eqb c NUL).
  - apply sim_bind with (R := eq); [apply sim_same|].
    intros next ? w2 <-. destruct next as [cp'|]; [|apply sim_emit; now split].
    apply sim_load; [apply alike_refl|]. intros c' _. apply IH, alike_refl.
  - destruct (Ascii.eqb c ",");
      [apply sim_emit; split; [reflexivity | now apply alike_advance]|].
    destruct (Ascii.eqb c "{");
      [apply sim_emit; split; [reflexivity | now apply alike_advance]|].
    apply IH. now apply alike_advance.
Qed.

Lemma sim_break st p1 p2 w :
  alike p1 p2 ->
  sim exit_alike (ret (Break st (Some p1)) w) (ret (Break st (Some p2)) w).
Proof. intros H. constructor. now split. Qed.

Lemma sim_declaration fuel p1 p2 kind w :
  alike p1 p2 ->
  sim exit_alike
      (bind (parseScssDeclaration fuel p1 kind) (fun r => ret (break_of r)) w)
      (bind (parseScssDeclaration fuel p2 kind) (fun r => ret (break_of r)) w).
Proof.
  intros H. eapply sim_bind; [now apply declaration_alike|].
  intros [s1 q1] [s2 q2] w' [Hs Hq]. constructor. now split.
Qed.

Lemma switch_alike fuel p1 p2 st w :
  alike p1 p2 ->
  back p1 p2 \/ no_lookback st p1 ->
  sim exit_alike (parseScssLine_switch fuel p1 st w)
                 (parseScssLine_switch fuel p2 st w).
Proof.
  intros H Hb.
  assert (Hskip : forall stop st',
    sim exit_alike
      (bind (skipTo fuel stop p1)
            (fun line' => bind (load line')
               (fun c => if Ascii.eqb c stop
                         then ret (Break P_STATE_NONE (Some line'))
                         else ret (Break st' (Some line')))) w)
      (bind (skipTo fuel stop p2)
            (fun line' => bind (load line')
               (fun c => if Ascii.eqb c stop
                         then ret (Break P_STATE_NONE (Some line'))
                         else ret (Break st' (Some line')))) w)).
  { intros stop st'. eapply sim_bind; [now apply skipTo_alike|].
    intros q1 q2 w' Hq. apply sim_load; [assumption|]. intros c _.
    destruct (Ascii.eqb c stop); now apply sim_break. }
  destruct st; unfold parseScssLine_switch; try apply Hskip;
    try (apply sim_load; [assumption|]; intros c Hd).
  - (* P_STATE_NONE *)
    destruct (isalnum c); [now apply sim_declaration|].
    destruct (Ascii.eqb c "."); [now apply sim_declaration|].
    destruct (Ascii.eqb c "#"); [now apply sim_declaration|].
    destruct (Ascii.eqb c "@").
    { eapply sim_bind; [apply readDirective_alike; now apply alike_advance|].
      intros r1 r2 w' [Ha Hq]. constructor. rewrite Ha. now split. }
    destruct (Ascii.eqb_spec c "*") as [->|Hc]; [|now apply sim_break].
    destruct Hb as [Hb|[Hst|[_ Hne]]]; [|discriminate|contradiction].
    unfold bind. rewrite (back_load _ _ w H Hb).
    destruct (load (previous p2) w) as [b w'|]; [|constructor].
    destruct (Ascii.eqb b "/"); now apply sim_break.
  - (* P_STATE_IN_COMMENT *)
    destruct (Ascii.eqb c "/"); [|now apply sim_break].
    destruct Hb as [Hb|[Hst|[Hst _]]]; [|discriminate..].
    unfold bind. rewrite (back_load _ _ w H Hb).
    destruct (load (previous p2) w) as [b w'|]; [|constructor].
    destruct (Ascii.eqb b "*"); now apply sim_break.
  - (* P_STATE_IN_SINGLE_STRING *)
    destruct (Ascii.eqb c SQUOTE); [|now apply sim_break].
    destruct Hb as [Hb|[Hst|[Hst _]]]; [|discriminate..].
    unfold bind. rewrite (back_load _ _ w H Hb).
    destruct (load (previous p2) w) as [b w'|]; [|constructor].
    destruct (negb (Ascii.eqb b BACKSLASH)); now apply sim_break.
  - (* P_STATE_IN_DOUBLE_STRING *)
    destruct (Ascii.eqb c DQUOTE); [|now apply sim_break].
    destruct Hb as [Hb|[Hst|[Hst _]]]; [|discriminate..].
    unfold bind. rewrite (back_load _ _ w H Hb).
    destruct (load (previous p2) w) as [b w'|]; [|constructor].
    destruct (negb (Ascii.eqb b BACKSLASH)); now apply sim_break.
  - (* P_STATE_IN_DEFINITION *)
    destruct (Ascii.eqb c "}"); [now apply sim_break|].
    destruct (Ascii.eqb c SQUOTE); [now apply sim_break|].
    destruct (Ascii.eqb c DQUOTE); now apply sim_break.
  - (* P_STATE_IN_PAGE *)
    destruct (Ascii.eqb c "}"); [now apply sim_break|].
    destruct (Ascii.eqb c SQUOTE); [now apply sim_break|].
    destruct (Ascii.eqb c DQUOTE); now apply sim_break.
  - (* P_STATE_IN_FONTFACE *)
    destruct (Ascii.eqb c "}"); [now apply sim_break|].
    destruct (Ascii.eqb c SQUOTE); [now apply sim_break|].
    destruct (Ascii.eqb c DQUOTE); now apply sim_break.
  - (* P_STATE_AT_END *)
    now constructor.
Qed.

(** The line loop depends on the buffer only through the bytes from the
    pointer on and, when the switch looks back, the byte before it. *)
Lemma loop_alike fuel : forall p1 p2 st w,
  alike p1 p2 ->
  back p1 p2 \/ no_lookback st p1 ->
  parseScssLine_loop fuel p1 st w = parseScssLine_loop fuel p2 st w.
Proof.
  induction fuel as [|fuel IH]; intros p1 p2 st w H Hb; [reflexivity|].
  cbn [parseScssLine_loop]. unfold during at 1 4.
  rewrite <- (alike_load _ _ w H).
  destruct (load p1 w) as [c w1|f w1] eqn:Hl; [|reflexivity].
  apply load_world in Hl as [-> Hd].
  destruct (Ascii.eqb c NUL); [reflexivity|].
  unfold during at 1 3.
  destruct (skipSpace_alike fuel _ _ w H) as [q1 q2 w1 [Hq Hsame]|]; [|reflexivity].
  unfold during.
  assert (Hb' : back q1 q2 \/ no_lookback st q1).
  { destruct Hsame as [[-> ->]|Hsame]; [assumption | now left]. }
  destruct (switch_alike fuel _ _ st w1 Hq Hb') as [x1 x2 w2 Hx|]; [|reflexivity].
  destruct x1 as [s1 q1'|s1], x2 as [s2 q2'|s2]; simpl in Hx;
    try contradiction; [|now subst].
  destruct Hx as [-> Hx].
  destruct q1' as [r1|], q2' as [r2|]; simpl in Hx; try contradiction;
    [|reflexivity].
  apply IH; [now apply alike_advance | left; now apply alike_back].
Qed.

Lemma first_char_append s t :
  s <> EmptyString -> first_char (s ++ t) = first_char s.
Proof. destruct s; [contradiction | reflexivity]. Qed.

Lemma declaration_start p s t kind :
  rest p = Some (s ++ t)%string ->
  declarationKind (first_char s) = Some kind ->
  deref p = Some (first_char s).
Proof.
  intros H Hk. apply rest_first in H. rewrite H. f_equal.
  apply first_char_append. intros ->. discriminate Hk.
Qed.

Lemma loop_resumes_after_comma p s t kind fuel w :
  rest p = Some (s ++ String "," t)%string ->
  declarationKind (first_char s) = Some kind ->
  all_chars accumulated s = true ->
  parseScssLine_loop (S (S (String.length s + fuel))) p P_STATE_NONE w
  = parseScssLine_loop (S (String.length s + fuel))
      (advance_by (S (S (String.length s))) p) P_STATE_NONE
      (emitted w kind (finalName kind s)).
Proof.
  intros H Hk Hs.
  rewrite (loop_declaration _ _ _ _ w (declaration_start _ _ _ _ H Hk) Hk).
  replace (S (String.length s + fuel)) with (String.length s + S fuel)%nat by lia.
  rewrite (declaration_to_comma _ _ _ kind fuel w H Hs).
  now rewrite advance_advance_by.
Qed.

Lemma loop_resumes_after_brace p s t kind fuel w :
  rest p = Some (s ++ String "{" t)%string ->
  declarationKind (first_char s) = Some kind ->
  all_chars accumulated s = true ->
  parseScssLine_loop (S (S (String.length s + fuel))) p P_STATE_NONE w
  = parseScssLine_loop (S (String.length s + fuel))
      (advance_by (S (S (String.length s))) p) P_STATE_IN_DEFINITION
      (emitted w kind (finalName kind s)).
Proof.
  intros H Hk Hs.
  rewrite (loop_declaration _ _ _ _ w (declaration_start _ _ _ _ H Hk) Hk).
  replace (S (String.length s + fuel)) with (String.length s + S fuel)%nat by lia.
  rewrite (declaration_to_brace _ _ _ kind fuel w H Hs).
  now rewrite advance_advance_by.
Qed.

Lemma append_two (s : string) (a c : ascii) (t : string) :
  (s ++ String a (String c t))%string
  = ((s ++ String a (String c EmptyString)) ++ t)%string.
Proof. induction s as [|x s IH]; simpl; [reflexivity | now rewrite IH]. Qed.

Lemma length_two (s : string) (a c : ascii) :
  String.length (s ++ String a (String c EmptyString)) = S (S (String.length s)).
Proof. rewrite length_append. simpl. lia. Qed.

(** The pointers two bytes behind the end of [s], in two lines that differ
    in the byte right behind the terminator [a] only. *)
Lemma alike_behind s a c1 c2 t :
  alike (advance_by (S (S (String.length s))) (At (s ++ String a (String c1 t)) 0))
        (advance_by (S (S (String.length s))) (At (s ++ String a (String c2 t)) 0))
  /\ deref (advance_by (S (S (String.length s))) (At (s ++ String a (String c1 t)) 0))
     = Some (first_char t).
Proof.
  assert (H : forall c,
    rest (advance_by (S (S (String.length s))) (At (s ++ String a (String c t)) 0))
    = Some t).
  { intros c. rewrite <- (length_two s a c).
    apply rest_advance_by. rewrite <- append_two. apply rest_start. }
  split.
  - apply alike_of_rest; [reflexivity | simpl; lia | now rewrite !H].
  - apply rest_first, H.
Qed.

Lemma fuel_of_same_length l1 l2 w :
  String.length l1 = String.length l2 -> fuel_of l1 w = fuel_of l2 w.
Proof. intros H. rewrite !fuel_of_cost. now rewrite H. Qed.

(** The byte right behind a terminator does not matter to the scan of a
    line that starts with a declaration, when the state in which the scan
    resumes does not look back at it. *)
Lemma line_ignores_byte_behind a st s c1 c2 t kind w :
  (forall p t' fuel w',
      rest p = Some (s ++ String a t')%string ->
      parseScssLine_loop (S (S (String.length s + fuel))) p P_STATE_NONE w'
      = parseScssLine_loop (S (String.length s + fuel))
          (advance_by (S (S (String.length s))) p) st
          (emitted w' kind (finalName kind s))) ->
  st = P_STATE_IN_DEFINITION
  \/ (st = P_STATE_NONE /\ first_char t <> "*"%char) ->
  parseScssLine (s ++ String a (String c1 t)) P_STATE_NONE w
  = parseScssLine (s ++ String a (String c2 t)) P_STATE_NONE w.
Proof.
  intros Hresume Hst. unfold parseScssLine.
  rewrite (fuel_of_same_length (s ++ String a (String c1 t))
                               (s ++ String a (String c2 t)) w)
    by (rewrite !length_append; reflexivity).
  pose proof (fuel_of_ge (s ++ String a (String c2 t)) w) as Hf.
  rewrite length_append in Hf. simpl in Hf.
  replace (fuel_of (s ++ String a (String c2 t)) w)
    with (S (S (String.length s
                + (fuel_of (s ++ String a (String c2 t)) w - 2 - String.length s))))
    by lia.
  rewrite !(Hresume _ _ _ _ (rest_start _)).
  destruct (alike_behind s a c1 c2 t) as [Hal Hd].
  apply loop_alike; [exact Hal|]. right.
  destruct Hst as [->|[-> Hne]]; [now left|]. right. split; [reflexivity|].
  rewrite Hd. intros [= Heq]. now apply Hne.
Qed.

(** Whatever pointer the declaration scanner hands back, the line loop
    goes on one byte behind it. *)
Lemma loop_follows_scanner fuel p c kind w st q w' :
  deref p = Some c -> declarationKind c = Some kind ->
  parseScssDeclaration (S fuel) p kind w = Done (st, Some q) w' ->
  parseScssLine_loop (S (S fuel)) p P_STATE_NONE w
  = parseScssLine_loop (S fuel) (advance q) st w'.
Proof.
  intros H Hk Hq. rewrite (loop_declaration _ _ _ _ w H Hk). now rewrite Hq.
Qed.

Lemma lines_cost_ge mid l more :
  (lines_length mid + String.length l + 3 <= lines_cost (mid ++ l :: more))%nat.
Proof. induction mid as [|m mid IH]; simpl in *; lia. Qed.

Lemma lines_cost_same mid l1 l2 more :
  String.length l1 = String.length l2 ->
  lines_cost (mid ++ l1 :: more) = lines_cost (mid ++ l2 :: more).
Proof. intros H. induction mid as [|m mid IH]; simpl; [now rewrite H | now rewrite IH]. Qed.

(** The byte right behind a terminator on a line that the declaration
    scanner took itself does not matter to the scan either, when the state
    in which the scan resumes does not look back at it. *)
Lemma lines_ignore_byte_behind a st s0 mid c s x1 x2 t more kind tags0 :
  terminates a st ->
  st = P_STATE_IN_DEFINITION
  \/ (st = P_STATE_NONE /\ first_char t <> "*"%char) ->
  declarationKind (first_char s0) = Some kind ->
  all_chars accumulated s0 = true ->
  forallb continuation mid = true ->
  Ascii.eqb c NUL = false ->
  all_chars accumulated s = true ->
  parseScssLine s0 P_STATE_NONE
    (World (mid ++ String c (s ++ String a (String x1 t)) :: more) tags0)
  = parseScssLine s0 P_STATE_NONE
      (World (mid ++ String c (s ++ String a (String x2 t)) :: more) tags0).
Proof.
  intros Ha Hst Hk Hs0 Hm Hc Hs. unfold parseScssLine.
  rewrite !fuel_of_cost. cbn [pending].
  rewrite (lines_cost_same mid (String c (s ++ String a (String x1 t)))
                           (String c (s ++ String a (String x2 t))) more)
    by (simpl; rewrite !length_append; reflexivity).
  pose proof (lines_cost_ge mid (String c (s ++ String a (String x2 t))) more) as Hf.
  simpl String.length in Hf. rewrite length_append in Hf. simpl String.length in Hf.
  set (F := (String.length s0 + 3
             + lines_cost (mid ++ String c (s ++ String a (String x2 t)) :: more))%nat)
    in *.
  replace F
    with (S (String.length s0 + lines_length mid
             + S (S (String.length s
                     + (F - (String.length s0 + lines_length mid
                             + String.length s + 3))))))
    by lia.
  rewrite (loop_over_lines_to a st mid s0 c s (String x1 t) more (At s0 0) kind _
             (World (mid ++ String c (s ++ String a (String x1 t)) :: more) tags0)
             Ha (rest_start _) Hk Hs0 Hm eq_refl Hc Hs).
  rewrite (loop_over_lines_to a st mid s0 c s (String x2 t) more (At s0 0) kind _
             (World (mid ++ String c (s ++ String a (String x2 t)) :: more) tags0)
             Ha (rest_start _) Hk Hs0 Hm eq_refl Hc Hs).
  cbn [tags].
  assert (Hr : forall x,
    rest (advance_by (S (S (String.length s)))
                     (At (String c (s ++ String a (String x t))) 1)) = Some t).
  { intros x. rewrite <- (length_two s a x). apply rest_advance_by.
    rewrite <- append_two. reflexivity. }
  apply loop_alike.
  - apply alike_of_rest; [reflexivity | simpl; lia | now rewrite !Hr].
  - right. destruct Hst as [->|[-> Hne]]; [now left|]. right.
    split; [reflexivity|].
    rewrite (rest_first _ _ (Hr x1)). intros [= Heq]. now apply Hne.
Qed.

(** One iteration of the line loop on a '*' in P_STATE_NONE: the byte before
    the pointer decides. *)
Lemma loop_star fuel p c w :
  deref p = Some "*"%char -> deref (previous p) = Some c ->
  parseScssLine_loop (S (S fuel)) p P_STATE_NONE w
  = parseScssLine_loop (S fuel) (advance p)
      (if Ascii.eqb c "/" then P_STATE_IN_COMMENT else P_STATE_NONE) w.
Proof.
  intros H Hb. rewrite (loop_step _ _ _ _ w H eq_refl eq_refl).
  unfold during, parseScssLine_switch, bind.
  rewrite (load_deref _ _ w H).
  change (isalnum "*") with false.
  change (Ascii.eqb "*" ".") with false. change (Ascii.eqb "*" "#") with false.
  change (Ascii.eqb "*" "@") with false. change (Ascii.eqb "*" "*") with true.
  cbv beta iota. rewrite (load_deref _ _ w Hb).
  now destruct (Ascii.eqb c "/").
Qed.

(** A '*' right behind the byte that the dispatcher skipped after a ','
    looks back at that byte. *)
Lemma loop_star_behind_comma p s c t kind fuel w :
  rest p = Some (s ++ String "," (String c (String "*" t)))%string ->
  declarationKind (first_char s) = Some kind ->
  all_chars accumulated s = true ->
  parseScssLine_loop (S (S (String.length s + S fuel))) p P_STATE_NONE w
  = parseScssLine_loop (S (String.length s + fuel))
      (advance_by (S (S (S (String.length s)))) p)
      (if Ascii.eqb c "/" then P_STATE_IN_COMMENT else P_STATE_NONE)
      (emitted w kind (finalName kind s)).
Proof.
  intros H Hk Hs.
  rewrite (loop_resumes_after_comma p s _ kind (S fuel) w H Hk Hs).
  assert (Hc : deref (advance_by (S (String.length s)) p) = Some c).
  { pose proof H as H1. rewrite <- append_snoc in H1.
    apply rest_advance_by in H1. rewrite length_append in H1.
    cbn [String.length] in H1.
    replace (String.length s + 1)%nat with (S (String.length s)) in H1 by lia.
    exact (rest_first _ _ H1). }
  rewrite append_two in H. apply rest_advance_by in H. rewrite length_two in H.
  replace (S (String.length s + S fuel)) with (S (S (String.length s + fuel)))
    by lia.
  rewrite (loop_star _ _ c).
  - now rewrite advance_advance_by.
  - exact (rest_first _ _ H).
  - now rewrite <- advance_advance_by, previous_advance.
Qed.

(** C2, as stated, fails: the byte right behind a ',' terminator is
    examined.  The lines ".a,/*" and ".a,x*" differ in that byte only, and
    the scan of the first ends in P_STATE_IN_COMMENT, that of the second in
    P_STATE_NONE: the '*' behind the skipped byte looks back at it. *)
Lemma C2_byte_behind_comma_is_looked_back :
  ~ (forall c1 c2 : ascii,
        parseScssLine (".a," ++ String c1 "*") P_STATE_NONE (start [])
        = parseScssLine (".a," ++ String c2 "*") P_STATE_NONE (start [])).
Proof.
  intros H. specialize (H "/"%char "x"%char). vm_compute in H. discriminate H.
Qed.

(** C2 (amended): whenever the declaration scanner returns on a ',' or a
    '{' -- on the line it was called on or on a line it took itself -- it
    hands back the pointer behind the terminator, and the dispatcher goes on
    one byte behind whatever pointer the scanner handed back: the scan
    resumes two bytes behind the terminator, in P_STATE_NONE or
    P_STATE_IN_DEFINITION, so the byte right behind the terminator is never
    the current byte of a dispatcher step.  This is stated for the scanner
    wherever it stands, for a clause on the pointer's line, and for a clause
    that runs over any number of whole lines.  The skipped byte has no
    influence on the rest of the scan -- two buffers that agree behind that
    byte are scanned alike, and so are two inputs that differ in that byte
    only -- after a '{', and after a ',' unless the byte that follows it is
    a '*': a '*' looks back at the skipped byte, and the scan goes on in
    P_STATE_IN_COMMENT when that byte is '/', in P_STATE_NONE otherwise.  In
    ".a,.b{" the '.' of the second clause is skipped and the clause is
    tagged from 'b' as a Selector; in ".a{}" the '}' is skipped and the line
    ends in P_STATE_IN_DEFINITION. *)
Theorem C2_dispatcher_skips_byte_behind_terminator :
  (forall fuel name p kind w,
      deref p = Some ","%char ->
      parseScssDeclaration_loop (S fuel) name p kind w
      = Done (P_STATE_NONE, Some (advance p))
             (emitted w kind (finalName kind name)))
  /\ (forall fuel name p kind w,
         deref p = Some "{"%char ->
         parseScssDeclaration_loop (S fuel) name p kind w
         = Done (P_STATE_IN_DEFINITION, Some (advance p))
                (emitted w kind (finalName kind name)))
  /\ (forall fuel p c kind w st q w',
         deref p = Some c -> declarationKind c = Some kind ->
         parseScssDeclaration (S fuel) p kind w = Done (st, Some q) w' ->
         parseScssLine_loop (S (S fuel)) p P_STATE_NONE w
         = parseScssLine_loop (S fuel) (advance q) st w')
  /\ (forall p s t kind fuel w,
         rest p = Some (s ++ String "," t)%string ->
         declarationKind (first_char s) = Some kind ->
         all_chars accumulated s = true ->
         parseScssLine_loop (S (S (String.length s + fuel))) p P_STATE_NONE w
         = parseScssLine_loop (S (String.length s + fuel))
             (advance_by (S (S (String.length s))) p) P_STATE_NONE
             (emitted w kind (finalName kind s)))
  /\ (forall p s t kind fuel w,
         rest p = Some (s ++ String "{" t)%string ->
         declarationKind (first_char s) = Some kind ->
         all_chars accumulated s = true ->
         parseScssLine_loop (S (S (String.length s + fuel))) p P_STATE_NONE w
         = parseScssLine_loop (S (String.length s + fuel))
             (advance_by (S (S (String.length s))) p) P_STATE_IN_DEFINITION
             (emitted w kind (finalName kind s)))
  /\ (forall mid s0 c s t more p kind fuel w,
         rest p = Some s0 ->
         declarationKind (first_char s0) = Some kind ->
         all_chars accumulated s0 = true ->
         forallb continuation mid = true ->
         pending w = mid ++ String c (s ++ String "," t) :: more ->
         Ascii.eqb c NUL = false ->
         all_chars accumulated s = true ->
         parseScssLine_loop
           (S (String.length s0 + lines_length mid + S (S (String.length s + fuel))))
           p P_STATE_NONE w
         = parseScssLine_loop
             (String.length s0 + lines_length mid + S (S (String.length s + fuel)))
             (advance_by (S (S (String.length s)))
                         (At (String c (s ++ String "," t)) 1))
             P_STATE_NONE
             (emitted (World more (tags w)) kind
                      (finalName kind (s0 ++ joined mid ++ String c s))))
  /\ (forall mid s0 c s t more p kind fuel w,
         rest p = Some s0 ->
         declarationKind (first_char s0) = Some kind ->
         all_chars accumulated s0 = true ->
         forallb continuation mid = true ->
         pending w = mid ++ String c (s ++ String "{" t) :: more ->
         Ascii.eqb c NUL = false ->
         all_chars accumulated s = true ->
         parseScssLine_loop
           (S (String.length s0 + lines_length mid + S (S (String.length s + fuel))))
           p P_STATE_NONE w
         = parseScssLine_loop
             (String.length s0 + lines_length mid + S (S (String.length s + fuel)))
             (advance_by (S (S (String.length s)))
                         (At (String c (s ++ String "{" t)) 1))
             P_STATE_IN_DEFINITION
             (emitted (World more (tags w)) kind
                      (finalName kind (s0 ++ joined mid ++ String c s))))
  /\ (forall fuel b1 b2 o st w,
         0 <= o ->
         rest (At b1 (o + 1)) = rest (At b2 (o + 1)) ->
         st = P_STATE_IN_DEFINITION
         \/ (st = P_STATE_NONE /\ deref (At b1 (o + 1)) <> Some "*"%char) ->
         parseScssLine_loop fuel (At b1 (o + 1)) st w
         = parseScssLine_loop fuel (At b2 (o + 1)) st w)
  /\ (forall s c1 c2 t kind w,
         declarationKind (first_char s) = Some kind ->
         all_chars accumulated s = true ->
         parseScssLine (s ++ String "{" (String c1 t)) P_STATE_NONE w
         = parseScssLine (s ++ String "{" (String c2 t)) P_STATE_NONE w)
  /\ (forall s c1 c2 t kind w,
         declarationKind (first_char s) = Some kind ->
         all_chars accumulated s = true ->
         first_char t <> "*"%char ->
         parseScssLine (s ++ String "," (String c1 t)) P_STATE_NONE w
         = parseScssLine (s ++ String "," (String c2 t)) P_STATE_NONE w)
  /\ (forall s0 mid c s x1 x2 t more kind tags0,
         declarationKind (first_char s0) = Some kind ->
         all_chars accumulated s0 = true ->
         forallb continuation mid = true ->
         Ascii.eqb c NUL = false ->
         all_chars accumulated s = true ->
         parseScssLine s0 P_STATE_NONE
           (World (mid ++ String c (s ++ String "{" (String x1 t)) :: more) tags0)
         = parseScssLine s0 P_STATE_NONE
             (World (mid ++ String c (s ++ String "{" (String x2 t)) :: more) tags0))
  /\ (forall s0 mid c s x1 x2 t more kind tags0,
         declarationKind (first_char s0) = Some kind ->
         all_chars accumulated s0 = true ->
         forallb continuation mid = true ->
         Ascii.eqb c NUL = false ->
         all_chars accumulated s = true ->
         first_char t <> "*"%char ->
         parseScssLine s0 P_STATE_NONE
           (World (mid ++ String c (s ++ String "," (String x1 t)) :: more) tags0)
         = parseScssLine s0 P_STATE_NONE
             (World (mid ++ String c (s ++ String "," (String x2 t)) :: more) tags0))
  /\ (forall p s c t kind fuel w,
         rest p = Some (s ++ String "," (String c (String "*" t)))%string ->
         declarationKind (first_char s) = Some kind ->
         all_chars accumulated s = true ->
         parseScssLine_loop (S (S (String.length s + S fuel))) p P_STATE_NONE w
         = parseScssLine_loop (S (String.length s + fuel))
             (advance_by (S (S (S (String.length s)))) p)
             (if Ascii.eqb c "/" then P_STATE_IN_COMMENT else P_STATE_NONE)
             (emitted w kind (finalName kind s)))
  /\ (final_tags (parseScssLine ".a,.b{" P_STATE_NONE (start []))
        = [Tag K_CLASS ".a"; Tag K_SELECTOR "b"]
      /\ parseScssLine ".a{}" P_STATE_NONE (start [])
        = Returned P_STATE_IN_DEFINITION (World [] [Tag K_CLASS ".a"])
      /\ parseScssLine ".a,/*" P_STATE_NONE (start [])
        = Returned P_STATE_IN_COMMENT (World [] [Tag K_CLASS ".a"])
      /\ parseScssLine ".a,x*" P_STATE_NONE (start [])
        = Returned P_STATE_NONE (World [] [Tag K_CLASS ".a"])
      /\ findScssTags ["a"; "b,.c { }"]
        = Returned P_STATE_NONE
            (World [] [Tag K_SELECTOR "ab"; Tag K_SELECTOR "c "])).
Proof.
  split; [exact comma_terminates|]. split; [exact brace_terminates|].
  split; [exact loop_follows_scanner|].
  split; [exact loop_resumes_after_comma|].
  split; [exact loop_resumes_after_brace|].
  split; [intros; now apply loop_over_lines_to; try apply comma_terminates|].
  split; [intros; now apply loop_over_lines_to; try apply brace_terminates|].
  split; [|split; [|split; [|split; [|split;
    [|split; [exact loop_star_behind_comma | repeat split]]]]]].
  - intros fuel b1 b2 o st w Ho Hr Hst.
    apply loop_alike; [|right; exact Hst].
    apply alike_of_rest; simpl; [reflexivity | lia | exact Hr].
  - intros s c1 c2 t kind w Hk Hs.
    apply (line_ignores_byte_behind "{" P_STATE_IN_DEFINITION s c1 c2 t kind);
      [|now left].
    intros p t' fuel w' H. now apply (loop_resumes_after_brace p s t').
  - intros s c1 c2 t kind w Hk Hs Hne.
    apply (line_ignores_byte_behind "," P_STATE_NONE s c1 c2 t kind);
      [|right; now split].
    intros p t' fuel w' H. now apply (loop_resumes_after_comma p s t').
  - intros s0 mid c s x1 x2 t more kind tags0 Hk Hs0 Hm Hc Hs.
    apply (lines_ignore_byte_behind "{" P_STATE_IN_DEFINITION) with (kind := kind);
      try assumption; [exact brace_terminates | now left].
  - intros s0 mid c s x1 x2 t more kind tags0 Hk Hs0 Hm Hc Hs Hne.
    apply (lines_ignore_byte_behind "," P_STATE_NONE) with (kind := kind);
      try assumption; [exact comma_terminates | right; now split].
Qed.

(** The line ".a,.b { }" from its start, and the lines ".a,.b { }" and
    ".a,#b { }" from the byte behind the skipped one; the clause that runs
    over the lines "a", " > b", "c, d {", and the same input with the blank
    behind the ',' replaced by a '.'. *)
Lemma C2_dispatcher_skips_byte_behind_terminator_witness :
  parseScssLine_loop 12 (At ".a,.b { }" 0) P_STATE_NONE (start [])
    = parseScssLine_loop 11 (At ".a,.b { }" 4) P_STATE_NONE
                         (World [] [Tag K_CLASS ".a"])
  /\ parseScssLine_loop 12 (At ".a{}" 0) P_STATE_NONE (start [])
    = parseScssLine_loop 11 (At ".a{}" 4) P_STATE_IN_DEFINITION
                         (World [] [Tag K_CLASS ".a"])
  /\ parseScssLine_loop 11 (At ".a,.b { }" 4) P_STATE_NONE (start [])
    = parseScssLine_loop 11 (At ".a,#b { }" 4) P_STATE_NONE (start [])
  /\ parseScssLine ".a{} p { }" P_STATE_NONE (start [])
    = parseScssLine ".a{x p { }" P_STATE_NONE (start [])
  /\ parseScssLine ".a,.b { }" P_STATE_NONE (start [])
    = parseScssLine ".a,#b { }" P_STATE_NONE (start [])
  /\ parseScssDeclaration_loop 1 "ab" (At "b,.c { }" 1) K_SELECTOR (start [])
    = Done (P_STATE_NONE, Some (At "b,.c { }" 2)) (World [] [Tag K_SELECTOR "ab"])
  /\ parseScssLine_loop 17 (At "a" 0) P_STATE_NONE (World [" > b"; "c, d {"; "e"] [])
    = parseScssLine_loop 16 (At "c, d {" 3) P_STATE_NONE
                         (World ["e"] [Tag K_SELECTOR "a > bc"])
  /\ parseScssLine "a" P_STATE_NONE (World [" > b"; "c, d {"; "e"] [])
    = parseScssLine "a" P_STATE_NONE (World [" > b"; "c,.d {"; "e"] [])
  /\ parseScssLine_loop 7 (At ".a,/* x" 0) P_STATE_NONE (start [])
    = parseScssLine_loop 5 (At ".a,/* x" 5) P_STATE_IN_COMMENT
                         (World [] [Tag K_CLASS ".a"]).
Proof.
  destruct C2_dispatcher_skips_byte_behind_terminator
    as (Hsc & _ & _ & Hc & Hb & Hmc & _ & Hn & Hlb & Hlc & _ & Hmlc & Hstar & _).
  split; [|split; [|split; [|split; [|split; [|split; [|split; [|split]]]]]]].
  - exact (Hc (At ".a,.b { }" 0) ".a" ".b { }" K_CLASS 8%nat (start [])
              eq_refl eq_refl eq_refl).
  - exact (Hb (At ".a{}" 0) ".a" "}" K_CLASS 8%nat (start [])
              eq_refl eq_refl eq_refl).
  - refine (Hn 11%nat ".a,.b { }" ".a,#b { }" 3 P_STATE_NONE (start [])
               _ eq_refl (or_intror (conj eq_refl _))); [lia | discriminate].
  - exact (Hlb ".a" "}"%char "x"%char " p { }" K_CLASS (start []) eq_refl eq_refl).
  - refine (Hlc ".a" "."%char "#"%char "b { }" K_CLASS (start []) eq_refl eq_refl _).
    discriminate.
  - exact (Hsc 0%nat "ab" (At "b,.c { }" 1) K_SELECTOR (start []) eq_refl).
  - exact (Hmc [" > b"] "a" "c"%char EmptyString " d {" ["e"] (At "a" 0) K_SELECTOR
               9%nat (World [" > b"; "c, d {"; "e"] [])
               eq_refl eq_refl eq_refl eq_refl eq_refl eq_refl eq_refl).
  - refine (Hmlc "a" [" > b"] "c"%char EmptyString " "%char "."%char "d {" ["e"]
                 K_SELECTOR [] eq_refl eq_refl eq_refl eq_refl eq_refl _).
    discriminate.
  - exact (Hstar (At ".a,/* x" 0) ".a" "/"%char " x" K_CLASS 2%nat (start [])
                 eq_refl eq_refl eq_refl).
Defined.

(** ** The fuel of parseScssLine and findScssTags is enough *)

Lemma readDirective_fuelled s : forall p aux fuel w,
  rest p = Some s -> (String.length s + 2 <= fuel)%nat ->
  (exists aux' n s', readDirective fuel aux p w = Done (aux', advance_by n p) w
                     /\ rest (advance_by n p) = Some s'
                     /\ (String.length s' <= String.length s)%nat)
  \/ (exists o, readDirective fuel aux p w = Failed (ReadOutOfBounds o) w).
Proof.
  induction s as [|a s IH]; intros p aux fuel w H Hf;
    (destruct fuel as [|fuel]; [simpl in Hf; lia|]); simpl; unfold bind;
    rewrite (load_first _ _ w H); simpl.
  - right. destruct fuel as [|fuel]; [simpl in Hf; lia|]. simpl. unfold bind.
    rewrite (load_past _ w H). now eexists.
  - destruct (isspace a); simpl.
    + left. exists aux, 0%nat, (String a s). rewrite advance_by_0. auto.
    + apply rest_cons in H as [_ H].
      destruct (IH _ (vStringPut aux a) fuel w H) as [(aux' & n & s' & Hr & Hs & Hl)|[o Hr]];
        [simpl in Hf; lia| |].
      * left. exists aux', (S n), s'. rewrite <- advance_by_S.
        repeat split; [assumption..|simpl; lia].
      * right. now exists o.
Qed.

Lemma skipTo_fuelled stop s : forall p fuel w,
  rest p = Some s -> (String.length s < fuel)%nat ->
  exists n s', skipTo fuel stop p w = Done (advance_by n p) w
               /\ rest (advance_by n p) = Some s'
               /\ (String.length s' <= String.length s)%nat.
Proof.
  induction s as [|a s IH]; intros p fuel w H Hf;
    (destruct fuel as [|fuel]; [simpl in Hf; lia|]);
    cbn [skipTo]; unfold bind; rewrite (load_first _ _ w H); cbn [first_char].
  - exists 0%nat, EmptyString. rewrite advance_by_0.
    destruct (negb (Ascii.eqb NUL stop)); auto.
  - destruct (negb (Ascii.eqb a stop));
      [|exists 0%nat, (String a s); rewrite advance_by_0; auto].
    destruct (Ascii.eqb a NUL);
      [exists 0%nat, (String a s); rewrite advance_by_0; auto|].
    apply rest_cons in H as [_ H].
    destruct (IH _ fuel w H) as (n & s' & Hr & Hs & Hl); [simpl in Hf; lia|].
    exists (S n), s'. rewrite <- advance_by_S.
    repeat split; [assumption..|simpl; lia].
Qed.

Lemma within_weaken s1 w1 s w q w' :
  (fuel_of s1 w1 <= fuel_of s w)%nat -> within s1 w1 q w' -> within s w q w'.
Proof.
  intros Hle. destruct q as [q|]; [|trivial].
  intros (s' & Hr & Hl). exists s'. split; [assumption | lia].
Qed.

Lemma declaration_fuelled fuel : forall name p kind w s,
  rest p = Some s -> (fuel_of s w <= S fuel)%nat ->
  (exists st q w', parseScssDeclaration_loop fuel name p kind w = Done (st, q) w'
                   /\ within s w q w')
  \/ (exists o w', parseScssDeclaration_loop fuel name p kind w
                   = Failed (ReadOutOfBounds o) w').
Proof.
  induction fuel as [|fuel IH]; intros name p kind w s H Hf;
    [rewrite fuel_of_cost in Hf; lia|].
  rewrite (declaration_step _ _ _ _ _ w (rest_first _ _ H)).
  destruct (Ascii.eqb (first_char s) NUL) eqn:Hnul.
  - destruct (pending w) as [|l more] eqn:Hp.
    + left. now exists P_STATE_AT_END, None, (emitted w kind (finalName kind name)).
    + unfold bind. rewrite (load_first _ _ _ (rest_start l)).
      rewrite fuel_of_cost, Hp in Hf. simpl in Hf.
      destruct l as [|a l].
      * right. destruct fuel as [|fuel]; [lia|].
        rewrite declaration_fault; [now eexists; eexists|].
        now apply (rest_nil (At EmptyString 0)).
      * destruct (rest_cons (At (String a l) 0) a l eq_refl) as [_ Hr].
        destruct (IH (vStringPut name (first_char (String a l)))
                     _ kind (World more (tags w)) l Hr)
          as [(st & q & w' & Hd & Hw)|(o & w' & Hd)].
        { rewrite fuel_of_cost. simpl in *. lia. }
        -- left. exists st, q, w'. split; [assumption|].
           apply (within_weaken l (World more (tags w))); [|assumption].
           rewrite !fuel_of_cost, Hp. simpl. lia.
        -- right. now exists o, w'.
  - destruct s as [|c t]; [discriminate Hnul|]. simpl first_char in *.
    assert (Ht : (fuel_of t w < fuel_of (String c t) w)%nat)
      by (rewrite !fuel_of_cost; simpl; lia).
    destruct (negb (allowedChar c)).
    { left. exists P_STATE_NONE, (Some p), (emitted w kind (finalName kind name)).
      split; [reflexivity|]. exists (String c t). split; [assumption|].
      rewrite !fuel_of_cost. simpl. lia. }
    apply rest_cons in H as [_ H].
    destruct (Ascii.eqb c ",").
    { left. eexists _, _, _. split; [reflexivity|].
      exists t. split; [assumption|]. rewrite !fuel_of_cost in *. simpl in *. lia. }
    destruct (Ascii.eqb c "{").
    { left. eexists _, _, _. split; [reflexivity|].
      exists t. split; [assumption|]. rewrite !fuel_of_cost in *. simpl in *. lia. }
    destruct (IH (vStringPut name c) _ kind w t H) as [(st & q & w' & Hd & Hw)|(o & w' & Hd)];
      [lia| |].
    + left. exists st, q, w'. split; [assumption|].
      apply (within_weaken t w); [lia | assumption].
    + right. now exists o, w'.
Qed.

Lemma within_here s w p :
  rest p = Some s -> within s w (Some p) w.
Proof. intros H. exists s. now split. Qed.

Lemma switch_fuelled fuel p st w s :
  rest p = Some s -> (fuel_of s w <= S fuel)%nat ->
  inside s w (parseScssLine_switch fuel p st w).
Proof.
  intros H Hf.
  assert (Hstay : forall st', inside s w (ret (Break st' (Some p)) w))
    by (intros st'; now apply within_here).
  assert (Hback : forall (k : ascii -> bool) st1 st2,
    inside s w (bind (load (previous p))
                     (fun b => if k b then ret (Break st1 (Some p))
                               else ret (Break st2 (Some p))) w)).
  { intros k st1 st2. unfold bind, load.
    destruct (deref (previous p)) as [b|]; [|exact I].
    unfold ret. destruct (k b); now apply within_here. }
  assert (Hdecl : forall kind,
    inside s w (bind (parseScssDeclaration fuel p kind)
                     (fun r => ret (break_of r)) w)).
  { intros kind. unfold bind, parseScssDeclaration.
    now destruct (declaration_fuelled fuel EmptyString p kind w s H Hf)
      as [(st' & q & w' & -> & Hw)|(o & w' & ->)]. }
  assert (Hskip : forall stop st',
    inside s w
      (bind (skipTo fuel stop p)
            (fun line' => bind (load line')
               (fun c => if Ascii.eqb c stop
                         then ret (Break P_STATE_NONE (Some line'))
                         else ret (Break st' (Some line')))) w)).
  { intros stop st'. unfold bind.
    destruct (skipTo_fuelled stop s p fuel w H) as (n & s' & -> & Hr & Hl);
      [rewrite fuel_of_cost in Hf; lia|].
    rewrite (load_first _ _ w Hr).
    assert (Hw : within s w (Some (advance_by n p)) w).
    { exists s'. split; [assumption|]. rewrite !fuel_of_cost. lia. }
    now destruct (Ascii.eqb (first_char s') stop). }
  destruct st; unfold parseScssLine_switch; try apply Hskip;
    try (unfold bind at 1; rewrite (load_first _ _ w H)).
  - (* P_STATE_NONE *)
    destruct (isalnum (first_char s)); [apply Hdecl|].
    destruct (Ascii.eqb (first_char s) "."); [apply Hdecl|].
    destruct (Ascii.eqb (first_char s) "#"); [apply Hdecl|].
    destruct (Ascii.eqb (first_char s) "@") eqn:Hat.
    { destruct s as [|c t]; [discriminate Hat|].
      apply rest_cons in H as [_ H]. unfold bind.
      destruct (readDirective_fuelled t _ EmptyString fuel w H)
        as [(aux' & n & s' & -> & Hr & Hl)|(o & ->)];
        [rewrite fuel_of_cost in Hf; simpl in Hf; lia| |exact I].
      exists s'. split; [assumption|]. rewrite !fuel_of_cost. simpl. lia. }
    destruct (Ascii.eqb (first_char s) "*"); [|apply Hstay].
    exact (Hback (fun b => Ascii.eqb b "/") _ _).
  - (* P_STATE_IN_COMMENT *)
    destruct (Ascii.eqb (first_char s) "/"); [|apply Hstay].
    exact (Hback (fun b => Ascii.eqb b "*") _ _).
  - (* P_STATE_IN_SINGLE_STRING *)
    destruct (Ascii.eqb (first_char s) SQUOTE); [|apply Hstay].
    exact (Hback (fun b => negb (Ascii.eqb b BACKSLASH)) _ _).
  - (* P_STATE_IN_DOUBLE_STRING *)
    destruct (Ascii.eqb (first_char s) DQUOTE); [|apply Hstay].
    exact (Hback (fun b => negb (Ascii.eqb b BACKSLASH)) _ _).
  - destruct (Ascii.eqb (first_char s) "}"); [apply Hstay|].
    destruct (Ascii.eqb (first_char s) SQUOTE); [apply Hstay|].
    destruct (Ascii.eqb (first_char s) DQUOTE); apply Hstay.
  - destruct (Ascii.eqb (first_char s) "}"); [apply Hstay|].
    destruct (Ascii.eqb (first_char s) SQUOTE); [apply Hstay|].
    destruct (Ascii.eqb (first_char s) DQUOTE); apply Hstay.
  - destruct (Ascii.eqb (first_char s) "}"); [apply Hstay|].
    destruct (Ascii.eqb (first_char s) SQUOTE); [apply Hstay|].
    destruct (Ascii.eqb (first_char s) DQUOTE); apply Hstay.
  - exact I.
Qed.

Lemma not_ranOut_returned st w : ~ ranOut (Returned st w).
Proof. intros (st0 & w0 & H). discriminate H. Qed.

Lemma not_ranOut_bounds o st w : ~ ranOut (Aborted (ReadOutOfBounds o) st w).
Proof. intros (st0 & w0 & H). discriminate H. Qed.

Lemma loop_fuelled fuel : forall p st w,
  (exists s, rest p = Some s /\ (fuel_of s w <= fuel)%nat)
  \/ (deref p = None /\ (1 <= fuel)%nat) ->
  ~ ranOut (parseScssLine_loop fuel p st w).
Proof.
  induction fuel as [|fuel IH]; intros p st w Hp.
  { destruct Hp as [(s & _ & Hf)|[_ Hf]]; [rewrite fuel_of_cost in Hf|]; lia. }
  cbn [parseScssLine_loop]. unfold during at 1.
  destruct Hp as [(s & H & Hf)|[Hd _]];
    [|unfold load; rewrite Hd; apply not_ranOut_bounds].
  rewrite (load_first _ _ w H).
  destruct (Ascii.eqb (first_char s) NUL); [apply not_ranOut_returned|].
  unfold during at 1.
  destruct (skipSpace_total s p fuel w H) as (n & -> & Hr & Hl);
    [rewrite fuel_of_cost in Hf; lia|].
  unfold during.
  pose proof (switch_fuelled fuel (advance_by n p) st w (skip_blanks s) Hr) as Hsw.
  assert (Hle : (fuel_of (skip_blanks s) w <= fuel_of s w)%nat)
    by (rewrite !fuel_of_cost; lia).
  specialize (Hsw ltac:(lia)).
  destruct (parseScssLine_switch fuel (advance_by n p) st w) as [[st' [q|]|st'] w'|[o|] w'];
    simpl in Hsw; try contradiction;
    try apply not_ranOut_returned; try apply not_ranOut_bounds.
  destruct Hsw as (s' & Hq & Hs').
  apply IH. destruct s' as [|a t].
  - right. apply rest_nil in Hq as [_ Hq]. split; [assumption|].
    rewrite fuel_of_cost in Hf. lia.
  - left. exists t. apply rest_cons in Hq as [_ Hq]. split; [assumption|].
    rewrite !fuel_of_cost in *. simpl in *. lia.
Qed.

(** The fuel parseScssLine takes is enough for every line, state and world:
    a scan of a line never stops for lack of fuel. *)
Lemma parseScssLine_fuelled line st w : ~ ranOut (parseScssLine line st w).
Proof.
  apply loop_fuelled. left. exists line. split; [apply rest_start | apply le_n].
Qed.

Lemma shrinks_bind {A B} (m : M A) (k : A -> M B) :
  shrinks m -> (forall a, shrinks (k a)) -> shrinks (bind m k).
Proof.
  intros Hm Hk w. unfold bind. specialize (Hm w).
  destruct (m w) as [a w'|f w']; simpl in *; [|assumption].
  specialize (Hk a w'). lia.
Qed.

Lemma shrinks_ret {A} (a : A) : shrinks (ret a).
Proof. intros w. apply le_n. Qed.

Lemma shrinks_raise {A} f : shrinks (@raise A f).
Proof. intros w. apply le_n. Qed.

Lemma shrinks_load p : shrinks (load p).
Proof. intros w. unfold load. destruct (deref p); apply le_n. Qed.

Lemma shrinks_fileReadLine : shrinks fileReadLine.
Proof.
  intros w. unfold fileReadLine.
  destruct (pending w) eqn:Hp; simpl; rewrite ?Hp; simpl; lia.
Qed.

Lemma shrinks_emit {A} name kind delete (a : A) :
  shrinks (bind (makeScssSimpleTag name kind delete) (fun _ => ret a)).
Proof. intros w. apply le_n. Qed.

Lemma skipSpace_shrinks fuel : forall p, shrinks (skipSpace fuel p).
Proof.
  induction fuel as [|fuel IH]; intros p; [apply shrinks_raise|].
  simpl. apply shrinks_bind; [apply shrinks_load|].
  intros c. destruct (isspace c); [apply IH | apply shrinks_ret].
Qed.

Lemma readDirective_shrinks fuel : forall aux p, shrinks (readDirective fuel aux p).
Proof.
  induction fuel as [|fuel IH]; intros aux p; [apply shrinks_raise|].
  simpl. apply shrinks_bind; [apply shrinks_load|].
  intros c. destruct (negb (isspace c)); [apply IH | apply shrinks_ret].
Qed.

Lemma skipTo_shrinks fuel stop : forall p, shrinks (skipTo fuel stop p).
Proof.
  induction fuel as [|fuel IH]; intros p; [apply shrinks_raise|].
  simpl. apply shrinks_bind; [apply shrinks_load|].
  intros c. destruct (negb (Ascii.eqb c stop)); [|apply shrinks_ret].
  destruct (Ascii.eqb c NUL); [apply shrinks_ret | apply IH].
Qed.

Lemma declaration_shrinks fuel : forall name p kind,
  shrinks (parseScssDeclaration_loop fuel name p kind).
Proof.
  induction fuel as [|fuel IH]; intros name p kind; [apply shrinks_raise|].
  simpl. apply shrinks_bind;
    [apply shrinks_bind; [apply shrinks_load | intros; apply shrinks_ret]|].
  intros allowed. apply shrinks_bind; [apply shrinks_load|]. intros c.
  destruct (allowed || Ascii.eqb c NUL); [|apply shrinks_emit].
  destruct (Ascii.eqb c NUL).
  - apply shrinks_bind; [apply shrinks_fileReadLine|].
    intros [cp'|]; [|apply shrinks_emit].
    apply shrinks_bind; [apply shrinks_load | intros; apply IH].
  - destruct (Ascii.eqb c ","); [apply shrinks_emit|].
    destruct (Ascii.eqb c "{"); [apply shrinks_emit | apply IH].
Qed.

Lemma switch_shrinks fuel p st : shrinks (parseScssLine_switch fuel p st).
Proof.
  destruct st; unfold parseScssLine_switch;
    repeat first
      [ apply shrinks_ret
      | apply shrinks_load
      | apply skipTo_shrinks
      | apply readDirective_shrinks
      | apply declaration_shrinks
      | apply shrinks_bind; [|intros ?]
      | match goal with
        | |- shrinks (if ?b then _ else _) => destruct b
        end ].
Qed.

Lemma loop_shrinks fuel : forall p st w,
  (List.length (pending (final_world (parseScssLine_loop fuel p st w)))
   <= List.length (pending w))%nat.
Proof.
  induction fuel as [|fuel IH]; intros p st w; [apply le_n|].
  cbn [parseScssLine_loop]. unfold during.
  pose proof (shrinks_load p w) as H1.
  destruct (load p w) as [c w1|f w1]; simpl in H1; [|exact H1].
  destruct (Ascii.eqb c NUL); [exact H1|].
  pose proof (skipSpace_shrinks fuel p w1) as H2.
  destruct (skipSpace fuel p w1) as [p1 w2|f w2]; simpl in H2; [|simpl; lia].
  pose proof (switch_shrinks fuel p1 st w2) as H3.
  destruct (parseScssLine_switch fuel p1 st w2) as [[st' [q|]|st'] w3|f w3];
    simpl in H3; simpl; try lia.
  specialize (IH (advance q) st' w3). lia.
Qed.

Lemma find_fuelled fuel : forall st w,
  (List.length (pending w) < fuel)%nat ->
  ~ ranOut (findScssTags_loop fuel st w).
Proof.
  induction fuel as [|fuel IH]; intros st w Hf; [lia|].
  cbn [findScssTags_loop]. unfold during, fileReadLine.
  destruct (pending w) as [|l more] eqn:Hp; [apply not_ranOut_returned|].
  pose proof (parseScssLine_fuelled (buf (At l 0)) st (World more (tags w))) as Hl.
  pose proof (loop_shrinks (fuel_of (buf (At l 0)) (World more (tags w)))
                           (At (buf (At l 0)) 0) st (World more (tags w))) as Hs.
  unfold parseScssLine in *.
  destruct (parseScssLine_loop (fuel_of (buf (At l 0)) (World more (tags w)))
              (At (buf (At l 0)) 0) st (World more (tags w))) as [st' w1|f st' w1];
    [|exact Hl].
  destruct (state_eq_dec st' P_STATE_AT_END); [apply not_ranOut_returned|].
  apply IH. simpl in *. lia.
Qed.

(** X12: the model is adequate: with the fuel that parseScssLine and
    findScssTags take, no scan stops for lack of fuel, so every [Aborted]
    result is a read outside a line buffer. *)
Theorem scans_never_run_out_of_fuel :
  (forall line st w, ~ ranOut (parseScssLine line st w))
  /\ (forall input, ~ ranOut (findScssTags input)).
Proof.
  split; [exact parseScssLine_fuelled|].
  intros input. apply find_fuelled. simpl. lia.
Qed.

(** * Further properties of scss.c *)

Lemma isspace_not_nul c : isspace c = true -> Ascii.eqb c NUL = false.
Proof.
  destruct (Ascii.eqb_spec c NUL) as [->|]; [discriminate | reflexivity].
Qed.

(** One iteration of the line loop, given where the whitespace loop
    stops. *)
Lemma loop_iteration fuel p s p1 st w :
  rest p = Some s -> Ascii.eqb (first_char s) NUL = false ->
  skipSpace fuel p w = Done p1 w ->
  parseScssLine_loop (S fuel) p st w
  = during st (parseScssLine_switch fuel p1 st)
      (fun x => match x with
                | Return st' => Returned st'
                | Break st' None => Returned st'
                | Break st' (Some q) => parseScssLine_loop fuel (advance q) st'
                end) w.
Proof.
  intros H Hn Hskip. cbn [parseScssLine_loop]. unfold during at 1.
  rewrite (load_first _ _ w H), Hn. unfold during at 1. now rewrite Hskip.
Qed.

(** ** Whitespace before a byte *)

(** X9: whitespace in front of a byte of the line is not significant, in
    any state: the scan from the first of the blanks is the scan from the
    byte behind them (which is not the NUL). *)
Theorem loop_skips_blanks ws t p fuel st w :
  rest p = Some (ws ++ t)%string ->
  all_chars isspace ws = true ->
  isspace (first_char t) = false ->
  Ascii.eqb (first_char t) NUL = false ->
  (String.length ws < fuel)%nat ->
  parseScssLine_loop (S fuel) p st w
  = parseScssLine_loop (S fuel) (advance_by (String.length ws) p) st w.
Proof.
  intros H Hws Ht Hn Hf.
  pose proof (rest_advance_by _ _ _ H) as H1.
  destruct fuel as [|fuel]; [lia|].
  rewrite (loop_iteration _ _ _ _ st w H1 Hn (skipSpace_stay t _ fuel w H1 Ht)).
  apply (loop_iteration _ _ _ _ st w H).
  - destruct ws as [|a ws]; [exact Hn|]. simpl in *.
    apply andb_true_iff in Hws as [Ha _]. now apply isspace_not_nul.
  - now apply (skipSpace_run ws t).
Qed.

(** The line "a {  color : red }" scanned in the rule body from the two
    blanks behind the '{'. *)
Lemma loop_skips_blanks_witness :
  parseScssLine_loop 20 (At "a {  color : red }" 3) P_STATE_IN_DEFINITION (start [])
  = parseScssLine_loop 20 (At "a {  color : red }" 5) P_STATE_IN_DEFINITION (start []).
Proof.
  apply (loop_skips_blanks "  " "color : red }" (At "a {  color : red }" 3) 19);
    [reflexivity.. | simpl; lia].
Defined.

(** ** \@import and \@namespace *)

Lemma switch_import st stop fuel p w :
  (st = P_STATE_IN_MEDIA /\ stop = "{"%char) \/ (importing st /\ stop = ";"%char) ->
  parseScssLine_switch fuel p st w
  = bind (skipTo fuel stop p)
         (fun line' => bind (load line')
            (fun c => if Ascii.eqb c stop
                      then ret (Break P_STATE_NONE (Some line'))
                      else ret (Break st (Some line')))) w.
Proof. intros [[-> ->]|[[->| ->] ->]]; reflexivity. Qed.

(** The skipping case on a line that has the byte it looks for. *)
Lemma loop_skip_found st stop p s t fuel w :
  (st = P_STATE_IN_MEDIA /\ stop = "{"%char) \/ (importing st /\ stop = ";"%char) ->
  rest p = Some (s ++ String stop t)%string ->
  all_chars (passes stop) s = true ->
  parseScssLine_loop (S (S (S (String.length s + String.length t + fuel)))) p st w
  = parseScssLine_loop (S (S (String.length s + String.length t + fuel)))
                       (advance_by (S (String.length s)) p) P_STATE_NONE w.
Proof.
  intros Hst H Hs.
  assert (Hsp : isspace stop = false) by (destruct Hst as [[_ ->]|[_ ->]]; reflexivity).
  assert (Hsn : Ascii.eqb stop NUL = false)
    by (destruct Hst as [[_ ->]|[_ ->]]; reflexivity).
  cbn [parseScssLine_loop]. unfold during at 1.
  rewrite (load_first _ _ w H).
  assert (Hn : Ascii.eqb (first_char (s ++ String stop t)) NUL = false).
  { destruct s as [|a s]; [exact Hsn|]. simpl in *.
    apply andb_true_iff in Hs as [Ha _]. now apply passes_not_nul in Ha. }
  rewrite Hn. unfold during at 1.
  destruct (skipSpace_total _ p (S (S (String.length s + String.length t + fuel))) w H)
    as (n & Hskip & Hrest & Hlen).
  { rewrite length_append. simpl. lia. }
  rewrite Hskip.
  destruct (skip_blanks_append stop s t Hsp) as (s1 & Hs1 & Hall & Hle).
  rewrite Hs1 in Hrest, Hlen. rewrite !length_append in Hlen. simpl in Hlen.
  unfold during at 1.
  rewrite (switch_import st stop _ _ w Hst). unfold bind.
  rewrite (skipTo_run stop s1 (String stop t) _ _ w Hrest (Hall _ Hs))
    by (auto; lia).
  apply rest_advance_by in Hrest. rewrite (load_first _ _ w Hrest).
  simpl first_char. rewrite Ascii.eqb_refl. unfold ret.
  rewrite advance_by_add, advance_advance_by.
  now replace (S (n + String.length s1)) with (S (String.length s)) by lia.
Qed.

(** The skipping case on a line that does not have the byte it looks for. *)
Lemma loop_skip_line_end st stop fuel p s w :
  (st = P_STATE_IN_MEDIA /\ stop = "{"%char) \/ (importing st /\ stop = ";"%char) ->
  rest p = Some s ->
  all_chars (passes stop) s = true ->
  (String.length s + 3 <= fuel)%nat ->
  parseScssLine_loop fuel p st w
  = match s with
    | EmptyString => Returned st w
    | String _ _ =>
        Aborted (ReadOutOfBounds (off p + Z.of_nat (String.length s) + 1)) st w
    end.
Proof.
  intros Hst H Hs Hf.
  assert (Hsn : Ascii.eqb NUL stop = false)
    by (destruct Hst as [[_ ->]|[_ ->]]; reflexivity).
  destruct fuel as [|[|fuel]]; [lia|lia|].
  cbn [parseScssLine_loop]. unfold during at 1. rewrite (load_first _ _ w H).
  destruct s as [|a s]; [reflexivity|].
  assert (Hn : Ascii.eqb (first_char (String a s)) NUL = false).
  { simpl in *. apply andb_true_iff in Hs as [Ha _]. now apply passes_not_nul in Ha. }
  rewrite Hn. unfold during at 1.
  destruct (skipSpace_total _ p (S fuel) w H) as (n & Hskip & Hrest & Hlen); [lia|].
  rewrite Hskip. unfold during at 1.
  pose proof (all_chars_skip_blanks _ _ Hs) as Hs1.
  rewrite (switch_import st stop _ _ w Hst). unfold bind.
  rewrite <- (append_empty_r (skip_blanks (String a s))) in Hrest.
  rewrite (skipTo_run stop _ EmptyString _ _ w Hrest Hs1) by (auto; lia).
  apply rest_advance_by in Hrest. rewrite (load_first _ _ w Hrest).
  cbn [first_char]. rewrite Hsn. unfold ret.
  unfold during. rewrite (load_past _ w Hrest).
  f_equal. f_equal. destruct p as [b o]. unfold advance_by. cbn [off buf]. lia.
Qed.

(** X1: in P_STATE_IN_IMPORT and P_STATE_IN_NAMESPACE everything up to the
    first ';' of the line is passed over and nothing is tagged: with a ';'
    the scan goes on in P_STATE_NONE from the byte behind it, in the same
    world; without one the state variable and the world are unchanged at the
    end of the line (the empty line returns; on any other line the advance
    behind the case then reads one position past the NUL). *)
Theorem import_skips_to_semicolon :
  (forall st p s t fuel w,
      importing st ->
      rest p = Some (s ++ String ";" t)%string ->
      all_chars (passes ";") s = true ->
      parseScssLine_loop (S (S (S (String.length s + String.length t + fuel)))) p st w
      = parseScssLine_loop (S (S (String.length s + String.length t + fuel)))
                           (advance_by (S (String.length s)) p) P_STATE_NONE w)
  /\ (forall st line w,
         importing st ->
         all_chars (passes ";") line = true ->
         parseScssLine line st w
         = match line with
           | EmptyString => Returned st w
           | String _ _ =>
               Aborted (ReadOutOfBounds (Z.of_nat (String.length line) + 1)) st w
           end).
Proof.
  split.
  - intros st p s t fuel w Hst. apply loop_skip_found. now right.
  - intros st line w Hst Hs. unfold parseScssLine.
    rewrite (loop_skip_line_end st ";" _ _ line w (or_intror (conj Hst eq_refl))
               (rest_start line) Hs (fuel_of_ge line w)).
    reflexivity.
Qed.

(** The line "url(a.css) screen; .b { }" in P_STATE_IN_IMPORT, and the line
    "svg" in P_STATE_IN_NAMESPACE. *)
Lemma import_skips_to_semicolon_witness :
  parseScssLine_loop 28 (At "url(a.css) screen; .b { }" 0) P_STATE_IN_IMPORT (start [])
    = parseScssLine_loop 27 (At "url(a.css) screen; .b { }" 18) P_STATE_NONE (start [])
  /\ parseScssLine "svg" P_STATE_IN_NAMESPACE (start [])
     = Aborted (ReadOutOfBounds 4) P_STATE_IN_NAMESPACE (start []).
Proof.
  destruct import_skips_to_semicolon as [Hfound Hend]. split.
  - exact (Hfound P_STATE_IN_IMPORT (At "url(a.css) screen; .b { }" 0)
                  "url(a.css) screen" " .b { }" 1%nat (start [])
                  (or_introl eq_refl) eq_refl eq_refl).
  - exact (Hend P_STATE_IN_NAMESPACE "svg" (start []) (or_intror eq_refl) eq_refl).
Defined.

(** ** The ways out of the declaration scanner *)








Lemma declaration_continues_empty s more name p kind fuel w :
  rest p = Some s ->
  all_chars accumulated s = true ->
  pending w = EmptyString :: more ->
  parseScssDeclaration_loop (String.length s + S (S fuel)) name p kind w
  = Failed (ReadOutOfBounds 1) (World more (tags w)).
Proof.
  intros H Hs Hp. rewrite <- (append_empty_r s) in H.
  rewrite (declaration_accumulates _ _ _ _ _ _ _ H Hs).
  apply rest_advance_by in H.
  rewrite (declaration_step _ _ _ _ _ _ (rest_first _ _ H)). cbn [first_char].
  rewrite Ascii.eqb_refl, Hp. unfold bind.
  rewrite (load_first _ _ _ (rest_start EmptyString)).
  now rewrite declaration_fault.
Qed.

(** X8: when an open clause reaches the end of its line and a further line
    is pending, the scanner takes that line and puts its first byte into the
    name without any test -- a '{', a ',' or a byte outside the allowed set
    as well as any other -- and goes on from its second byte.  When the
    pending line is empty, the scanner steps over its NUL and reads one
    position past it. *)
Theorem continuation_line_first_byte_unchecked :
  (forall s c l more name p kind fuel w,
      rest p = Some s ->
      all_chars accumulated s = true ->
      pending w = String c l :: more ->
      Ascii.eqb c NUL = false ->
      parseScssDeclaration_loop (String.length s + S fuel) name p kind w
      = parseScssDeclaration_loop fuel ((name ++ s) ++ String c EmptyString)%string
          (At (String c l) 1) kind (World more (tags w)))
  /\ (forall s more name p kind fuel w,
         rest p = Some s ->
         all_chars accumulated s = true ->
         pending w = EmptyString :: more ->
         parseScssDeclaration_loop (String.length s + S (S fuel)) name p kind w
         = Failed (ReadOutOfBounds 1) (World more (tags w))).
Proof.
  split; [exact declaration_continues | exact declaration_continues_empty].
Qed.

(** The input ".foo", "{ }": the '{' that starts the second line becomes
    part of the name; and the input "p", "" (an empty line behind an open
    clause). *)
Lemma continuation_line_first_byte_unchecked_witness :
  findScssTags [".foo"; "{ }"]
    = Returned P_STATE_NONE (World [] [Tag K_CLASS ".foo{"])
  /\ parseScssDeclaration_loop 8 EmptyString (At ".foo" 0) K_CLASS (World ["{ }"] [])
     = parseScssDeclaration_loop 3 ".foo{" (At "{ }" 1) K_CLASS (World [] [])
  /\ parseScssDeclaration_loop 3 EmptyString (At "p" 0) K_SELECTOR
                               (World [EmptyString; ".a"] [])
     = Failed (ReadOutOfBounds 1) (World [".a"] []).
Proof.
  destruct continuation_line_first_byte_unchecked as [Hc He].
  split; [reflexivity|]. split.
  - exact (Hc ".foo" "{"%char " }" [] EmptyString (At ".foo" 0) K_CLASS 3%nat
              (World ["{ }"] []) eq_refl eq_refl eq_refl eq_refl).
  - exact (He "p" [".a"] EmptyString (At "p" 0) K_SELECTOR 0%nat
              (World [EmptyString; ".a"] []) eq_refl eq_refl eq_refl).
Defined.

(** ** Behind a directive keyword *)

(** X10: behind the keyword of a directive the dispatcher steps over the
    whitespace byte that ended the keyword and goes on in the state of the
    keyword.  For a keyword that is none of the five that state is
    P_STATE_NONE: the rest of the line is scanned for declarations, so the
    parameters of an unknown directive are tagged. *)
Theorem scan_resumes_behind_directive_keyword :
  (forall p kw c t fuel w,
      rest p = Some (String "@" (kw ++ String c t)) ->
      all_chars keywordChar kw = true ->
      isspace c = true ->
      parseScssLine_loop (S (S (String.length kw + fuel))) p P_STATE_NONE w
      = parseScssLine_loop (S (String.length kw + fuel))
          (advance_by (S (S (String.length kw))) p)
          (directiveState kw P_STATE_NONE) w)
  /\ (forall p kw c t fuel w,
         rest p = Some (String "@" (kw ++ String c t)) ->
         all_chars keywordChar kw = true ->
         isspace c = true ->
         kw <> "media" -> kw <> "import" -> kw <> "namespace" ->
         kw <> "page" -> kw <> "font-face" ->
         parseScssLine_loop (S (S (String.length kw + fuel))) p P_STATE_NONE w
         = parseScssLine_loop (S (String.length kw + fuel))
             (advance_by (S (S (String.length kw))) p) P_STATE_NONE w).
Proof.
  assert (H1 : forall p kw c t fuel w,
      rest p = Some (String "@" (kw ++ String c t)) ->
      all_chars keywordChar kw = true ->
      isspace c = true ->
      parseScssLine_loop (S (S (String.length kw + fuel))) p P_STATE_NONE w
      = parseScssLine_loop (S (String.length kw + fuel))
          (advance_by (S (S (String.length kw))) p)
          (directiveState kw P_STATE_NONE) w).
  { intros p kw c t fuel w H Hkw Hc.
    rewrite (loop_step _ _ "@" _ w (rest_first _ _ H) eq_refl eq_refl).
    unfold during. rewrite (switch_directive _ _ _ _ _ w H Hkw Hc).
    now rewrite advance_advance_by. }
  split; [exact H1|].
  intros p kw c t fuel w H Hkw Hc N1 N2 N3 N4 N5.
  rewrite (H1 _ _ _ _ _ _ H Hkw Hc).
  now rewrite (directiveState_other kw P_STATE_NONE N1 N2 N3 N4 N5).
Qed.

(** The lines "@media print {" and "@extend .btn;": the second gives the
    tag (Class, ".btn"). *)
Lemma scan_resumes_behind_directive_keyword_witness :
  parseScssLine_loop 8 (At "@media print {" 0) P_STATE_NONE (start [])
    = parseScssLine_loop 7 (At "@media print {" 7) P_STATE_IN_MEDIA (start [])
  /\ parseScssLine_loop 18 (At "@extend .btn;" 0) P_STATE_NONE (start [])
     = parseScssLine_loop 17 (At "@extend .btn;" 8) P_STATE_NONE (start [])
  /\ parseScssLine "@extend .btn;" P_STATE_NONE (start [])
     = Returned P_STATE_NONE (World [] [Tag K_CLASS ".btn"]).
Proof.
  destruct scan_resumes_behind_directive_keyword as [Hk Hu].
  split; [|split; [|reflexivity]].
  - exact (Hk (At "@media print {" 0) "media" " "%char "print {" 1%nat (start [])
              eq_refl eq_refl eq_refl).
  - apply (Hu (At "@extend .btn;" 0) "extend" " "%char ".btn;" 10%nat (start []));
      try reflexivity; discriminate.
Defined.

(** ** Comments *)

Lemma switch_comment fuel p c w :
  deref p = Some c ->
  parseScssLine_switch fuel p P_STATE_IN_COMMENT w
  = if Ascii.eqb c "/" then
      bind (load (previous p))
           (fun b => ret (Break (if Ascii.eqb b "*" then P_STATE_NONE
                                 else P_STATE_IN_COMMENT) (Some p))) w
    else Done (Break P_STATE_IN_COMMENT (Some p)) w.
Proof.
  intros H. unfold parseScssLine_switch, bind. rewrite (load_deref _ _ w H).
  destruct (Ascii.eqb c "/"); [|reflexivity].
  destruct (load (previous p) w) as [b w'|f w']; [|reflexivity].
  now destruct (Ascii.eqb b "*").
Qed.

Lemma skipSpace_no_comment_end fuel : forall p s w p1 w1,
  rest p = Some s ->
  no_comment_end (deref (previous p)) s = true ->
  skipSpace fuel p w = Done p1 w1 ->
  exists s1, rest p1 = Some s1
             /\ no_comment_end (deref (previous p1)) s1 = true.
Proof.
  induction fuel as [|fuel IH]; intros p s w p1 w1 H Hs Hr; [discriminate Hr|].
  simpl in Hr. unfold bind in Hr. rewrite (load_first _ _ w H) in Hr.
  destruct (isspace (first_char s)) eqn:Hc.
  - destruct s as [|c t]; [discriminate Hc|].
    cbn [no_comment_end] in Hs. apply andb_true_iff in Hs as [_ Hs].
    destruct (rest_cons _ _ _ H) as [Hd Ht].
    apply (IH _ t w p1 w1 Ht); [|exact Hr].
    now rewrite deref_previous_advance, Hd.
  - injection Hr as <- <-. now exists s.
Qed.

(** A comment lasts as long as no '/' comes right behind a '*'. *)
Lemma comment_persists fuel : forall p s w,
  rest p = Some s ->
  no_comment_end (deref (previous p)) s = true ->
  ends_with P_STATE_IN_COMMENT w (parseScssLine_loop fuel p P_STATE_IN_COMMENT w).
Proof.
  induction fuel as [|fuel IH]; intros p s w H Hs; [now split|].
  cbn [parseScssLine_loop]. unfold during at 1.
  rewrite (load_first _ _ w H).
  destruct (Ascii.eqb (first_char s) NUL); [now split|].
  unfold during at 1.
  pose proof (skipSpace_keeps fuel p w) as Hk.
  destruct (skipSpace fuel p w) as [p1 w1|f w1] eqn:Hskip; simpl in Hk; subst w1;
    [|now split].
  destruct (skipSpace_no_comment_end _ _ _ _ _ _ H Hs Hskip) as (s1 & H1 & Hs1).
  unfold during.
  rewrite (switch_comment _ _ _ w (rest_first _ _ H1)).
  assert (Hgo : ends_with P_STATE_IN_COMMENT w
                  (parseScssLine_loop fuel (advance p1) P_STATE_IN_COMMENT w)).
  { destruct s1 as [|c t]; [apply loop_outside; now apply rest_nil in H1|].
    cbn [no_comment_end] in Hs1. apply andb_true_iff in Hs1 as [_ Hs1].
    destruct (rest_cons _ _ _ H1) as [Hd Ht].
    apply (IH _ t); [assumption|]. now rewrite deref_previous_advance, Hd. }
  destruct (Ascii.eqb (first_char s1) "/") eqn:Hc; [|exact Hgo].
  destruct s1 as [|c t]; [discriminate Hc|].
  cbn [first_char no_comment_end] in Hc, Hs1. unfold bind, load.
  destruct (deref (previous p1)) as [b|]; [|now split].
  rewrite Hc in Hs1. apply andb_true_iff in Hs1 as [Hb _].
  cbn [andb] in Hb. apply negb_true_iff in Hb.
  unfold ret. cbv beta iota. rewrite Hb. exact Hgo.
Qed.

Lemma loop_comment_close fuel p w :
  deref p = Some "/"%char -> deref (previous p) = Some "*"%char ->
  parseScssLine_loop (S (S fuel)) p P_STATE_IN_COMMENT w
  = parseScssLine_loop (S fuel) (advance p) P_STATE_NONE w.
Proof.
  intros H Hb. rewrite (loop_step _ _ _ _ w H eq_refl eq_refl). unfold during.
  rewrite (switch_comment _ _ _ w H). unfold bind.
  now rewrite (load_deref _ _ w Hb).
Qed.

Lemma loop_comment_open p t fuel w :
  rest p = Some (String "/" (String "*" t)) ->
  parseScssLine_loop (S (S (S fuel))) p P_STATE_NONE w
  = parseScssLine_loop (S fuel) (advance_by 2 p) P_STATE_IN_COMMENT w.
Proof.
  intros H. destruct (rest_cons _ _ _ H) as [Hd H1].
  rewrite (loop_step _ _ _ _ w Hd eq_refl eq_refl). unfold during at 1.
  unfold parseScssLine_switch at 1. unfold bind at 1.
  rewrite (load_deref _ _ w Hd). cbv beta iota.
  change (isalnum "/") with false. cbv iota.
  change (Ascii.eqb "/" ".") with false. change (Ascii.eqb "/" "#") with false.
  change (Ascii.eqb "/" "@") with false. change (Ascii.eqb "/" "*") with false.
  cbv iota. unfold ret at 1. cbv beta iota.
  destruct (rest_cons _ _ _ H1) as [Hd1 _].
  rewrite (loop_step _ _ _ _ w Hd1 eq_refl eq_refl). unfold during.
  unfold parseScssLine_switch, bind. rewrite (load_deref _ _ w Hd1).
  change (isalnum "*") with false.
  change (Ascii.eqb "*" ".") with false. change (Ascii.eqb "*" "#") with false.
  change (Ascii.eqb "*" "@") with false. change (Ascii.eqb "*" "*") with true.
  cbv iota.
  assert (Hp : load (previous (advance p)) w = Done "/"%char w).
  { apply load_deref. now rewrite deref_previous_advance. }
  cbv beta. rewrite Hp. change (Ascii.eqb "/" "/") with true. cbv iota. unfold ret.
  now rewrite <- !advance_by_S, advance_by_0.
Qed.

Lemma deref_before_second p a b t :
  rest p = Some (String a (String b t)) ->
  rest (advance_by 2 p) = Some t
  /\ deref (previous (advance_by 2 p)) = Some b.
Proof.
  intros H. destruct (rest_cons _ _ _ H) as [_ H1].
  destruct (rest_cons _ _ _ H1) as [Hd1 H2].
  rewrite <- !advance_by_S, advance_by_0. split; [assumption|].
  now rewrite deref_previous_advance.
Qed.

(** X2: in P_STATE_NONE the two bytes "/*" open a comment: the scan goes on
    behind them in P_STATE_IN_COMMENT.  A line that starts with "/*" and has
    no '/' right behind a '*' from there on is scanned without a tag, and
    ends with the state variable P_STATE_IN_COMMENT, whatever else it holds.
    The '*' that opens a comment also serves to close it: behind the three
    bytes "/*/" the scan goes on in P_STATE_NONE. *)
Theorem comment_opens_on_slash_star :
  (forall p t fuel w,
      rest p = Some (String "/" (String "*" t)) ->
      parseScssLine_loop (S (S (S fuel))) p P_STATE_NONE w
      = parseScssLine_loop (S fuel) (advance_by 2 p) P_STATE_IN_COMMENT w)
  /\ (forall body w,
         no_comment_end (Some "*"%char) body = true ->
         final_state (parseScssLine (String "/" (String "*" body)) P_STATE_NONE w)
         = P_STATE_IN_COMMENT
         /\ final_world (parseScssLine (String "/" (String "*" body)) P_STATE_NONE w)
            = w)
  /\ (forall p t fuel w,
         rest p = Some (String "/" (String "*" (String "/" t))) ->
         parseScssLine_loop (S (S (S (S fuel)))) p P_STATE_NONE w
         = parseScssLine_loop (S fuel) (advance_by 3 p) P_STATE_NONE w).
Proof.
  split; [exact loop_comment_open|]. split.
  - intros body w Hb. unfold parseScssLine.
    pose proof (fuel_of_ge (String "/" (String "*" body)) w) as Hf. simpl in Hf.
    replace (fuel_of (String "/" (String "*" body)) w)
      with (S (S (S (fuel_of (String "/" (String "*" body)) w - 3)))) by lia.
    rewrite (loop_comment_open _ body _ w (rest_start _)).
    destruct (deref_before_second _ _ _ _ (rest_start (String "/" (String "*" body))))
      as [Hr Hd].
    apply (comment_persists _ _ body w Hr). now rewrite Hd.
  - intros p t fuel w H.
    rewrite (loop_comment_open _ _ (S fuel) w H).
    destruct (deref_before_second _ _ _ _ H) as [Hr Hd].
    rewrite (loop_comment_close _ _ w (rest_first _ _ Hr) Hd).
    now rewrite advance_advance_by.
Qed.

(** The lines "a {} /* .b, #c {" and "/*/ .d { }". *)
Lemma comment_opens_on_slash_star_witness :
  parseScssLine_loop 12 (At "a {} /* .b, #c {" 5) P_STATE_NONE (start [])
    = parseScssLine_loop 10 (At "a {} /* .b, #c {" 7) P_STATE_IN_COMMENT (start [])
  /\ final_world (parseScssLine "/* .b, #c {" P_STATE_NONE (start [".e {"]))
     = start [".e {"]
  /\ parseScssLine_loop 13 (At "/*/ .d { }" 0) P_STATE_NONE (start [])
     = parseScssLine_loop 10 (At "/*/ .d { }" 3) P_STATE_NONE (start []).
Proof.
  destruct comment_opens_on_slash_star as (Ho & Hl & Hc).
  split; [|split].
  - exact (Ho (At "a {} /* .b, #c {" 5) " .b, #c {" 9%nat (start []) eq_refl).
  - exact (proj2 (Hl " .b, #c {" (start [".e {"]) eq_refl)).
  - exact (Hc (At "/*/ .d { }" 0) " .d { }" 9%nat (start []) eq_refl).
Defined.

(** X3: a scan in P_STATE_IN_COMMENT tags nothing and keeps the state as
    long as no '/' comes right behind a '*': over the rest of a line, and
    over a whole line (where a '/' as very first byte has no byte before it;
    the lookback then leaves the line buffer).  On a '/' right
    behind a '*' the state becomes P_STATE_NONE and the scan goes on with
    the byte behind the '/'. *)
Theorem comment_lasts_until_star_slash :
  (forall fuel p s w,
      rest p = Some s ->
      no_comment_end (deref (previous p)) s = true ->
      final_state (parseScssLine_loop fuel p P_STATE_IN_COMMENT w)
      = P_STATE_IN_COMMENT
      /\ final_world (parseScssLine_loop fuel p P_STATE_IN_COMMENT w) = w)
  /\ (forall line w,
         no_comment_end None line = true ->
         final_state (parseScssLine line P_STATE_IN_COMMENT w) = P_STATE_IN_COMMENT
         /\ final_world (parseScssLine line P_STATE_IN_COMMENT w) = w)
  /\ (forall fuel p w,
         deref p = Some "/"%char -> deref (previous p) = Some "*"%char ->
         parseScssLine_loop (S (S fuel)) p P_STATE_IN_COMMENT w
         = parseScssLine_loop (S fuel) (advance p) P_STATE_NONE w).
Proof.
  split; [|split; [|exact loop_comment_close]].
  - intros fuel p s w. apply comment_persists.
  - intros line w Hs. unfold parseScssLine.
    now apply (comment_persists _ _ line).
Qed.

(** The line " * .a { } / #b {" inside a comment, and the end of the comment
    in "x */ .c". *)
Lemma comment_lasts_until_star_slash_witness :
  final_world (parseScssLine " * .a { } / #b {" P_STATE_IN_COMMENT (start []))
    = start []
  /\ parseScssLine_loop 9 (At "x */ .c" 3) P_STATE_IN_COMMENT (start [])
     = parseScssLine_loop 8 (At "x */ .c" 4) P_STATE_NONE (start []).
Proof.
  destruct comment_lasts_until_star_slash as (_ & Hl & Hc). split.
  - exact (proj2 (Hl " * .a { } / #b {" (start []) eq_refl)).
  - exact (Hc 7%nat (At "x */ .c" 3) (start []) eq_refl eq_refl).
Defined.

(** ** Rule bodies *)

Lemma switch_body st fuel p c w :
  inBody st -> deref p = Some c ->
  parseScssLine_switch fuel p st w
  = Done (Break (if Ascii.eqb c "}" then P_STATE_NONE
                 else if Ascii.eqb c SQUOTE then P_STATE_IN_SINGLE_STRING
                 else if Ascii.eqb c DQUOTE then P_STATE_IN_DOUBLE_STRING
                 else st) (Some p)) w.
Proof.
  intros [->|[->| ->]] H; unfold parseScssLine_switch, bind;
    rewrite (load_deref _ _ w H);
    destruct (Ascii.eqb c "}"); try reflexivity;
    destruct (Ascii.eqb c SQUOTE); try reflexivity;
    destruct (Ascii.eqb c DQUOTE); reflexivity.
Qed.

Lemma skipSpace_all_chars f fuel : forall p s w p1 w1,
  rest p = Some s -> all_chars f s = true ->
  skipSpace fuel p w = Done p1 w1 ->
  exists s1, rest p1 = Some s1 /\ all_chars f s1 = true.
Proof.
  induction fuel as [|fuel IH]; intros p s w p1 w1 H Hs Hr; [discriminate Hr|].
  simpl in Hr. unfold bind in Hr. rewrite (load_first _ _ w H) in Hr.
  destruct (isspace (first_char s)) eqn:Hc.
  - destruct s as [|c t]; [discriminate Hc|].
    simpl in Hs. apply andb_true_iff in Hs as [_ Hs].
    destruct (rest_cons _ _ _ H) as [_ Ht].
    now apply (IH _ t w p1 w1 Ht).
  - injection Hr as <- <-. now exists s.
Qed.

Lemma bodyChar_inv c :
  bodyChar c = true ->
  Ascii.eqb c "}" = false /\ Ascii.eqb c SQUOTE = false
  /\ Ascii.eqb c DQUOTE = false.
Proof.
  unfold bodyChar. intros H. apply andb_true_iff in H as [H H3].
  apply andb_true_iff in H as [H1 H2].
  now rewrite negb_true_iff in H1, H2, H3.
Qed.

(** A rule body lasts as long as no '}' and no quote comes. *)
Lemma body_persists st fuel : forall p s w,
  inBody st ->
  rest p = Some s ->
  all_chars bodyChar s = true ->
  ends_with st w (parseScssLine_loop fuel p st w).
Proof.
  induction fuel as [|fuel IH]; intros p s w Hst H Hs; [now split|].
  cbn [parseScssLine_loop]. unfold during at 1.
  rewrite (load_first _ _ w H).
  destruct (Ascii.eqb (first_char s) NUL); [now split|].
  unfold during at 1.
  pose proof (skipSpace_keeps fuel p w) as Hk.
  destruct (skipSpace fuel p w) as [p1 w1|f w1] eqn:Hskip; simpl in Hk; subst w1;
    [|now split].
  destruct (skipSpace_all_chars _ _ _ _ _ _ _ H Hs Hskip) as (s1 & H1 & Hs1).
  unfold during.
  rewrite (switch_body _ _ _ _ w Hst (rest_first _ _ H1)).
  destruct s1 as [|c t].
  - cbn [first_char]. change (Ascii.eqb NUL "}") with false.
    change (Ascii.eqb NUL SQUOTE) with false.
    change (Ascii.eqb NUL DQUOTE) with false. cbv iota.
    apply loop_outside. now apply rest_nil in H1.
  - simpl in Hs1. apply andb_true_iff in Hs1 as [Hc Hs1].
    destruct (bodyChar_inv _ Hc) as (E1 & E2 & E3).
    cbn [first_char]. rewrite E1, E2, E3.
    destruct (rest_cons _ _ _ H1) as [_ Ht]. now apply (IH _ t).
Qed.

(** X4: in the rule body states (P_STATE_IN_DEFINITION, P_STATE_IN_PAGE,
    P_STATE_IN_FONTFACE) a stretch of line without '}' and without quotes
    is passed over: nothing is tagged, whatever selectors it spells, and the
    state variable is unchanged at the end of the line.  Braces are not
    counted: a '{' in the body is passed over like any byte, and the first
    '}' returns to P_STATE_NONE; a quote enters the string state of its
    kind.  In each case the scan goes on with the next byte. *)
Theorem rule_body_is_skipped_to_first_closing_brace :
  (forall st fuel p s w,
      inBody st ->
      rest p = Some s ->
      all_chars bodyChar s = true ->
      final_state (parseScssLine_loop fuel p st w) = st
      /\ final_world (parseScssLine_loop fuel p st w) = w)
  /\ (forall st fuel p c w,
         inBody st ->
         deref p = Some c -> Ascii.eqb c NUL = false -> isspace c = false ->
         parseScssLine_loop (S (S fuel)) p st w
         = parseScssLine_loop (S fuel) (advance p)
             (if Ascii.eqb c "}" then P_STATE_NONE
              else if Ascii.eqb c SQUOTE then P_STATE_IN_SINGLE_STRING
              else if Ascii.eqb c DQUOTE then P_STATE_IN_DOUBLE_STRING
              else st) w)
  /\ bodyChar "{" = true.
Proof.
  split; [|split; [|reflexivity]].
  - intros st fuel p s w. apply body_persists.
  - intros st fuel p c w Hst H Hn Hs.
    rewrite (loop_step _ _ _ _ w H Hn Hs). unfold during.
    now rewrite (switch_body _ _ _ _ w Hst H).
Qed.

(** The nested rule "a { b { c: d } e { f: g } }": the body of "a" up to
    the first '}', and the '}' itself, behind which "e " is tagged. *)
Lemma rule_body_is_skipped_to_first_closing_brace_witness :
  final_world (parseScssLine_loop 40 (At "a { b { c: d" 3) P_STATE_IN_DEFINITION
                                  (start []))
    = start []
  /\ parseScssLine_loop 40 (At "a { b { c: d } e { f: g } }" 13)
                        P_STATE_IN_DEFINITION (start [])
     = parseScssLine_loop 39 (At "a { b { c: d } e { f: g } }" 14)
                          P_STATE_NONE (start [])
  /\ parseScssLine "a { b { c: d } e { f: g } }" P_STATE_NONE (start [])
     = Returned P_STATE_NONE (World [] [Tag K_SELECTOR "a "; Tag K_SELECTOR "e "]).
Proof.
  destruct rule_body_is_skipped_to_first_closing_brace as (Hp & Hs & _).
  split; [|split; [|reflexivity]].
  - exact (proj2 (Hp P_STATE_IN_DEFINITION 40%nat (At "a { b { c: d" 3) " b { c: d"
                     (start []) (or_introl eq_refl) eq_refl eq_refl)).
  - exact (Hs P_STATE_IN_DEFINITION 38%nat (At "a { b { c: d } e { f: g } }" 13)
              "}"%char (start []) (or_introl eq_refl) eq_refl eq_refl eq_refl).
Defined.

(** ** What the scanner does to the tag sink and the line source *)

Lemma extends_refl w : extends w w.
Proof. exists [], []. now rewrite app_nil_r. Qed.

Lemma extends_trans w1 w2 w3 : extends w1 w2 -> extends w2 w3 -> extends w1 w3.
Proof.
  intros (ts & ls & Ht & Hs & Hp) (ts' & ls' & Ht' & Hs' & Hp').
  exists (ts ++ ts'), (ls ++ ls'). repeat split.
  - now rewrite Ht', Ht, app_assoc.
  - apply Forall_app. now split.
  - now rewrite Hp, Hp', app_assoc.
Qed.

Lemma extending_bind {A B} (m : M A) (k : A -> M B) :
  extending m -> (forall a, extending (k a)) -> extending (bind m k).
Proof.
  intros Hm Hk w. unfold bind. specialize (Hm w).
  destruct (m w) as [a w'|f w']; simpl in *; [|assumption].
  apply (extends_trans _ _ _ Hm), Hk.
Qed.

Lemma extending_ret {A} (a : A) : extending (ret a).
Proof. intros w. apply extends_refl. Qed.

Lemma extending_raise {A} f : extending (@raise A f).
Proof. intros w. apply extends_refl. Qed.

Lemma extending_load p : extending (load p).
Proof. intros w. unfold load. destruct (deref p); apply extends_refl. Qed.

(** The continuation of a dereference knows the byte it has read. *)
Lemma extending_load_bind {B} p (k : ascii -> M B) :
  (forall c, deref p = Some c -> extending (k c)) -> extending (bind (load p) k).
Proof.
  intros Hk w. unfold bind, load.
  destruct (deref p) as [c|]; [now apply Hk | apply extends_refl].
Qed.

Lemma extending_fileReadLine : extending fileReadLine.
Proof.
  intros w. unfold fileReadLine. destruct (pending w) as [|l more] eqn:Hp; simpl.
  - apply extends_refl.
  - exists [], [l]. simpl. now rewrite app_nil_r.
Qed.

Lemma strip_first s kind :
  declarationKind (first_char s) = Some kind ->
  first_char (vStringStripTrailing s) = first_char s.
Proof.
  destruct s as [|c t]; [reflexivity|]. intros H.
  destruct (declarationKind_char _ _ H) as (_ & Hs & _).
  simpl. destruct (vStringStripTrailing t); [|reflexivity].
  simpl in Hs. now rewrite Hs.
Qed.

Lemma strip_idempotent s :
  vStringStripTrailing (vStringStripTrailing s) = vStringStripTrailing s.
Proof.
  induction s as [|c t IH]; [reflexivity|]. simpl.
  destruct (vStringStripTrailing t) as [|d r] eqn:Ht.
  - destruct (isspace c) eqn:Hc; [reflexivity|]. simpl. now rewrite Hc.
  - change (vStringStripTrailing (String c (String d r)))
      with (match vStringStripTrailing (String d r) with
            | EmptyString => if isspace c then EmptyString else String c EmptyString
            | String x y => String c (String x y)
            end).
    now rewrite IH.
Qed.

Lemma extending_emit {A} name kind delete (a : A) :
  declarationKind (first_char name) = Some kind ->
  extending (bind (makeScssSimpleTag name kind delete) (fun _ => ret a)).
Proof.
  intros Hn w. unfold bind. rewrite makeScssSimpleTag_emits. simpl.
  exists [Tag kind (finalName kind name)], []. repeat split.
  constructor; [|constructor]. split; simpl.
  - destruct kind; try exact Hn. simpl. now rewrite (strip_first _ _ Hn).
  - intros ->. simpl. apply strip_idempotent.
Qed.

Lemma vStringPut_first name c kind :
  declarationKind (first_char name) = Some kind ->
  declarationKind (first_char (vStringPut name c)) = Some kind.
Proof.
  intros H. unfold vStringPut. destruct (Ascii.eqb c NUL); [exact H|].
  rewrite first_char_append; [exact H|]. intros ->. discriminate H.
Qed.

Lemma skipSpace_extending fuel : forall p, extending (skipSpace fuel p).
Proof.
  induction fuel as [|fuel IH]; intros p; [apply extending_raise|].
  simpl. apply extending_bind; [apply extending_load|].
  intros c. destruct (isspace c); [apply IH | apply extending_ret].
Qed.

Lemma readDirective_extending fuel : forall aux p, extending (readDirective fuel aux p).
Proof.
  induction fuel as [|fuel IH]; intros aux p; [apply extending_raise|].
  simpl. apply extending_bind; [apply extending_load|].
  intros c. destruct (negb (isspace c)); [apply IH | apply extending_ret].
Qed.

Lemma skipTo_extending fuel stop : forall p, extending (skipTo fuel stop p).
Proof.
  induction fuel as [|fuel IH]; intros p; [apply extending_raise|].
  simpl. apply extending_bind; [apply extending_load|].
  intros c. destruct (negb (Ascii.eqb c stop)); [|apply extending_ret].
  destruct (Ascii.eqb c NUL); [apply extending_ret | apply IH].
Qed.

(** The declaration loop, once the name holds the byte that started the
    declaration. *)
Lemma declaration_extending fuel : forall name p kind,
  declarationKind (first_char name) = Some kind ->
  extending (parseScssDeclaration_loop fuel name p kind).
Proof.
  induction fuel as [|fuel IH]; intros name p kind Hn; [apply extending_raise|].
  simpl. apply extending_bind;
    [apply extending_bind; [apply extending_load | intros; apply extending_ret]|].
  intros allowed. apply extending_bind; [apply extending_load|]. intros c.
  destruct (allowed || Ascii.eqb c NUL); [|now apply extending_emit].
  destruct (Ascii.eqb c NUL).
  - apply extending_bind; [apply extending_fileReadLine|].
    intros [cp'|]; [|now apply extending_emit].
    apply extending_bind; [apply extending_load|].
    intros c'. apply IH. now apply vStringPut_first.
  - destruct (Ascii.eqb c ","); [now apply extending_emit|].
    destruct (Ascii.eqb c "{"); [now apply extending_emit|].
    apply IH. now apply vStringPut_first.
Qed.

(** The declaration scanner, called on the first byte of a declaration. *)
Lemma parseScssDeclaration_extending fuel p c kind :
  deref p = Some c -> declarationKind c = Some kind ->
  extending (parseScssDeclaration fuel p kind).
Proof.
  intros H Hk w. unfold parseScssDeclaration.
  destruct fuel as [|fuel]; [apply extends_refl|].
  rewrite (declaration_step _ _ _ _ _ w H).
  destruct (declarationKind_char _ _ Hk) as (Hn & _ & Ha).
  destruct (accumulated_inv _ Ha) as (Hal & _ & Hc & Hb).
  rewrite Hn, Hal, Hc, Hb. simpl negb. cbv iota.
  apply declaration_extending.
  rewrite (vStringPut_char _ _ Hn). exact Hk.
Qed.

Lemma switch_extending fuel p st : extending (parseScssLine_switch fuel p st).
Proof.
  destruct st; unfold parseScssLine_switch;
    try (repeat first
           [ apply extending_ret
           | apply extending_load
           | apply skipTo_extending
           | apply extending_bind; [|intros ?]
           | match goal with
             | |- extending (if ?b then _ else _) => destruct b
             end ]; fail).
  apply extending_load_bind. intros c Hd.
  assert (Hdecl : forall kind,
             declarationKind c = Some kind ->
             extending (bind (parseScssDeclaration fuel p kind)
                             (fun r => ret (break_of r)))).
  { intros kind Hk. apply extending_bind;
      [now apply (parseScssDeclaration_extending fuel p c) | intros; apply extending_ret]. }
  unfold declarationKind in Hdecl.
  destruct (isalnum c); [now apply Hdecl|].
  destruct (Ascii.eqb c "."); [now apply Hdecl|].
  destruct (Ascii.eqb c "#"); [now apply Hdecl|].
  destruct (Ascii.eqb c "@").
  { apply extending_bind; [apply readDirective_extending | intros; apply extending_ret]. }
  destruct (Ascii.eqb c "*"); [|apply extending_ret].
  apply extending_bind; [apply extending_load|].
  intros b. destruct (Ascii.eqb b "/"); apply extending_ret.
Qed.

Lemma loop_extends fuel : forall p st w,
  extends w (final_world (parseScssLine_loop fuel p st w)).
Proof.
  induction fuel as [|fuel IH]; intros p st w; [apply extends_refl|].
  cbn [parseScssLine_loop]. unfold during.
  pose proof (extending_load p w) as H1.
  destruct (load p w) as [c w1|f w1]; simpl in H1; [|exact H1].
  destruct (Ascii.eqb c NUL); [exact H1|].
  pose proof (skipSpace_extending fuel p w1) as H2.
  destruct (skipSpace fuel p w1) as [p1 w2|f w2]; simpl in H2;
    [|exact (extends_trans _ _ _ H1 H2)].
  pose proof (switch_extending fuel p1 st w2) as H3.
  pose proof (extends_trans _ _ _ H1 H2) as H12.
  destruct (parseScssLine_switch fuel p1 st w2) as [[st' [q|]|st'] w3|f w3];
    simpl in H3; simpl; try exact (extends_trans _ _ _ H12 H3).
  exact (extends_trans _ _ _ (extends_trans _ _ _ H12 H3) (IH _ _ _)).
Qed.

Lemma find_extends fuel : forall st w,
  extends w (final_world (findScssTags_loop fuel st w)).
Proof.
  induction fuel as [|fuel IH]; intros st w; [apply extends_refl|].
  cbn [findScssTags_loop]. unfold during.
  pose proof (extending_fileReadLine w) as H1.
  destruct (fileReadLine w) as [[line|] w1|f w1]; simpl in H1; try exact H1.
  pose proof (loop_extends (fuel_of (buf line) w1) (At (buf line) 0) st w1) as H2.
  unfold parseScssLine.
  destruct (parseScssLine_loop (fuel_of (buf line) w1) (At (buf line) 0) st w1)
    as [st' w2|f st' w2]; simpl in H2; [|exact (extends_trans _ _ _ H1 H2)].
  destruct (state_eq_dec st' P_STATE_AT_END);
    [exact (extends_trans _ _ _ H1 H2)|].
  exact (extends_trans _ _ _ (extends_trans _ _ _ H1 H2) (IH st' w2)).
Qed.

Lemma find_tags_sound input :
  Forall (fun t =>
            declarationKind (first_char (tagName t)) = Some (tagKind t)
            /\ (tagKind t = K_CLASS ->
                vStringStripTrailing (tagName t) = tagName t))
         (final_tags (findScssTags input)).
Proof.
  destruct (find_extends (S (List.length input)) P_STATE_NONE (start input))
    as (ts & ls & Ht & Hs & _).
  unfold final_tags, findScssTags. fold (start input). rewrite Ht. exact Hs.
Qed.

Lemma declared_kind_not_none c kind :
  declarationKind c = Some kind -> kind <> K_NONE.
Proof.
  intros Hk ->. unfold declarationKind in Hk.
  destruct (isalnum c); [discriminate|].
  destruct (Ascii.eqb c "."); [discriminate|].
  destruct (Ascii.eqb c "#"); discriminate.
Qed.

(** X5: every tag of every scan is well formed.  Its name is not empty and
    starts with the byte that started the declaration, and that byte decides
    the kind: '.' for a class, '#' for an id, a letter or digit for a
    selector; the kind is never K_NONE.  The name is also what tag emission
    would leave of it: the name of a class has no trailing whitespace. *)
Theorem every_tag_is_well_formed input :
  Forall (fun t =>
            declarationKind (first_char (tagName t)) = Some (tagKind t)
            /\ tagName t <> EmptyString
            /\ tagKind t <> K_NONE
            /\ finalName (tagKind t) (tagName t) = tagName t)
         (final_tags (findScssTags input)).
Proof.
  eapply Forall_impl; [|exact (find_tags_sound input)].
  intros [kind name] [Hk Hc]. simpl in *. repeat split.
  - exact Hk.
  - intros ->. discriminate Hk.
  - exact (declared_kind_not_none _ _ Hk).
  - destruct kind; try reflexivity. now apply Hc.
Qed.

(** X6: a scan only adds to the tag sink and only takes from the line
    source: the tags before the scan of a line, or of the rest of the
    input, are a prefix of the tags after it, in the same order, and the
    lines still pending after it are a suffix of those pending before.
    This holds also when the scan stops on a read outside a line buffer. *)
Theorem scan_appends_tags_and_consumes_lines :
  (forall line st w,
      exists ts ls,
        final_tags (parseScssLine line st w) = tags w ++ ts
        /\ pending w = ls ++ pending (final_world (parseScssLine line st w)))
  /\ (forall fuel st w,
         exists ts ls,
           final_tags (findScssTags_loop fuel st w) = tags w ++ ts
           /\ pending w = ls ++ pending (final_world (findScssTags_loop fuel st w))).
Proof.
  split.
  - intros line st w.
    destruct (loop_extends (fuel_of line w) (At line 0) st w) as (ts & ls & Ht & _ & Hp).
    now exists ts, ls.
  - intros fuel st w.
    destruct (find_extends fuel st w) as (ts & ls & Ht & _ & Hp).
    now exists ts, ls.
Qed.

(** X11: the kind of every tag of every scan that ScssParser's parser makes
    is an index inside the table ScssKinds that ScssParser registers (it is
    at least 0 and below kindCount), and the entry at that index is
    enabled. *)
Theorem every_tag_kind_indexes_ScssKinds input :
  Forall (fun t =>
            (0 <= kindValue (tagKind t) < Z.of_nat (kindCount ScssParser))
            /\ exists k, kindEntry (kinds ScssParser) (tagKind t) = Some k
                         /\ enabled k = true)
         (final_tags (parser ScssParser input)).
Proof.
  eapply Forall_impl; [|exact (find_tags_sound input)].
  intros [kind name] [Hk _]. simpl in *.
  apply declared_kind_not_none in Hk.
  destruct kind; [contradiction| | |]; (split; [simpl; lia|]);
    eexists; split; reflexivity.
Qed.

(** ** The end of the line *)

Lemma loop_at_outside fuel p st w :
  deref p = None ->
  parseScssLine_loop (S fuel) p st w = Aborted (ReadOutOfBounds (off p)) st w.
Proof.
  intros H. cbn [parseScssLine_loop]. unfold during, load. now rewrite H.
Qed.

Lemma switch_on_nul st fuel p w :
  st <> P_STATE_AT_END -> rest p = Some EmptyString ->
  parseScssLine_switch (S fuel) p st w = Done (Break st (Some p)) w.
Proof.
  intros Hst H.
  destruct st; try contradiction; unfold parseScssLine_switch;
    cbn [skipTo]; unfold bind; rewrite (load_first _ _ w H);
    cbn [first_char]; try reflexivity;
    change (negb (Ascii.eqb NUL "{")) with true;
    change (negb (Ascii.eqb NUL ";")) with true;
    change (Ascii.eqb NUL NUL) with true; cbv iota; unfold ret;
    rewrite (load_first _ _ w H); reflexivity.
Qed.

(** X13: three ways in which the scan of a line runs over the end of the
    line, for every line of the kind.  (1) A directive keyword that runs up
    to the end of the line: the keyword loop reads one position past the
    NUL.  (2) A clause whose terminator ',' or '{' is the last byte of the
    line: the tag is emitted, and the dispatcher then steps over the NUL.
    (3) A line, or rest of a line, made of whitespace only, in any state but
    P_STATE_AT_END.  In each case the first read past the NUL is at the
    offset given, with the state variable and the world as given. *)
Theorem scan_runs_over_line_end :
  (forall p kw fuel w,
      rest p = Some (String "@" kw) ->
      all_chars keywordChar kw = true ->
      parseScssLine_loop (S (S (S (String.length kw + fuel)))) p P_STATE_NONE w
      = Aborted (ReadOutOfBounds (off p + Z.of_nat (String.length kw) + 2))
                P_STATE_NONE w)
  /\ (forall p s kind fuel w,
         rest p = Some (s ++ String "," EmptyString)%string ->
         declarationKind (first_char s) = Some kind ->
         all_chars accumulated s = true ->
         parseScssLine_loop (S (S (String.length s + fuel))) p P_STATE_NONE w
         = Aborted (ReadOutOfBounds (off p + Z.of_nat (String.length s) + 2))
                   P_STATE_NONE (emitted w kind (finalName kind s)))
  /\ (forall p s kind fuel w,
         rest p = Some (s ++ String "{" EmptyString)%string ->
         declarationKind (first_char s) = Some kind ->
         all_chars accumulated s = true ->
         parseScssLine_loop (S (S (String.length s + fuel))) p P_STATE_NONE w
         = Aborted (ReadOutOfBounds (off p + Z.of_nat (String.length s) + 2))
                   P_STATE_IN_DEFINITION (emitted w kind (finalName kind s)))
  /\ (forall p a ws st fuel w,
         st <> P_STATE_AT_END ->
         rest p = Some (String a ws) ->
         all_chars isspace (String a ws) = true ->
         parseScssLine_loop (S (S (S (String.length ws + fuel)))) p st w
         = Aborted (ReadOutOfBounds (off p + Z.of_nat (String.length ws) + 2)) st w).
Proof.
  split; [|split; [|split]].
  - exact loop_keyword_overrun.
  - intros p s kind fuel w H Hk Hs.
    rewrite (loop_resumes_after_comma _ _ _ _ _ w H Hk Hs).
    assert (H1 : rest p = Some ((s ++ String "," EmptyString) ++ EmptyString)%string)
      by now rewrite append_empty_r.
    apply rest_advance_by in H1. rewrite length_append in H1.
    cbn [String.length] in H1.
    replace (String.length s + 1)%nat with (S (String.length s)) in H1 by lia.
    apply rest_nil in H1 as [_ H1]. rewrite advance_advance_by in H1.
    rewrite (loop_at_outside _ _ _ _ H1).
    f_equal. f_equal. destruct p as [b o]. unfold advance_by. cbn [off]. lia.
  - intros p s kind fuel w H Hk Hs.
    rewrite (loop_resumes_after_brace _ _ _ _ _ w H Hk Hs).
    assert (H1 : rest p = Some ((s ++ String "{" EmptyString) ++ EmptyString)%string)
      by now rewrite append_empty_r.
    apply rest_advance_by in H1. rewrite length_append in H1.
    cbn [String.length] in H1.
    replace (String.length s + 1)%nat with (S (String.length s)) in H1 by lia.
    apply rest_nil in H1 as [_ H1]. rewrite advance_advance_by in H1.
    rewrite (loop_at_outside _ _ _ _ H1).
    f_equal. f_equal. destruct p as [b o]. unfold advance_by. cbn [off]. lia.
  - intros p a ws st fuel w Hst H Hws.
    pose proof H as H0. rewrite <- (append_empty_r (String a ws)) in H0.
    rewrite (loop_iteration _ _ _ (advance_by (String.length (String a ws)) p) st w H).
    + apply rest_advance_by in H0. unfold during.
      rewrite (switch_on_nul _ _ _ w Hst H0).
      apply rest_nil in H0 as [_ H0].
      rewrite (loop_at_outside _ _ _ _ H0).
      f_equal. f_equal. destruct p as [b o].
      unfold advance_by. cbn [off advance String.length]. lia.
    + simpl in Hws. apply andb_true_iff in Hws as [Ha _].
      now apply isspace_not_nul.
    + apply (skipSpace_run (String a ws) EmptyString); [assumption..|reflexivity|].
      simpl. lia.
Qed.

(** The lines "@media", ".a,", ".a {" and a line of two blanks. *)
Lemma scan_runs_over_line_end_witness :
  parseScssLine_loop 8 (At "@media" 0) P_STATE_NONE (start [])
    = Aborted (ReadOutOfBounds 7) P_STATE_NONE (start [])
  /\ parseScssLine_loop 4 (At ".a," 0) P_STATE_NONE (start [])
     = Aborted (ReadOutOfBounds 4) P_STATE_NONE (World [] [Tag K_CLASS ".a"])
  /\ parseScssLine_loop 5 (At ".a {" 0) P_STATE_NONE (start [])
     = Aborted (ReadOutOfBounds 5) P_STATE_IN_DEFINITION (World [] [Tag K_CLASS ".a"])
  /\ parseScssLine_loop 4 (At "  " 0) P_STATE_IN_COMMENT (start [])
     = Aborted (ReadOutOfBounds 3) P_STATE_IN_COMMENT (start []).
Proof.
  destruct scan_runs_over_line_end as (Hk & Hc & Hb & Hw).
  split; [|split; [|split]].
  - exact (Hk (At "@media" 0) "media" 0%nat (start []) eq_refl eq_refl).
  - exact (Hc (At ".a," 0) ".a" K_CLASS 0%nat (start []) eq_refl eq_refl eq_refl).
  - exact (Hb (At ".a {" 0) ".a " K_CLASS 0%nat (start []) eq_refl eq_refl eq_refl).
  - apply (Hw (At "  " 0) " "%char " " P_STATE_IN_COMMENT 0%nat (start []));
      [discriminate | reflexivity..].
Defined.

(** ** The whole scan *)

Lemma find_returned fuel : forall st w st' w',
  st <> P_STATE_AT_END ->
  findScssTags_loop fuel st w = Returned st' w' ->
  pending w' = [].
Proof.
  induction fuel as [|fuel IH]; intros st w st' w' Hst H; [discriminate H|].
  cbn [findScssTags_loop] in H. unfold during, fileReadLine in H.
  destruct (pending w) as [|l more] eqn:Hp.
  - injection H as <- <-. exact Hp.
  - unfold parseScssLine in H.
    pose proof (loop_end (fuel_of (buf (At l 0)) (World more (tags w)))
                         (At (buf (At l 0)) 0) st (World more (tags w)) Hst) as Hl.
    destruct (parseScssLine_loop (fuel_of (buf (At l 0)) (World more (tags w)))
                (At (buf (At l 0)) 0) st (World more (tags w)))
      as [st1 w1|f st1 w1]; [|discriminate H].
    destruct (state_eq_dec st1 P_STATE_AT_END) as [->|Hne].
    + injection H as <- <-.
      destruct (Hl eq_refl) as (w2 & Hr & Hp2 & _). now injection Hr as <-.
    + now apply (IH st1 w1 st' w').
Qed.

(** X14: a scan that returns has taken every line of its input: when
    findScssTags returns, no line is left pending, be it that the last line
    was scanned to its end or that the input ended inside a declaration. *)
Theorem returned_scan_has_consumed_input input st w' :
  findScssTags input = Returned st w' -> pending w' = [].
Proof.
  unfold findScssTags. intros H.
  now apply (find_returned _ P_STATE_NONE _ st w') in H.
Qed.

(** The input ".a { }", "b", " , c { }": the clause that starts on the
    second line takes the third line itself. *)
Lemma returned_scan_has_consumed_input_witness :
  pending (World [] [Tag K_CLASS ".a"; Tag K_SELECTOR "b "; Tag K_SELECTOR "c "]) = [].
Proof.
  exact (returned_scan_has_consumed_input [".a { }"; "b"; " , c { }"] P_STATE_NONE
           (World [] [Tag K_CLASS ".a"; Tag K_SELECTOR "b "; Tag K_SELECTOR "c "])
           eq_refl).
Defined.
